(** * HeartMuLa web backend: job orchestration core

    A shallow embedding of [web/backend/services/pipeline_service.py] and
    [web/backend/routers/generation.py]: the job registry, the single-slot
    admission gate, the progress callbacks, the executor run by
    [_generate_with_progress] and the server-sent-event bridge of
    [stream_progress].

    Conventions.
    - A Python [int] is a [Z]; a Python [float] that the code only compares
      with or assigns from literals and quotients of ints is an exact rational
      [Q] (the float is its correctly rounded image, and rounding is monotone).
    - [str] is [string]; [Optional[T]] is [option T]; a [dict] is a [gmap].
    - A job object is shared between the registry, the executor and the
      queues of the bridges.  The registry entry [_jobs !! job_id] is that
      object: every field write of the executor is a write to the entry.
      The executor is only given a job that [create_job] has stored, and
      nothing removes an entry.
    - An exception is an instance of [Exception]; [KeyboardInterrupt] and
      [SystemExit], which no [except Exception] clause catches, are not
      modelled.
    - [datetime.now()] reads a clock kept in the environment.
    - The executor runs in a thread of its own.  The properties of a run are
      stated on what the run hands out, the job at each call of
      [_notify_progress], and on what it leaves in the registry.  What a
      reader on another thread can see between two field writes is the
      registry left by the executor cut at a statement. *)

From Stdlib Require Import ZArith QArith List Lia.
From stdpp Require Import base gmap strings list fin_maps sorting.

Local Open Scope Z_scope.
Local Open Scope string_scope.
Local Open Scope list_scope.

(** ** Data model *)

Inductive JobStatus := QUEUED | LOADING | GENERATING | COMPLETED | FAILED.

Definition JobStatus_value (s : JobStatus) : string :=
  match s with
  | QUEUED => "queued"
  | LOADING => "loading"
  | GENERATING => "generating"
  | COMPLETED => "completed"
  | FAILED => "failed"
  end.

(** [job.status in (JobStatus.COMPLETED, JobStatus.FAILED)] *)
Definition is_terminal (s : JobStatus) : bool :=
  match s with
  | COMPLETED | FAILED => true
  | _ => false
  end.

Record GenerationJob := {
  job_id : string;
  lyrics : string;
  tags : string;
  temperature : Q;
  topk : Z;
  cfg_scale : Q;
  max_audio_length_ms : Z;
  status : JobStatus;
  progress : Q;
  current_frame : Z;
  total_frames : Z;
  output_path : option string;
  error : option string;
  created_at : nat;
  started_at : option nat;
  completed_at : option nat
}.

Definition set_status (s : JobStatus) (j : GenerationJob) : GenerationJob :=
  {| job_id := job_id j; lyrics := lyrics j; tags := tags j;
     temperature := temperature j; topk := topk j; cfg_scale := cfg_scale j;
     max_audio_length_ms := max_audio_length_ms j;
     status := s; progress := progress j;
     current_frame := current_frame j; total_frames := total_frames j;
     output_path := output_path j; error := error j;
     created_at := created_at j; started_at := started_at j;
     completed_at := completed_at j |}.

Definition set_progress (p : Q) (j : GenerationJob) : GenerationJob :=
  {| job_id := job_id j; lyrics := lyrics j; tags := tags j;
     temperature := temperature j; topk := topk j; cfg_scale := cfg_scale j;
     max_audio_length_ms := max_audio_length_ms j;
     status := status j; progress := p;
     current_frame := current_frame j; total_frames := total_frames j;
     output_path := output_path j; error := error j;
     created_at := created_at j; started_at := started_at j;
     completed_at := completed_at j |}.

Definition set_current_frame (n : Z) (j : GenerationJob) : GenerationJob :=
  {| job_id := job_id j; lyrics := lyrics j; tags := tags j;
     temperature := temperature j; topk := topk j; cfg_scale := cfg_scale j;
     max_audio_length_ms := max_audio_length_ms j;
     status := status j; progress := progress j;
     current_frame := n; total_frames := total_frames j;
     output_path := output_path j; error := error j;
     created_at := created_at j; started_at := started_at j;
     completed_at := completed_at j |}.

Definition set_total_frames (n : Z) (j : GenerationJob) : GenerationJob :=
  {| job_id := job_id j; lyrics := lyrics j; tags := tags j;
     temperature := temperature j; topk := topk j; cfg_scale := cfg_scale j;
     max_audio_length_ms := max_audio_length_ms j;
     status := status j; progress := progress j;
     current_frame := current_frame j; total_frames := n;
     output_path := output_path j; error := error j;
     created_at := created_at j; started_at := started_at j;
     completed_at := completed_at j |}.

Definition set_output_path (p : option string) (j : GenerationJob) : GenerationJob :=
  {| job_id := job_id j; lyrics := lyrics j; tags := tags j;
     temperature := temperature j; topk := topk j; cfg_scale := cfg_scale j;
     max_audio_length_ms := max_audio_length_ms j;
     status := status j; progress := progress j;
     current_frame := current_frame j; total_frames := total_frames j;
     output_path := p; error := error j;
     created_at := created_at j; started_at := started_at j;
     completed_at := completed_at j |}.

Definition set_error (e : option string) (j : GenerationJob) : GenerationJob :=
  {| job_id := job_id j; lyrics := lyrics j; tags := tags j;
     temperature := temperature j; topk := topk j; cfg_scale := cfg_scale j;
     max_audio_length_ms := max_audio_length_ms j;
     status := status j; progress := progress j;
     current_frame := current_frame j; total_frames := total_frames j;
     output_path := output_path j; error := e;
     created_at := created_at j; started_at := started_at j;
     completed_at := completed_at j |}.

Definition set_started_at (t : option nat) (j : GenerationJob) : GenerationJob :=
  {| job_id := job_id j; lyrics := lyrics j; tags := tags j;
     temperature := temperature j; topk := topk j; cfg_scale := cfg_scale j;
     max_audio_length_ms := max_audio_length_ms j;
     status := status j; progress := progress j;
     current_frame := current_frame j; total_frames := total_frames j;
     output_path := output_path j; error := error j;
     created_at := created_at j; started_at := t;
     completed_at := completed_at j |}.

Definition set_completed_at (t : option nat) (j : GenerationJob) : GenerationJob :=
  {| job_id := job_id j; lyrics := lyrics j; tags := tags j;
     temperature := temperature j; topk := topk j; cfg_scale := cfg_scale j;
     max_audio_length_ms := max_audio_length_ms j;
     status := status j; progress := progress j;
     current_frame := current_frame j; total_frames := total_frames j;
     output_path := output_path j; error := error j;
     created_at := created_at j; started_at := started_at j;
     completed_at := t |}.

(** ** Exceptions *)

(** The exceptions the service sees: its own [RuntimeError] and whatever
    [Exception] an external call (the inference engine, torchaudio, a
    callback) raises.  Both are instances of [Exception], which is what the
    [except Exception] clauses of the source catch. *)
Inductive Exn :=
| RuntimeError (msg : string)
| Exception (msg : string).

(** [str(e)] *)
Definition str (e : Exn) : string :=
  match e with
  | RuntimeError msg => msg
  | Exception msg => msg
  end.

Inductive Outcome (A : Type) :=
| Normal (a : A)
| Raised (e : Exn).
Arguments Normal {A} a.
Arguments Raised {A} e.

(** What an external call does in a run: it returns, or it raises an
    exception whose [str] is [msg]. *)
Inductive Call := Returns | Raises (msg : string).

(** What one call of [model.generate_frame] inside the loop gives: a frame,
    a frame with a token [>= audio_eos_id], or an exception. *)
Inductive FrameOutcome := Frame | EndOfSequence | FrameError (msg : string).

(** The external collaborators as one run of the executor sees them.
    [HeartMuLaGenPipeline], [torch] and [torchaudio] are not part of the
    backend; each field says what the corresponding call does. *)
Record Engine := {
  (** [HeartMuLaGenPipeline.from_pretrained(...)] *)
  from_pretrained : Call;
  (** [_sanitize_parameters] followed by [preprocess] *)
  preprocess : Call;
  (** [forward_kwargs["max_audio_length_ms"]] as [_sanitize_parameters]
      returns it for the [max_audio_length_ms] it is given *)
  forward_max_audio_length_ms : Z -> Z;
  (** moving the inputs to the device, [setup_caches] and the first
      [generate_frame], the one whose frame primes the sequence *)
  first_frame : Call;
  (** the [generate_frame] call of iteration [i] of the loop *)
  generate_frame : nat -> FrameOutcome;
  (** [torch.stack(frames)...] and [audio_codec.detokenize] *)
  detokenize : Call;
  (** [torchaudio.save] *)
  torchaudio_save : Call
}.

(** ** The service and its environment *)

(** What a run leaves behind, in order: every write of [job.status], every
    call of [_notify_progress] on a registered job (with the content of the
    job at that moment), every call of a registered callback (its position
    in the list, the job it was handed, whether it raised), and the write
    [self._current_job = None]. *)
Inductive Event :=
| EvStatus (s : JobStatus)
| EvNotify (snapshot : GenerationJob)
| EvCallback (i : nat) (snapshot : GenerationJob) (raised : bool)
| EvRelease.

Section Service.

(** Whatever the registered callbacks act on (for the bridges of
    [stream_progress], their queues).  It is disjoint from the service:
    a callback gets the job and does not reach back into the service. *)
Variable World : Type.

(** [Callable[[GenerationJob], None]] *)
Definition Callback : Type := GenerationJob -> World -> World * Outcome unit.

Record PipelineService := {
  (** [self._pipeline is not None] *)
  _pipeline : bool;
  _jobs : gmap string GenerationJob;
  _current_job : option string;
  _progress_callbacks : gmap string (list Callback)
}.

(** [PipelineService.__init__] *)
Definition init : PipelineService :=
  {| _pipeline := false; _jobs := ∅; _current_job := None;
     _progress_callbacks := ∅ |}.

Definition with_pipeline (b : bool) (st : PipelineService) : PipelineService :=
  {| _pipeline := b; _jobs := _jobs st; _current_job := _current_job st;
     _progress_callbacks := _progress_callbacks st |}.

Definition with_jobs (m : gmap string GenerationJob) (st : PipelineService)
  : PipelineService :=
  {| _pipeline := _pipeline st; _jobs := m; _current_job := _current_job st;
     _progress_callbacks := _progress_callbacks st |}.

Definition with_current_job (c : option string) (st : PipelineService)
  : PipelineService :=
  {| _pipeline := _pipeline st; _jobs := _jobs st; _current_job := c;
     _progress_callbacks := _progress_callbacks st |}.

Definition with_progress_callbacks (m : gmap string (list Callback))
  (st : PipelineService) : PipelineService :=
  {| _pipeline := _pipeline st; _jobs := _jobs st;
     _current_job := _current_job st; _progress_callbacks := m |}.

Record Env := {
  service : PipelineService;
  world : World;
  clock : nat;
  trace : list Event
}.

(** State and exceptions: a computation changes the environment and
    returns or raises; what it changed before raising stays changed. *)
Definition M (A : Type) : Type := Env -> Env * Outcome A.

Definition ret {A} (a : A) : M A := fun env => (env, Normal a).

Definition bind {A B} (m : M A) (k : A -> M B) : M B :=
  fun env =>
    match m env with
    | (env', Normal a) => k a env'
    | (env', Raised e) => (env', Raised e)
    end.

Definition raise {A} (e : Exn) : M A := fun env => (env, Raised e).

(** [try: m  except Exception as e: handler e] *)
Definition try_except {A} (m : M A) (handler : Exn -> M A) : M A :=
  fun env =>
    match m env with
    | (env', Normal a) => (env', Normal a)
    | (env', Raised e) => handler e env'
    end.

Definition get_service : M PipelineService :=
  fun env => (env, Normal (service env)).

Definition modify_service (f : PipelineService -> PipelineService) : M unit :=
  fun env =>
    ({| service := f (service env); world := world env;
        clock := clock env; trace := trace env |}, Normal tt).

Definition log (ev : Event) : M unit :=
  fun env =>
    ({| service := service env; world := world env;
        clock := clock env; trace := trace env ++ [ev] |}, Normal tt).

(** [datetime.now()] *)
Definition datetime_now : M nat :=
  fun env =>
    ({| service := service env; world := world env;
        clock := S (clock env); trace := trace env |}, Normal (clock env)).

(** An external call of the engine. *)
Definition call (c : Call) : M unit :=
  match c with
  | Returns => ret tt
  | Raises msg => raise (Exception msg)
  end.

End Service.

Arguments _pipeline {World} _.
Arguments _jobs {World} _.
Arguments _current_job {World} _.
Arguments _progress_callbacks {World} _.
Arguments init {World}.
Arguments with_pipeline {World} _ _.
Arguments with_jobs {World} _ _.
Arguments with_current_job {World} _ _.
Arguments with_progress_callbacks {World} _ _.
Arguments service {World} _.
Arguments world {World} _.
Arguments clock {World} _.
Arguments trace {World} _.
Arguments Build_Env {World} _ _ _ _.
Arguments ret {World A} _ _.
Arguments bind {World A B} _ _ _.
Arguments raise {World A} _ _.
Arguments try_except {World A} _ _ _.
Arguments get_service {World} _.
Arguments modify_service {World} _ _.
Arguments log {World} _ _.
Arguments datetime_now {World} _.
Arguments call {World} _ _.

Declare Scope py_scope.
Delimit Scope py_scope with py.
Notation "x <- m ;; k" := (bind m (fun x => k))
  (at level 100, m at next level, k at level 200, right associativity) : py_scope.
Notation "m ;; k" := (bind m (fun _ => k))
  (at level 100, k at level 200, right associativity) : py_scope.

Local Open Scope py_scope.

(** ** [PipelineService]: registry and callbacks *)

(** A field write [job.f = v] on the shared job object. *)
Definition update_job {World} (job : GenerationJob)
  (f : GenerationJob -> GenerationJob) : M World unit :=
  modify_service (fun st => with_jobs (alter f (job_id job) (_jobs st)) st).

(** [job.status = s] *)
Definition write_status {World} (job : GenerationJob) (s : JobStatus)
  : M World unit :=
  update_job job (set_status s) ;; log (EvStatus s).

(** [create_job]; [uuid] is the value [str(uuid.uuid4())] takes and [now]
    the one of [datetime.now()]. *)
Definition create_job {World} (uuid : string) (now : nat)
  (lyrics tags : string) (temperature : Q) (topk : Z) (cfg_scale : Q)
  (max_audio_length_ms : Z) (st : PipelineService World)
  : GenerationJob * PipelineService World :=
  let job :=
    {| job_id := uuid; lyrics := lyrics; tags := tags;
       temperature := temperature; topk := topk; cfg_scale := cfg_scale;
       max_audio_length_ms := max_audio_length_ms;
       status := QUEUED; progress := 0%Q;
       current_frame := 0; total_frames := 0;
       output_path := None; error := None;
       created_at := now; started_at := None; completed_at := None |} in
  (job, with_jobs (<[uuid := job]> (_jobs st)) st).

(** [get_job] *)
Definition get_job {World} (st : PipelineService World) (job_id : string)
  : option GenerationJob :=
  _jobs st !! job_id.

(** [register_progress_callback] *)
Definition register_progress_callback {World} (job_id : string)
  (callback : Callback World) (st : PipelineService World)
  : PipelineService World :=
  let cbs : list (Callback World) :=
    match _progress_callbacks st !! job_id with
    | Some l => l
    | None => []
    end in
  with_progress_callbacks
    (<[job_id := (cbs ++ [callback])%list]> (_progress_callbacks st)) st.

(** [unregister_progress_callbacks]: [self._progress_callbacks.pop(job_id, None)] *)
Definition unregister_progress_callbacks {World} (job_id : string)
  (st : PipelineService World) : PipelineService World :=
  with_progress_callbacks (delete job_id (_progress_callbacks st)) st.

(** The number of callbacks registered for a job id. *)
Definition subscribers {World} (st : PipelineService World) (job_id : string)
  : nat :=
  match _progress_callbacks st !! job_id with
  | Some l => length l
  | None => 0%nat
  end.

(** [callback(job)], recorded in the trace. *)
Definition invoke {World} (i : nat) (callback : Callback World)
  (job : GenerationJob) : M World unit :=
  fun env =>
    let '(w, r) := callback job (world env) in
    ({| service := service env; world := w; clock := clock env;
        trace := trace env ++
                 [EvCallback i job
                    match r with Normal _ => false | Raised _ => true end] |},
     r).

(** The loop of [_notify_progress]; [i] is the position of the head of
    [callbacks] in the registered list. *)
Fixpoint call_callbacks {World} (i : nat) (callbacks : list (Callback World))
  (job : GenerationJob) : M World unit :=
  match callbacks with
  | [] => ret tt
  | callback :: rest =>
      try_except (invoke i callback job) (fun _ => ret tt) ;;
      call_callbacks (S i) rest job
  end.

(** [_notify_progress] *)
Definition _notify_progress {World} (job_id : string) : M World unit :=
  st <- get_service ;;
  match _jobs st !! job_id with
  | Some job =>
      log (EvNotify job) ;;
      match _progress_callbacks st !! job_id with
      | Some callbacks => call_callbacks 0 callbacks job
      | None => ret tt
      end
  | None => ret tt
  end.

(** ** [PipelineService]: the executor *)

(** [load_pipeline] *)
Definition load_pipeline {World} (eng : Engine) : M World unit :=
  st <- get_service ;;
  if _pipeline st then ret tt
  else
    call (from_pretrained eng) ;;
    modify_service (with_pipeline true).

(** The [for i in range(max_audio_frames)] loop of [_forward_with_progress]:
    [n] iterations are left and the next one has index [i]. *)
Fixpoint frame_loop {World} (eng : Engine) (job : GenerationJob)
  (max_audio_frames : Z) (n i : nat) : M World unit :=
  match n with
  | O => ret tt
  | S n' =>
      match generate_frame eng i with
      | FrameError msg => raise (Exception msg)
      | EndOfSequence => ret tt
      | Frame =>
          update_job job (set_current_frame (Z.of_nat i + 1)) ;;
          update_job job
            (set_progress (inject_Z (Z.of_nat i + 1) / inject_Z max_audio_frames)%Q) ;;
          _notify_progress (job_id job) ;;
          frame_loop eng job max_audio_frames n' (S i)
      end
  end.

(** [_forward_with_progress]; [max_audio_length_ms] is
    [forward_kwargs["max_audio_length_ms"]]. *)
Definition _forward_with_progress {World} (eng : Engine) (job : GenerationJob)
  (max_audio_length_ms : Z) : M World unit :=
  call (first_frame eng) ;;
  let max_audio_frames := max_audio_length_ms / 80 in
  frame_loop eng job max_audio_frames (Z.to_nat max_audio_frames) 0 ;;
  call (detokenize eng).

(** The [try] block of [_generate_with_progress]. *)
Definition generate_try {World} (eng : Engine) (job : GenerationJob)
  : M World unit :=
  call (preprocess eng) ;;
  let max_audio_frames := max_audio_length_ms job / 80 in
  update_job job (set_total_frames max_audio_frames) ;;
  _forward_with_progress eng job
    (forward_max_audio_length_ms eng (max_audio_length_ms job)) ;;
  call (torchaudio_save eng) ;;
  update_job job (set_output_path (Some ("/output/" +:+ job_id job +:+ ".mp3"))) ;;
  write_status job COMPLETED ;;
  update_job job (set_progress 1%Q) ;;
  now <- datetime_now ;;
  update_job job (set_completed_at (Some now)).

(** Its [except Exception as e] clause. *)
Definition generate_except {World} (job : GenerationJob) (e : Exn)
  : M World unit :=
  write_status job FAILED ;;
  update_job job (set_error (Some (str e))) ;;
  now <- datetime_now ;;
  update_job job (set_completed_at (Some now)).

(** [_generate_with_progress] *)
Definition _generate_with_progress {World} (eng : Engine) (job : GenerationJob)
  : M World unit :=
  write_status job LOADING ;;
  now <- datetime_now ;;
  update_job job (set_started_at (Some now)) ;;
  _notify_progress (job_id job) ;;
  load_pipeline eng ;;
  write_status job GENERATING ;;
  _notify_progress (job_id job) ;;
  try_except (generate_try eng job) (generate_except job) ;;
  _notify_progress (job_id job) ;;
  modify_service (with_current_job None) ;;
  log EvRelease.

(** The part of [PipelineService.start_generation] before its [await]: the
    test of [_current_job] and the assignment to it.  The coroutine does not
    suspend in between, so the event loop runs the two as one step. *)
Definition start_generation_acquire {World} (job : GenerationJob)
  : M World unit :=
  st <- get_service ;;
  match _current_job st with
  | Some _ => raise (RuntimeError "A generation is already in progress")
  | None => modify_service (with_current_job (Some (job_id job)))
  end.

(** [PipelineService.start_generation]; the awaited [run_in_executor]
    returns what the executor returns and raises what it raises. *)
Definition start_generation {World} (eng : Engine) (job : GenerationJob)
  : M World unit :=
  start_generation_acquire job ;;
  _generate_with_progress eng job.

(** A run from an environment with an empty trace. *)
Definition run {World A} (m : M World A) (st : PipelineService World)
  (w : World) (now : nat) : Env World * Outcome A :=
  m {| service := st; world := w; clock := now; trace := [] |}.

(** ** [routers/generation.py] *)

Module Router.

(** A handler returns its response or raises [HTTPException]. *)
Inductive HttpResult (A : Type) :=
| Ok (a : A)
| HTTPException (status_code : Z) (detail : string).
Arguments Ok {A} a.
Arguments HTTPException {A} status_code detail.

(** A request body that passed the [Field] bounds; FastAPI answers a body
    outside them before the handler runs. *)
Record GenerationRequest := {
  req_lyrics : string;
  req_tags : string;
  req_temperature : Q;
  req_topk : Z;
  req_cfg_scale : Q;
  req_max_audio_length_ms : Z
}.

Record GenerationResponse := {
  resp_job_id : string;
  resp_status : string;
  resp_message : string
}.

(** The dictionary built by [_job_to_dict], which has the fields of
    [JobStatusResponse]. *)
Record JobDict := {
  d_job_id : string;
  d_status : string;
  d_progress : Q;
  d_current_frame : Z;
  d_total_frames : Z;
  d_output_path : option string;
  d_error : option string
}.

(** [_job_to_dict] *)
Definition _job_to_dict (job : GenerationJob) : JobDict :=
  {| d_job_id := job_id job;
     d_status := JobStatus_value (status job);
     d_progress := progress job;
     d_current_frame := current_frame job;
     d_total_frames := total_frames job;
     d_output_path := output_path job;
     d_error := error job |}.

(** [POST /start].  The third component is the background task the handler
    adds: [pipeline_service.start_generation] on the new job. *)
Definition start_generation {World} (uuid : string) (now : nat)
  (request : GenerationRequest) (st : PipelineService World)
  : HttpResult GenerationResponse * PipelineService World * option GenerationJob :=
  match _current_job st with
  | Some _ =>
      (HTTPException 429
         "A generation is already in progress. Please wait for it to complete.",
       st, None)
  | None =>
      let '(job, st') :=
        create_job uuid now (req_lyrics request) (req_tags request)
          (req_temperature request) (req_topk request)
          (req_cfg_scale request) (req_max_audio_length_ms request) st in
      (Ok {| resp_job_id := job_id job;
             resp_status := JobStatus_value (status job);
             resp_message :=
               "Generation started. Use /progress/{job_id} to track progress." |},
       st', Some job)
  end.

(** [GET /status/{job_id}] *)
Definition get_job_status {World} (st : PipelineService World) (job_id : string)
  : HttpResult JobDict :=
  match get_job st job_id with
  | None => HTTPException 404 "Job not found"
  | Some job => Ok (_job_to_dict job)
  end.

(** *** [GET /progress/{job_id}] *)

(** The queues of the open streams, by connection; a queue holds the job
    objects the callback was handed. *)
Definition Queues : Type := gmap nat (list GenerationJob).

(** What the response body carries: a [data:] record or the keepalive
    comment. *)
Inductive SseEvent :=
| Data (d : JobDict)
| Keepalive.

(** [on_progress], the closure over the queue of one connection; the queue
    is unbounded, so [put_nowait] does not raise. *)
Definition on_progress (queue : nat) : Callback Queues :=
  fun updated_job w =>
    (<[queue := (default [] (w !! queue) ++ [updated_job])%list]> w, Normal tt).

(** Where the generator [event_generator] of a connection stands: not yet
    started, suspended at one of its [yield]s, suspended in
    [wait_for(queue.get(), timeout=30.0)], or finished. *)
Inductive Position :=
| NotStarted
| AtInitialYield
| AtWait
| AtUpdateYield (updated_job : GenerationJob)
| AtKeepaliveYield
| AtFinalYield
| Finished.

Record Bridge := {
  (** the path parameter [job_id] *)
  b_job_id : string;
  (** the job found by [stream_progress], as it was then *)
  b_job : GenerationJob;
  (** the [asyncio.Queue] of this connection *)
  b_queue : nat;
  b_position : Position
}.

Definition at_position (p : Position) (b : Bridge) : Bridge :=
  {| b_job_id := b_job_id b; b_job := b_job b; b_queue := b_queue b;
     b_position := p |}.

(** What drives a generator: the response asks for the next chunk (or the
    awaited [wait_for] completes), or the client goes away and the
    generator is closed. *)
Inductive Input := Resume | Disconnect.

(** The fields the job object of a connection holds now.  The object found
    by [stream_progress] and the objects its callback is handed are one
    object, the registry entry under the path parameter; nothing removes an
    entry. *)
Definition current {World} (st : PipelineService World) (b : Bridge)
  (job : GenerationJob) : GenerationJob :=
  default job (_jobs st !! b_job_id b).

(** [stream_progress] up to the construction of the response. *)
Definition stream_progress {World} (st : PipelineService World)
  (job_id : string) (queue : nat) : HttpResult Bridge :=
  match get_job st job_id with
  | None => HTTPException 404 "Job not found"
  | Some job =>
      Ok {| b_job_id := job_id; b_job := job; b_queue := queue;
            b_position := NotStarted |}
  end.

(** What a step of the generator leaves: the generator, the events it
    yielded, the service and the queues. *)
Record Stepped := {
  bridge : Bridge;
  emitted : list SseEvent;
  service_after : PipelineService Queues;
  queues_after : Queues
}.

(** The [finally] clause, reached without a further [yield]. *)
Definition finish (b : Bridge) (st : PipelineService Queues) (w : Queues)
  : Stepped :=
  {| bridge := at_position Finished b;
     emitted := [];
     service_after := unregister_progress_callbacks (b_job_id b) st;
     queues_after := w |}.

(** One step of [event_generator]: from where it stands to its next
    suspension, with the events it yields on the way. *)
Definition step (b : Bridge) (inp : Input) (st : PipelineService Queues)
  (w : Queues) : Stepped :=
  match b_position b, inp with
  | Finished, _ =>
      {| bridge := b; emitted := []; service_after := st; queues_after := w |}
  | NotStarted, Disconnect =>
      {| bridge := at_position Finished b; emitted := [];
         service_after := st; queues_after := w |}
  | NotStarted, Resume =>
      {| bridge := at_position AtInitialYield b;
         emitted := [Data (_job_to_dict (current st b (b_job b)))];
         service_after :=
           register_progress_callback (b_job_id b) (on_progress (b_queue b)) st;
         queues_after := <[b_queue b := []]> w |}
  | _, Disconnect => finish b st w
  | AtInitialYield, Resume =>
      if is_terminal (status (current st b (b_job b)))
      then finish b st w
      else {| bridge := at_position AtWait b; emitted := [];
              service_after := st; queues_after := w |}
  | AtWait, Resume =>
      match default [] (w !! b_queue b) with
      | updated_job :: rest =>
          {| bridge := at_position (AtUpdateYield updated_job) b;
             emitted := [Data (_job_to_dict (current st b updated_job))];
             service_after := st;
             queues_after := <[b_queue b := rest]> w |}
      | [] =>
          {| bridge := at_position AtKeepaliveYield b;
             emitted := [Keepalive];
             service_after := st; queues_after := w |}
      end
  | AtUpdateYield updated_job, Resume =>
      if is_terminal (status (current st b updated_job))
      then finish b st w
      else {| bridge := at_position AtWait b; emitted := [];
              service_after := st; queues_after := w |}
  | AtKeepaliveYield, Resume =>
      match get_job st (b_job_id b) with
      | None => finish b st w
      | Some current_job =>
          if is_terminal (status current_job)
          then {| bridge := at_position AtFinalYield b;
                  emitted := [Data (_job_to_dict current_job)];
                  service_after := st; queues_after := w |}
          else {| bridge := at_position AtWait b; emitted := [];
                  service_after := st; queues_after := w |}
      end
  | AtFinalYield, Resume => finish b st w
  end.

(** A connection driven by a list of inputs with nothing else running in
    between. *)
Fixpoint drive (b : Bridge) (inputs : list Input)
  (st : PipelineService Queues) (w : Queues) : Stepped :=
  match inputs with
  | [] => {| bridge := b; emitted := []; service_after := st; queues_after := w |}
  | inp :: rest =>
      let s1 := step b inp st w in
      let s2 := drive (bridge s1) rest (service_after s1) (queues_after s1) in
      {| bridge := bridge s2;
         emitted := emitted s1 ++ emitted s2;
         service_after := service_after s2;
         queues_after := queues_after s2 |}
  end.

(** The generator has entered its [try] statement and not left it. *)
Definition in_try (b : Bridge) : Prop :=
  b_position b <> NotStarted /\ b_position b <> Finished.

(** *** [GET /download/{job_id}] *)

Record DownloadInfo := {
  dl_job_id : string;
  dl_download_url : string;
  dl_filename : string
}.

(** [get_download_info], with the path parameter [job_id] as [id].  The
    slice [job.job_id[:8]] is the first eight characters; job ids are the
    ASCII strings [create_job] makes of [uuid4]. *)
Definition get_download_info {World} (st : PipelineService World)
  (id : string) : HttpResult DownloadInfo :=
  match get_job st id with
  | None => HTTPException 404 "Job not found"
  | Some job =>
      match status job with
      | COMPLETED =>
          match output_path job with
          | None => HTTPException 500 "Output path not available"
          | Some path =>
              Ok {| dl_job_id := job_id job;
                    dl_download_url := path;
                    dl_filename :=
                      "heartmula_" +:+ String.substring 0 8 (job_id job)
                      +:+ ".mp3" |}
          end
      | _ => HTTPException 400 "Job is not completed"
      end
  end.

End Router.

(** ** The admission gate on the event loop

    The handler of [POST /start] and [PipelineService.start_generation] are
    coroutines of one event loop.  The handler has no [await]; the coroutine
    of the service reaches its only [await] after it has tested and set
    [_current_job].  Each is therefore one segment the loop runs without
    running anything else.  The executor thread touches [_current_job] in a
    single store, its last statement.  A schedule is a list of such
    segments, in the order the interpreter runs them. *)

Module EventLoop.

Inductive Segment :=
(** the handler of one [POST /start] *)
| PostStart (uuid : string) (now : nat) (request : Router.GenerationRequest)
(** a background task: [pipeline_service.start_generation(job)] up to its
    [await] *)
| BackgroundStart (job : GenerationJob)
(** [self._current_job = None], by the executor thread *)
| ExecutorRelease.

(** What a segment ends with. *)
Inductive Observation :=
| HttpError (status_code : Z) (detail : string)
| Started (response : Router.GenerationResponse)
| AcquireRaised (e : Exn)
| Acquired (job_id : string)
| Released.

Definition segment {World} (seg : Segment) (env : Env World)
  : Env World * Observation :=
  match seg with
  | PostStart uuid now request =>
      let '(response, st, _) :=
        Router.start_generation uuid now request (service env) in
      ({| service := st; world := world env; clock := clock env;
          trace := trace env |},
       match response with
       | Router.Ok r => Started r
       | Router.HTTPException status_code detail => HttpError status_code detail
       end)
  | BackgroundStart job =>
      let '(env', r) := start_generation_acquire job env in
      (env',
       match r with
       | Normal _ => Acquired (job_id job)
       | Raised e => AcquireRaised e
       end)
  | ExecutorRelease =>
      (fst (modify_service (with_current_job None) env), Released)
  end.

Fixpoint schedule {World} (segs : list Segment) (env : Env World)
  : list Observation * Env World :=
  match segs with
  | [] => ([], env)
  | seg :: rest =>
      let '(env1, o) := segment seg env in
      let '(os, env2) := schedule rest env1 in
      (o :: os, env2)
  end.

Definition is_release (seg : Segment) : bool :=
  match seg with
  | ExecutorRelease => true
  | _ => false
  end.

Definition is_acquired (o : Observation) : bool :=
  match o with
  | Acquired _ => true
  | _ => false
  end.

Definition acquisitions (os : list Observation) : nat :=
  length (filter (fun o => is_acquired o = true) os).

End EventLoop.

(** ** Reading a run *)

(** The job an event carries, if it carries one. *)
Definition snapshot_of (ev : Event) : option GenerationJob :=
  match ev with
  | EvNotify s => Some s
  | EvCallback _ s _ => Some s
  | _ => None
  end.

(** The jobs handed out during a run, in order. *)
Definition snapshots (tr : list Event) : list GenerationJob :=
  omap snapshot_of tr.

(** The writes of [job.status] of a run, in order. *)
Definition status_writes (tr : list Event) : list JobStatus :=
  omap (fun ev => match ev with EvStatus s => Some s | _ => None end) tr.

Definition is_release_event (ev : Event) : bool :=
  match ev with
  | EvRelease => true
  | _ => false
  end.

(** How often a run executed [self._current_job = None]. *)
Definition releases (tr : list Event) : nat :=
  length (filter (fun ev => is_release_event ev = true) tr).

(** The job is the registry entry under its own id, as [create_job] leaves
    it. *)
Definition registered {World} (st : PipelineService World)
  (job : GenerationJob) : Prop :=
  _jobs st !! job_id job = Some job.

(** The mutable fields still hold what [create_job] gave them. *)
Definition untouched (job : GenerationJob) : Prop :=
  status job = QUEUED /\ progress job = 0%Q /\
  output_path job = None /\ error job = None.

(** Exactly one of the two result fields is set. *)
Definition one_result (job : GenerationJob) : Prop :=
  (is_Some (output_path job) /\ error job = None) \/
  (output_path job = None /\ is_Some (error job)).

Definition no_result (job : GenerationJob) : Prop :=
  output_path job = None /\ error job = None.

(** The environment of an executor at work on [j]: the registry of [st0]
    with [j] under its id, the callbacks of [st0]. *)
Definition at_work {World} (st0 : PipelineService World) (loaded : bool)
  (slot : option string) (j : GenerationJob) (w : World) (c : nat)
  (tr : list Event) : Env World :=
  {| service := {| _pipeline := loaded;
                   _jobs := <[job_id j := j]> (_jobs st0);
                   _current_job := slot;
                   _progress_callbacks := _progress_callbacks st0 |};
     world := w; clock := c; trace := tr |}.

(** The callbacks registered for a job id, none if the key is absent. *)
Definition callbacks_of {World} (st : PipelineService World) (job_id : string)
  : list (Callback World) :=
  default [] (_progress_callbacks st !! job_id).

Definition has_raised {A} (r : Outcome A) : bool :=
  match r with
  | Normal _ => false
  | Raised _ => true
  end.

(** What the callbacks leave of the world, and the events of their calls. *)
Fixpoint callbacks_world {World} (callbacks : list (Callback World))
  (job : GenerationJob) (w : World) : World :=
  match callbacks with
  | [] => w
  | callback :: rest => callbacks_world rest job (fst (callback job w))
  end.

Fixpoint callbacks_events {World} (i : nat) (callbacks : list (Callback World))
  (job : GenerationJob) (w : World) : list Event :=
  match callbacks with
  | [] => []
  | callback :: rest =>
      EvCallback i job (has_raised (snd (callback job w)))
      :: callbacks_events (S i) rest job (fst (callback job w))
  end.

(** The job after the loop has appended its [m]-th frame. *)
Definition frame_job (max_audio_frames : Z) (j : GenerationJob) (m : nat)
  : GenerationJob :=
  set_progress (inject_Z (Z.of_nat m) / inject_Z max_audio_frames)%Q
    (set_current_frame (Z.of_nat m) j).

(** How many frames the loop appends when [n] iterations are left and the
    next has index [i], and how it ends, read off the engine alone. *)
Fixpoint loop_frames (eng : Engine) (n i : nat) : nat :=
  match n with
  | O => O
  | S n' =>
      match generate_frame eng i with
      | Frame => S (loop_frames eng n' (S i))
      | _ => O
      end
  end.

Fixpoint loop_outcome (eng : Engine) (n i : nat) : Outcome unit :=
  match n with
  | O => Normal tt
  | S n' =>
      match generate_frame eng i with
      | Frame => loop_outcome eng n' (S i)
      | EndOfSequence => Normal tt
      | FrameError msg => Raised (Exception msg)
      end
  end.

(** The job the loop leaves after [k] appended frames, the first of them
    being frame [i + 1]. *)
Definition after_frames (max_audio_frames : Z) (j : GenerationJob) (i k : nat)
  : GenerationJob :=
  match k with
  | O => j
  | S _ => frame_job max_audio_frames j (i + k)
  end.

(** The snapshots of the loop: frame [m] is handed to [_notify_progress]
    and then to each of the [ncbs] callbacks. *)
Definition loop_snapshots (ncbs : nat) (max_audio_frames : Z)
  (j : GenerationJob) (i k : nat) : list GenerationJob :=
  flat_map (fun m => replicate (S ncbs) (frame_job max_audio_frames j m))
    (seq (S i) k).

(** The job as the executor leaves it at its stations. *)
Definition loading_job (now : nat) (job : GenerationJob) : GenerationJob :=
  set_started_at (Some now) (set_status LOADING job).

Definition generating_job (now : nat) (job : GenerationJob) : GenerationJob :=
  set_status GENERATING (loading_job now job).

Definition completed_job (now : nat) (j : GenerationJob) : GenerationJob :=
  set_completed_at (Some now)
    (set_progress 1%Q
       (set_status COMPLETED
          (set_output_path (Some ("/output/" +:+ job_id j +:+ ".mp3")) j))).

Definition failed_job (now : nat) (msg : string) (j : GenerationJob)
  : GenerationJob :=
  set_completed_at (Some now) (set_error (Some msg) (set_status FAILED j)).

(** The events of one call of [_notify_progress] on job [j] with [ncbs]
    callbacks registered: the call, then one event per callback, in the
    order of registration, each with [j]. *)
Definition notification (ncbs : nat) (j : GenerationJob) (evs : list Event)
  : Prop :=
  exists calls,
    evs = EvNotify j :: calls /\
    length calls = ncbs /\
    forall i, (i < ncbs)%nat ->
      exists raised, calls !! i = Some (EvCallback i j raised).

(** What the [try] block did to the job [j2] it started from before it
    ended: it may have set [total_frames], and the loop appended [k] frames
    and left the events [evs]. *)
Definition attempted (ncbs : nat) (j2 jw : GenerationJob) (evs : list Event)
  : Prop :=
  exists j3 N k,
    (j3 = j2 \/ exists T, j3 = set_total_frames T j2) /\
    (k <= Z.to_nat N)%nat /\
    jw = after_frames N j3 0 k /\
    snapshots evs = loop_snapshots ncbs N j3 0 k /\
    Forall (fun ev => is_Some (snapshot_of ev)) evs.

(** How the job [jw] becomes terminal at time [now]. *)
Definition terminated (now : nat) (jw : GenerationJob) (s : JobStatus)
  (jT : GenerationJob) : Prop :=
  (s = COMPLETED /\ jT = completed_job now jw) \/
  (exists msg, s = FAILED /\ jT = failed_job now msg jw).

(** The order of two jobs by their progress. *)
Definition progress_le (s t : GenerationJob) : Prop :=
  (progress s <= progress t)%Q.

(** ** Sample inputs *)

Definition sample_request : Router.GenerationRequest :=
  {| Router.req_lyrics := "[verse] la la la";
     Router.req_tags := "piano,ballad";
     Router.req_temperature := 1%Q;
     Router.req_topk := 50;
     Router.req_cfg_scale := 1.5%Q;
     Router.req_max_audio_length_ms := 80000 |}.

(** A callback that raises whatever job it is handed. *)
Definition raising_callback : Callback unit :=
  fun _ w => (w, Raised (Exception "observer went away")).

Definition quiet_callback : Callback unit :=
  fun _ w => (w, Normal tt).

(** The service after one accepted [POST /start] for [sample_request], with
    two callbacks registered for the job and the slot taken by it. *)
Definition sample_job : GenerationJob :=
  fst (create_job (World := unit) "job-1" 0 "[verse] la la la" "piano,ballad"
         1%Q 50 1.5%Q 80000 init).

Definition sample_service : PipelineService unit :=
  with_current_job (Some "job-1")
    (register_progress_callback "job-1" quiet_callback
       (register_progress_callback "job-1" raising_callback
          (snd (create_job "job-1" 0 "[verse] la la la" "piano,ballad"
                  1%Q 50 1.5%Q 80000 init)))).

(** An engine that loads and answers every call, with the end of sequence
    in iteration [k] of the loop. *)
Definition engine_eos_at (k : nat) : Engine :=
  {| from_pretrained := Returns;
     preprocess := Returns;
     forward_max_audio_length_ms := fun ms => ms;
     first_frame := Returns;
     generate_frame := fun i => if (i <? k)%nat then Frame else EndOfSequence;
     detokenize := Returns;
     torchaudio_save := Returns |}.

(** An engine whose checkpoint cannot be loaded. *)
Definition engine_without_checkpoint : Engine :=
  {| from_pretrained := Raises "checkpoint not found";
     preprocess := Returns;
     forward_max_audio_length_ms := fun ms => ms;
     first_frame := Returns;
     generate_frame := fun _ => Frame;
     detokenize := Returns;
     torchaudio_save := Returns |}.

(** A registry with one queued job, as a stream finds it, and the
    connections that watch it. *)
Definition watched_service : PipelineService Router.Queues :=
  snd (create_job "job-1" 0 "[verse] la la la" "piano,ballad"
         1%Q 50 1.5%Q 80000 init).

Definition watched_job : GenerationJob :=
  fst (create_job (World := Router.Queues) "job-1" 0 "[verse] la la la"
         "piano,ballad" 1%Q 50 1.5%Q 80000 init).

Definition connection (queue : nat) : Router.Bridge :=
  {| Router.b_job_id := "job-1"; Router.b_job := watched_job;
     Router.b_queue := queue; Router.b_position := Router.NotStarted |}.

(** The same registry once the job has failed. *)
Definition failed_service : PipelineService Router.Queues :=
  with_jobs (<["job-1" := failed_job 5 "out of memory" watched_job]>
               (_jobs watched_service)) watched_service.

(** The runs and steps the claims are tried on. *)
Definition sample_run : Env unit * Outcome unit :=
  run (_generate_with_progress (engine_eos_at 3) sample_job) sample_service tt 1.

Definition sample_run_500 : Env unit * Outcome unit :=
  run (_generate_with_progress (engine_eos_at 500) sample_job)
    sample_service tt 1.

Definition sample_run_without_checkpoint : Env unit * Outcome unit :=
  run (_generate_with_progress engine_without_checkpoint sample_job)
    sample_service tt 1.

Definition sample_notification : Env unit * Outcome unit :=
  run (_notify_progress "job-1") sample_service tt 1.

Definition first_stream_started : Router.Stepped :=
  Router.step (connection 1) Router.Resume watched_service ∅.

Definition second_stream_started : Router.Stepped :=
  Router.step (connection 2) Router.Resume
    (Router.service_after first_stream_started)
    (Router.queues_after first_stream_started).

Definition second_stream_closed : Router.Stepped :=
  Router.step (Router.bridge second_stream_started) Router.Disconnect
    (Router.service_after second_stream_started)
    (Router.queues_after second_stream_started).

Definition first_stream_closed : Router.Stepped :=
  Router.step (Router.bridge first_stream_started) Router.Disconnect
    (Router.service_after first_stream_started)
    (Router.queues_after first_stream_started).

(** Two requests handled before either background task starts, the two
    tasks, and a third request. *)
Definition sample_schedule : list EventLoop.Segment :=
  [EventLoop.PostStart "job-1" 0 sample_request;
   EventLoop.PostStart "job-2" 1 sample_request;
   EventLoop.BackgroundStart sample_job;
   EventLoop.BackgroundStart
     (fst (create_job (World := unit) "job-2" 1 "[verse] la la la"
             "piano,ballad" 1%Q 50 1.5%Q 80000 init));
   EventLoop.PostStart "job-3" 2 sample_request].

Definition idle : Env unit :=
  {| service := init; world := tt; clock := 0%nat; trace := [] |}.

(** ** A run read off the engine

    How the [try] block of [_generate_with_progress] ends, the job it has
    reached when it ends, and the job the run leaves, written as functions
    of the engine and of the job the executor is given. *)

Definition loop_bound (eng : Engine) (job : GenerationJob) : Z :=
  forward_max_audio_length_ms eng (max_audio_length_ms job) / 80.

Definition attempt_outcome (eng : Engine) (job : GenerationJob) : Outcome unit :=
  match preprocess eng with
  | Raises msg => Raised (Exception msg)
  | Returns =>
      match first_frame eng with
      | Raises msg => Raised (Exception msg)
      | Returns =>
          match loop_outcome eng (Z.to_nat (loop_bound eng job)) 0 with
          | Raised e => Raised e
          | Normal _ =>
              match detokenize eng with
              | Raises msg => Raised (Exception msg)
              | Returns =>
                  match torchaudio_save eng with
                  | Raises msg => Raised (Exception msg)
                  | Returns => Normal tt
                  end
              end
          end
      end
  end.

Definition attempt_job (eng : Engine) (job j2 : GenerationJob) : GenerationJob :=
  match preprocess eng with
  | Raises _ => j2
  | Returns =>
      let j3 := set_total_frames (max_audio_length_ms job / 80) j2 in
      match first_frame eng with
      | Raises _ => j3
      | Returns =>
          after_frames (loop_bound eng job) j3 0
            (loop_frames eng (Z.to_nat (loop_bound eng job)) 0)
      end
  end.

Definition finished_job (eng : Engine) (now : nat) (job : GenerationJob)
  : GenerationJob :=
  match attempt_outcome eng job with
  | Normal _ =>
      completed_job (S now) (attempt_job eng job (generating_job now job))
  | Raised e =>
      failed_job (S now) (str e) (attempt_job eng job (generating_job now job))
  end.

(** The jobs the loop hands to [_notify_progress]: frames [i + 1] to
    [i + k]. *)
Definition frame_jobs (max_audio_frames : Z) (j : GenerationJob) (i k : nat)
  : list GenerationJob :=
  map (frame_job max_audio_frames j) (seq (S i) k).

(** The jobs the [try] block hands to [_notify_progress], and those of a
    whole run that gets past the loading of the model. *)
Definition attempt_notified (eng : Engine) (job j2 : GenerationJob)
  : list GenerationJob :=
  match preprocess eng with
  | Raises _ => []
  | Returns =>
      match first_frame eng with
      | Raises _ => []
      | Returns =>
          frame_jobs (loop_bound eng job)
            (set_total_frames (max_audio_length_ms job / 80) j2) 0
            (loop_frames eng (Z.to_nat (loop_bound eng job)) 0)
      end
  end.

Definition run_notified (eng : Engine) (now : nat) (job : GenerationJob)
  : list GenerationJob :=
  loading_job now job :: generating_job now job ::
  attempt_notified eng job (generating_job now job) ++
  [finished_job eng now job].

(** The jobs handed to [_notify_progress] during a run, in order. *)
Definition notified (tr : list Event) : list GenerationJob :=
  omap (fun ev => match ev with EvNotify s => Some s | _ => None end) tr.

(** The jobs handed to the callback at position [i], in order. *)
Definition delivered_to (i : nat) (tr : list Event) : list GenerationJob :=
  omap (fun ev =>
          match ev with
          | EvCallback k s _ => if Nat.eqb k i then Some s else None
          | _ => None
          end) tr.

(** What holds of the trace of a run all along: the jobs notified so far
    are [js], every callback has been handed exactly these, and what the
    run has handed out is each of them once per receiver. *)
Definition fanned_out (ncbs : nat) (js : list GenerationJob) (tr : list Event)
  : Prop :=
  notified tr = js /\
  (forall i, (i < ncbs)%nat -> delivered_to i tr = js) /\
  snapshots tr = flat_map (replicate (S ncbs)) js.

(** Engines that fail inside the [try] block, and one that never signals
    the end of the sequence. *)
Definition engine_frame_error_at (k : nat) : Engine :=
  {| from_pretrained := Returns;
     preprocess := Returns;
     forward_max_audio_length_ms := fun ms => ms;
     first_frame := Returns;
     generate_frame :=
       fun i => if (i <? k)%nat then Frame
                else FrameError "CUDA out of memory";
     detokenize := Returns;
     torchaudio_save := Returns |}.

Definition engine_save_fails (k : nat) : Engine :=
  {| from_pretrained := Returns;
     preprocess := Returns;
     forward_max_audio_length_ms := fun ms => ms;
     first_frame := Returns;
     generate_frame := fun i => if (i <? k)%nat then Frame else EndOfSequence;
     detokenize := Returns;
     torchaudio_save := Raises "No space left on device" |}.

Definition engine_never_eos : Engine :=
  {| from_pretrained := Returns;
     preprocess := Returns;
     forward_max_audio_length_ms := fun ms => ms;
     first_frame := Returns;
     generate_frame := fun _ => Frame;
     detokenize := Returns;
     torchaudio_save := Returns |}.

(** A short job: 400 ms, five frames. *)
Definition short_job : GenerationJob :=
  fst (create_job (World := unit) "job-2" 0 "[verse] la" "piano"
         1%Q 50 1.5%Q 400 init).

Definition short_service : PipelineService unit :=
  register_progress_callback "job-2" quiet_callback
    (snd (create_job "job-2" 0 "[verse] la" "piano" 1%Q 50 1.5%Q 400 init)).

(** A registry with both jobs and a free slot, and two calls of
    [PipelineService.start_generation] one after the other. *)
Definition two_jobs_service : PipelineService unit :=
  snd (create_job "job-2" 0 "[verse] la" "piano" 1%Q 50 1.5%Q 400
         (snd (create_job "job-1" 0 "[verse] la la la" "piano,ballad"
                 1%Q 50 1.5%Q 80000 init))).

Definition first_of_two : Env unit * Outcome unit :=
  run (start_generation (engine_eos_at 3) sample_job) two_jobs_service tt 1.

Definition second_of_two : Env unit * Outcome unit :=
  run (start_generation engine_never_eos short_job)
    (service (fst first_of_two)) (world (fst first_of_two))
    (clock (fst first_of_two)).

(** The first call of [PipelineService.start_generation] on a service that
    cannot load its model. *)
Definition stuck_run : Env unit * Outcome unit :=
  run (start_generation engine_without_checkpoint sample_job)
    two_jobs_service tt 1.

(** A run of the executor watched by two connections, and one that cannot
    load its model. *)
Definition watched_run : Env Router.Queues * Outcome unit :=
  run (_generate_with_progress (engine_eos_at 3) watched_job)
    (Router.service_after second_stream_started)
    (Router.queues_after second_stream_started) 1.

Definition watched_run_without_checkpoint : Env Router.Queues * Outcome unit :=
  run (_generate_with_progress engine_without_checkpoint watched_job)
    (Router.service_after second_stream_started)
    (Router.queues_after second_stream_started) 1.

(** The first connection, suspended in its wait while the executor runs,
    and resumed after the run. *)
Definition waiting_stream : Router.Bridge :=
  Router.at_position Router.AtWait (connection 1).

Definition resumed_after_run : Router.Stepped :=
  Router.drive waiting_stream [Router.Resume; Router.Resume]
    (service (fst watched_run)) (world (fst watched_run)).

(** The generator is suspended inside its [try] statement, at the first
    [yield] or in the loop. *)
Definition is_waiting (p : Router.Position) : bool :=
  match p with
  | Router.AtInitialYield | Router.AtWait | Router.AtUpdateYield _
  | Router.AtKeepaliveYield => true
  | _ => false
  end.

(** The first connection resumed five times after the run that could not
    load its model. *)
Definition stuck_stream : Router.Stepped :=
  Router.drive (Router.bridge first_stream_started)
    (replicate 5 Router.Resume)
    (service (fst watched_run_without_checkpoint))
    (world (fst watched_run_without_checkpoint)).

(** The releases of a schedule, and the acquisitions the slot of an
    environment admits before a release: one if it is free, none if it is
    taken. *)
Definition release_segments (segs : list EventLoop.Segment) : nat :=
  length (filter (fun seg => EventLoop.is_release seg = true) segs).

Definition free_slots {World} (env : Env World) : nat :=
  match _current_job (service env) with
  | None => 1
  | Some _ => 0
  end.

(** The job ids the creation requests of a schedule are given. *)
Definition posted (segs : list EventLoop.Segment) : list string :=
  omap (fun seg =>
          match seg with
          | EventLoop.PostStart uuid _ _ => Some uuid
          | _ => None
          end) segs.

(** The service after an accepted [POST /start]. *)
Definition after_first_post : PipelineService unit :=
  snd (fst (Router.start_generation "job-1" 0 sample_request init)).

(** ** The executor cut at a statement

    [_generate_with_progress] cut inside its [try] block: the statements up
    to the cut and the statements after it.  The executor runs in a thread
    of its own, so a reader on the event loop ([GET /status], the re-poll
    of a stream) can see the registry as the first part leaves it. *)

Section Cut.

Context {World : Type}.

(** From [job.status = JobStatus.LOADING] to the [try] statement. *)
Definition generate_head (eng : Engine) (job : GenerationJob) : M World unit :=
  write_status job LOADING ;;
  now <- datetime_now ;;
  update_job job (set_started_at (Some now)) ;;
  _notify_progress (job_id job) ;;
  load_pipeline eng ;;
  write_status job GENERATING ;;
  _notify_progress (job_id job).

(** The [try] block up to [job.output_path = ...]. *)
Definition generate_try_saved (eng : Engine) (job : GenerationJob)
  : M World unit :=
  call (preprocess eng) ;;
  let max_audio_frames := max_audio_length_ms job / 80 in
  update_job job (set_total_frames max_audio_frames) ;;
  _forward_with_progress eng job
    (forward_max_audio_length_ms eng (max_audio_length_ms job)) ;;
  call (torchaudio_save eng) ;;
  update_job job (set_output_path (Some ("/output/" +:+ job_id job +:+ ".mp3"))).

(** The [try] block after [job.status = JobStatus.COMPLETED]. *)
Definition generate_try_finish (job : GenerationJob) : M World unit :=
  update_job job (set_progress 1%Q) ;;
  now <- datetime_now ;;
  update_job job (set_completed_at (Some now)).

(** After the [try] statement. *)
Definition generate_tail (job : GenerationJob) : M World unit :=
  _notify_progress (job_id job) ;;
  modify_service (with_current_job None) ;;
  log EvRelease.

(** The executor up to [job.output_path = ...], and from there on. *)
Definition executor_until_saved (eng : Engine) (job : GenerationJob)
  : M World unit :=
  generate_head eng job ;; generate_try_saved eng job.

Definition executor_from_saved (job : GenerationJob) : M World unit :=
  try_except (write_status job COMPLETED ;; generate_try_finish job)
    (generate_except job) ;;
  generate_tail job.

(** The executor up to [job.status = JobStatus.COMPLETED], and from there
    on. *)
Definition executor_until_marked (eng : Engine) (job : GenerationJob)
  : M World unit :=
  generate_head eng job ;; generate_try_saved eng job ;;
  write_status job COMPLETED.

Definition executor_from_marked (job : GenerationJob) : M World unit :=
  try_except (generate_try_finish job) (generate_except job) ;;
  generate_tail job.

End Cut.

(** An engine whose [torchaudio.save] raises an exception without a
    message, as a failed [assert] does: [str(e)] is the empty string. *)
Definition engine_fails_without_message : Engine :=
  {| from_pretrained := Returns;
     preprocess := Returns;
     forward_max_audio_length_ms := fun ms => ms;
     first_frame := Returns;
     generate_frame := fun i => if (i <? 3)%nat then Frame else EndOfSequence;
     detokenize := Returns;
     torchaudio_save := Raises "" |}.

Definition sample_run_without_message : Env unit * Outcome unit :=
  run (_generate_with_progress engine_fails_without_message sample_job)
    sample_service tt 1.

(** The sample run stopped after [job.output_path = ...] and after
    [job.status = JobStatus.COMPLETED]. *)
Definition sample_saved : Env unit * Outcome unit :=
  run (executor_until_saved (engine_eos_at 3) sample_job) sample_service tt 1.

Definition sample_marked : Env unit * Outcome unit :=
  run (executor_until_marked (engine_eos_at 3) sample_job) sample_service tt 1.

(** Two requests answered before the task of the first has started, and
    the two tasks. *)
Definition racing_requests : list EventLoop.Segment :=
  [EventLoop.PostStart "job-1" 0 sample_request;
   EventLoop.PostStart "job-2" 1 sample_request;
   EventLoop.BackgroundStart sample_job;
   EventLoop.BackgroundStart
     (fst (create_job (World := unit) "job-2" 1 "[verse] la la la"
             "piano,ballad" 1%Q 50 1.5%Q 80000 init))].

(** * Properties *)

(** ** The monad *)

Lemma bind_normal {World A B} (m : M World A) (k : A -> M World B) env env' a :
  m env = (env', Normal a) -> bind m k env = k a env'.
Proof. intros H. unfold bind. now rewrite H. Qed.

Lemma bind_raised {World A B} (m : M World A) (k : A -> M World B) env env' e :
  m env = (env', Raised e) -> bind m k env = (env', Raised e).
Proof. intros H. unfold bind. now rewrite H. Qed.

Lemma try_normal {World A} (m : M World A) h env env' a :
  m env = (env', Normal a) -> try_except m h env = (env', Normal a).
Proof. intros H. unfold try_except. now rewrite H. Qed.

Lemma try_raised {World A} (m : M World A) h env env' e :
  m env = (env', Raised e) -> try_except m h env = h e env'.
Proof. intros H. unfold try_except. now rewrite H. Qed.

(** ** The executor's steps on its own job *)

Lemma registered_at_work {World} (st : PipelineService World) job w c tr :
  registered st job ->
  {| service := st; world := w; clock := c; trace := tr |} =
  at_work st (_pipeline st) (_current_job st) job w c tr.
Proof.
  intros H. unfold at_work. rewrite (insert_id _ _ _ H). now destruct st.
Qed.

Lemma update_job_at_work {World} (st0 : PipelineService World) l s job j f w c tr :
  job_id j = job_id job -> job_id (f j) = job_id j ->
  update_job job f (at_work st0 l s j w c tr) =
  (at_work st0 l s (f j) w c tr, Normal tt).
Proof.
  intros Hj Hf. unfold update_job, modify_service, at_work, with_jobs. cbn.
  rewrite <- Hj, alter_insert_eq, Hf. reflexivity.
Qed.

Lemma log_at_work {World} (st0 : PipelineService World) l s j w c tr ev :
  log ev (at_work st0 l s j w c tr) =
  (at_work st0 l s j w c (tr ++ [ev]), Normal tt).
Proof. reflexivity. Qed.

Lemma write_status_at_work {World} (st0 : PipelineService World) l s job j w c tr x :
  job_id j = job_id job ->
  write_status job x (at_work st0 l s j w c tr) =
  (at_work st0 l s (set_status x j) w c (tr ++ [EvStatus x]), Normal tt).
Proof.
  intros Hj. unfold write_status.
  erewrite bind_normal by (apply update_job_at_work; [exact Hj | reflexivity]).
  apply log_at_work.
Qed.

Lemma datetime_now_at_work {World} (st0 : PipelineService World) l s j w c tr :
  datetime_now (at_work st0 l s j w c tr) =
  (at_work st0 l s j w (S c) tr, Normal c).
Proof. reflexivity. Qed.

(** ** [_notify_progress] *)

Lemma call_callbacks_eq {World} (callbacks : list (Callback World)) :
  forall i job env,
    call_callbacks i callbacks job env =
    ({| service := service env;
        world := callbacks_world callbacks job (world env);
        clock := clock env;
        trace := trace env ++ callbacks_events i callbacks job (world env) |},
     Normal tt).
Proof.
  induction callbacks as [|callback rest IH]; intros i job env; cbn.
  - unfold ret. rewrite app_nil_r. now destruct env.
  - unfold bind, try_except, invoke.
    destruct (callback job (world env)) as [w1 r] eqn:Hcb.
    destruct r as [[]|e]; cbn; rewrite IH; cbn;
      rewrite <- app_assoc; reflexivity.
Qed.

Lemma notify_at_work {World} (st0 : PipelineService World) l s j w c tr :
  _notify_progress (job_id j) (at_work st0 l s j w c tr) =
  (at_work st0 l s j (callbacks_world (callbacks_of st0 (job_id j)) j w) c
     (tr ++ EvNotify j :: callbacks_events 0 (callbacks_of st0 (job_id j)) j w),
   Normal tt).
Proof.
  unfold _notify_progress, bind, get_service, callbacks_of. cbn.
  rewrite lookup_insert_eq. cbn.
  destruct (_progress_callbacks st0 !! job_id j) as [callbacks|]; cbn.
  - rewrite call_callbacks_eq. cbn. unfold at_work.
    rewrite <- app_assoc. reflexivity.
  - reflexivity.
Qed.

Lemma snapshots_app tr1 tr2 :
  snapshots (tr1 ++ tr2) = (snapshots tr1 ++ snapshots tr2)%list.
Proof. apply omap_app. Qed.

Lemma snapshots_callbacks_events {World} (callbacks : list (Callback World)) :
  forall i job w,
    snapshots (callbacks_events i callbacks job w) =
    replicate (length callbacks) job.
Proof.
  induction callbacks as [|callback rest IH]; intros i job w; cbn.
  - reflexivity.
  - f_equal. apply IH.
Qed.

Lemma length_callbacks_events {World} (callbacks : list (Callback World)) :
  forall i job w,
    length (callbacks_events i callbacks job w) = length callbacks.
Proof.
  induction callbacks as [|callback rest IH]; intros i job w; cbn.
  - reflexivity.
  - f_equal. apply IH.
Qed.

Lemma lookup_callbacks_events {World} (callbacks : list (Callback World)) :
  forall i job w n callback,
    callbacks !! n = Some callback ->
    exists raised,
      callbacks_events i callbacks job w !! n = Some (EvCallback (i + n) job raised).
Proof.
  induction callbacks as [|cb rest IH]; intros i job w n callback Hn.
  - discriminate.
  - destruct n as [|n]; cbn in *.
    + eexists. rewrite Nat.add_0_r. reflexivity.
    + destruct (IH (S i) job (fst (cb job w)) n callback Hn) as [r Hr].
      exists r. etransitivity; [exact Hr|]. do 2 f_equal. lia.
Qed.
Lemma notify_at_work' {World} (st0 : PipelineService World) l s j w c tr x :
  job_id j = x ->
  _notify_progress x (at_work st0 l s j w c tr) =
  (at_work st0 l s j (callbacks_world (callbacks_of st0 x) j w) c
     (tr ++ EvNotify j :: callbacks_events 0 (callbacks_of st0 x) j w),
   Normal tt).
Proof. intros <-. apply notify_at_work. Qed.

Lemma Forall_callbacks_events {World} (callbacks : list (Callback World)) :
  forall i job w,
    Forall (fun ev => is_Some (snapshot_of ev))
      (callbacks_events i callbacks job w).
Proof.
  induction callbacks as [|callback rest IH]; intros i job w; cbn;
    constructor; [eexists; reflexivity | apply IH].
Qed.

Lemma frame_loop_at_work {World} eng (st0 : PipelineService World) l s job N :
  forall n i j w c tr,
    job_id j = job_id job ->
    exists w' evs,
      frame_loop eng job N n i (at_work st0 l s j w c tr) =
        (at_work st0 l s (after_frames N j i (loop_frames eng n i)) w' c
           (tr ++ evs),
         loop_outcome eng n i) /\
      snapshots evs =
        loop_snapshots (length (callbacks_of st0 (job_id job))) N j i
          (loop_frames eng n i) /\
      Forall (fun ev => is_Some (snapshot_of ev)) evs.
Proof.
  induction n as [|n IH]; intros i j w c tr Hj.
  - exists w, []. cbn. rewrite app_nil_r. auto.
  - cbn [frame_loop loop_frames loop_outcome].
    destruct (generate_frame eng i) as [| |msg].
    + replace (Z.of_nat i + 1) with (Z.of_nat (S i)) by lia.
      erewrite bind_normal
        by (apply update_job_at_work; [exact Hj | reflexivity]).
      erewrite bind_normal
        by (apply update_job_at_work; [exact Hj | reflexivity]).
      erewrite bind_normal by (apply notify_at_work'; exact Hj).
      set (j1 := set_progress _ (set_current_frame _ j)).
      destruct (IH (S i) j1
                  (callbacks_world (callbacks_of st0 (job_id job)) j1 w) c
                  (tr ++ EvNotify j1
                      :: callbacks_events 0 (callbacks_of st0 (job_id job)) j1 w)
                  Hj) as (w' & evs & Hrun & Hsnap & Hall).
      exists w',
        ((EvNotify j1 :: callbacks_events 0 (callbacks_of st0 (job_id job)) j1 w)
           ++ evs)%list.
      split; [|split].
      * rewrite Hrun, <- app_assoc. f_equal. f_equal.
        destruct (loop_frames eng n (S i)) as [|k]; cbn [after_frames].
        -- rewrite Nat.add_1_r. reflexivity.
        -- replace (i + S (S k))%nat with (S i + S k)%nat by lia. reflexivity.
      * rewrite snapshots_app, Hsnap. cbn.
        rewrite snapshots_callbacks_events. reflexivity.
      * apply Forall_app. split; [|exact Hall].
        constructor; [eexists; reflexivity|].
        apply Forall_callbacks_events.
    + exists w, []. cbn. rewrite app_nil_r. auto.
    + exists w, []. cbn. rewrite app_nil_r. auto.
Qed.
Lemma loop_frames_le eng : forall n i, (loop_frames eng n i <= n)%nat.
Proof.
  induction n as [|n IH]; intros i; cbn; [lia|].
  specialize (IH (S i)). destruct (generate_frame eng i); lia.
Qed.

Lemma loop_outcome_raised eng :
  forall n i e, loop_outcome eng n i = Raised e -> exists msg, e = Exception msg.
Proof.
  induction n as [|n IH]; intros i e; cbn; [discriminate|].
  destruct (generate_frame eng i); [apply IH|discriminate|].
  intros [= <-]. eauto.
Qed.

Lemma job_id_after_frames N j i k : job_id (after_frames N j i k) = job_id j.
Proof. now destruct k. Qed.

Lemma notification_events {World} (callbacks : list (Callback World)) j w :
  notification (length callbacks) j
    (EvNotify j :: callbacks_events 0 callbacks j w).
Proof.
  exists (callbacks_events 0 callbacks j w). split; [reflexivity|].
  split; [apply length_callbacks_events|].
  intros i Hi. destruct (lookup_lt_is_Some_2 callbacks i Hi) as [cb Hcb].
  exact (lookup_callbacks_events callbacks 0 j w i cb Hcb).
Qed.

(** ** [_forward_with_progress] and the [try] statement *)

Lemma forward_at_work {World} eng (st0 : PipelineService World) l s job ms j3 w c tr :
  job_id j3 = job_id job ->
  exists w' evs k r,
    _forward_with_progress eng job ms (at_work st0 l s j3 w c tr) =
      (at_work st0 l s (after_frames (ms / 80) j3 0 k) w' c (tr ++ evs), r) /\
    (k <= Z.to_nat (ms / 80))%nat /\
    snapshots evs =
      loop_snapshots (length (callbacks_of st0 (job_id job))) (ms / 80) j3 0 k /\
    Forall (fun ev => is_Some (snapshot_of ev)) evs /\
    (r = Normal tt \/ exists msg, r = Raised (Exception msg)) /\
    (first_frame eng = Returns ->
     k = loop_frames eng (Z.to_nat (ms / 80)) 0 /\
     (loop_outcome eng (Z.to_nat (ms / 80)) 0 = Normal tt ->
      detokenize eng = Returns -> r = Normal tt)).
Proof.
  intros Hj. unfold _forward_with_progress.
  destruct (first_frame eng) as [|msg] eqn:Hfirst.
  - destruct (frame_loop_at_work eng st0 l s job (ms / 80)
                (Z.to_nat (ms / 80)) 0%nat j3 w c tr Hj)
      as (w' & evs & Hrun & Hsnap & Hall).
    exists w', evs, (loop_frames eng (Z.to_nat (ms / 80)) 0).
    cbn [call]. unfold bind at 1. cbn [ret].
    unfold bind. rewrite Hrun.
    pose proof (loop_outcome_raised eng (Z.to_nat (ms / 80)) 0) as Hfail.
    destruct (loop_outcome eng (Z.to_nat (ms / 80)) 0) as [[]|e] eqn:Hout.
    + destruct (detokenize eng) as [|msg] eqn:Hdet; cbn.
      * eexists. split; [reflexivity|].
        split; [apply loop_frames_le|]. split; [exact Hsnap|].
        split; [exact Hall|]. split; [now left|]. intros _. split; auto.
      * eexists. split; [reflexivity|].
        split; [apply loop_frames_le|]. split; [exact Hsnap|].
        split; [exact Hall|]. split; [right; eauto|]. intros _.
        split; [reflexivity|]. discriminate.
    + eexists. split; [reflexivity|].
      split; [apply loop_frames_le|]. split; [exact Hsnap|].
      split; [exact Hall|].
      destruct (Hfail e eq_refl) as [msg ->].
      split; [right; eauto|]. intros _. split; [reflexivity|]. discriminate.
  - exists w, [], 0%nat, (Raised (Exception msg)).
    cbn. rewrite app_nil_r. split; [reflexivity|]. split; [lia|].
    split; [reflexivity|]. split; [constructor|]. split; [right; eauto|].
    discriminate.
Qed.
Lemma generate_except_at_work {World} (st0 : PipelineService World) l s job j w c tr msg :
  job_id j = job_id job ->
  generate_except job (Exception msg) (at_work st0 l s j w c tr) =
  (at_work st0 l s (failed_job c msg j) w (S c) (tr ++ [EvStatus FAILED]),
   Normal tt).
Proof.
  intros Hj. unfold generate_except.
  erewrite bind_normal by (apply write_status_at_work; exact Hj).
  erewrite bind_normal
    by (apply update_job_at_work; [exact Hj | reflexivity]).
  erewrite bind_normal by apply datetime_now_at_work.
  erewrite update_job_at_work; [reflexivity | exact Hj | reflexivity].
Qed.

Lemma generate_try_at_work {World} eng (st0 : PipelineService World) l s job j2 w c tr :
  job_id j2 = job_id job ->
  let N := forward_max_audio_length_ms eng (max_audio_length_ms job) / 80 in
  let j3 := set_total_frames (max_audio_length_ms job / 80) j2 in
  exists w' evs jw,
    attempted (length (callbacks_of st0 (job_id job))) j2 jw evs /\
    ((exists msg,
         generate_try eng job (at_work st0 l s j2 w c tr) =
         (at_work st0 l s jw w' c (tr ++ evs), Raised (Exception msg)))
     \/ generate_try eng job (at_work st0 l s j2 w c tr) =
        (at_work st0 l s (completed_job c jw) w' (S c)
           (tr ++ evs ++ [EvStatus COMPLETED]), Normal tt)) /\
    (preprocess eng = Returns -> first_frame eng = Returns ->
     loop_outcome eng (Z.to_nat N) 0 = Normal tt ->
     detokenize eng = Returns -> torchaudio_save eng = Returns ->
     jw = after_frames N j3 0 (loop_frames eng (Z.to_nat N) 0) /\
     generate_try eng job (at_work st0 l s j2 w c tr) =
       (at_work st0 l s (completed_job c jw) w' (S c)
          (tr ++ evs ++ [EvStatus COMPLETED]), Normal tt)).
Proof.
  intros Hj N j3. unfold generate_try.
  destruct (preprocess eng) as [|msg] eqn:Hpre.
  - erewrite bind_normal by reflexivity.
    erewrite bind_normal
      by (apply update_job_at_work; [exact Hj | reflexivity]).
    destruct (forward_at_work eng st0 l s job
                (forward_max_audio_length_ms eng (max_audio_length_ms job))
                j3 w c tr Hj)
      as (w' & evs & k & r & Hrun & Hk & Hsnap & Hall & Hr & Hexact).
    fold N in Hrun, Hk, Hsnap, Hexact.
    assert (Hatt : attempted (length (callbacks_of st0 (job_id job))) j2
                     (after_frames N j3 0 k) evs).
    { exists j3, N, k. split; [right; eexists; reflexivity|]. auto. }
    assert (Hjw : job_id (after_frames N j3 0 k) = job_id job).
    { rewrite job_id_after_frames. exact Hj. }
    exists w', evs, (after_frames N j3 0 k). split; [exact Hatt|].
    destruct Hr as [-> | [msg ->]].
    + erewrite bind_normal by exact Hrun.
      destruct (torchaudio_save eng) as [|msg] eqn:Hsave.
      * match goal with
        | |- (_ \/ ?lhs = ?rhs) /\ _ => assert (Hrun' : lhs = rhs)
        end.
        { erewrite bind_normal by reflexivity.
          erewrite bind_normal
            by (apply update_job_at_work; [exact Hjw | reflexivity]).
          erewrite bind_normal by (apply write_status_at_work; exact Hjw).
          erewrite bind_normal
            by (apply update_job_at_work; [exact Hjw | reflexivity]).
          erewrite bind_normal by apply datetime_now_at_work.
          erewrite update_job_at_work; [| exact Hjw | reflexivity].
          unfold completed_job. rewrite Hjw, <- app_assoc. reflexivity. }
        split; [right; exact Hrun'|].
        intros _ Hfirst _ _ _. destruct (Hexact Hfirst) as [-> _].
        split; [reflexivity | exact Hrun'].
      * split; [|discriminate].
        left. exists msg. reflexivity.
    + erewrite bind_raised by exact Hrun.
      split; [left; eauto|].
      intros _ Hfirst Hout Hdet _. destruct (Hexact Hfirst) as [_ Hn].
      specialize (Hn Hout Hdet). discriminate.
  - exists w, [], j2. split; [|split].
    + exists j2, 0, 0%nat. split; [now left|]. split; [cbn; lia|].
      split; [reflexivity|]. split; [reflexivity | constructor].
    + left. exists msg. cbn. rewrite app_nil_r. reflexivity.
    + discriminate.
Qed.

Lemma try_statement_at_work {World} eng (st0 : PipelineService World) l s job j2 w c tr :
  job_id j2 = job_id job ->
  let N := forward_max_audio_length_ms eng (max_audio_length_ms job) / 80 in
  let j3 := set_total_frames (max_audio_length_ms job / 80) j2 in
  exists w' evs jw sT jT,
    try_except (generate_try eng job) (generate_except job)
      (at_work st0 l s j2 w c tr) =
      (at_work st0 l s jT w' (S c) (tr ++ evs ++ [EvStatus sT]), Normal tt) /\
    attempted (length (callbacks_of st0 (job_id job))) j2 jw evs /\
    terminated c jw sT jT /\
    (preprocess eng = Returns -> first_frame eng = Returns ->
     loop_outcome eng (Z.to_nat N) 0 = Normal tt ->
     detokenize eng = Returns -> torchaudio_save eng = Returns ->
     jT = completed_job c
            (after_frames N j3 0 (loop_frames eng (Z.to_nat N) 0))).
Proof.
  intros Hj N j3.
  destruct (generate_try_at_work eng st0 l s job j2 w c tr Hj)
    as (w' & evs & jw & Hatt & Hrun & Hexact).
  fold N j3 in Hexact.
  assert (Hjw : job_id jw = job_id job).
  { destruct Hatt as (j3' & N' & k & Hj3 & _ & -> & _).
    rewrite job_id_after_frames. destruct Hj3 as [-> | [T ->]]; exact Hj. }
  destruct Hrun as [[msg Hrun] | Hrun].
  - exists w', evs, jw, FAILED, (failed_job c msg jw).
    split; [|split; [exact Hatt|split]].
    + erewrite try_raised by exact Hrun.
      rewrite (generate_except_at_work st0 l s job jw w' c (tr ++ evs) msg Hjw).
      rewrite <- app_assoc. reflexivity.
    + right. eauto.
    + intros H1 H2 H3 H4 H5.
      destruct (Hexact H1 H2 H3 H4 H5) as [_ Hok].
      rewrite Hok in Hrun. discriminate.
  - exists w', evs, jw, COMPLETED, (completed_job c jw).
    split; [|split; [exact Hatt|split]].
    + erewrite try_normal by exact Hrun. reflexivity.
    + left. auto.
    + intros H1 H2 H3 H4 H5.
      destruct (Hexact H1 H2 H3 H4 H5) as [-> _]. reflexivity.
Qed.

(** ** [_generate_with_progress] *)

Lemma load_pipeline_at_work {World} eng (st0 : PipelineService World) l s j w c tr :
  load_pipeline eng (at_work st0 l s j w c tr) =
  if l then (at_work st0 l s j w c tr, Normal tt)
  else match from_pretrained eng with
       | Returns => (at_work st0 true s j w c tr, Normal tt)
       | Raises msg => (at_work st0 false s j w c tr, Raised (Exception msg))
       end.
Proof.
  unfold load_pipeline, bind, get_service. cbn.
  destruct l; [reflexivity|]. now destruct (from_pretrained eng).
Qed.

Lemma executor_run {World} eng (st : PipelineService World) job w c tr :
  registered st job ->
  let ncbs := length (callbacks_of st (job_id job)) in
  let N := forward_max_audio_length_ms eng (max_audio_length_ms job) / 80 in
  let j1 := loading_job c job in
  let j2 := generating_job c job in
  let j3 := set_total_frames (max_audio_length_ms job / 80) j2 in
  let env := {| service := st; world := w; clock := c; trace := tr |} in
  exists w1 n1,
    notification ncbs j1 n1 /\
    ((exists msg,
         _pipeline st = false /\ from_pretrained eng = Raises msg /\
         _generate_with_progress eng job env =
         (at_work st false (_current_job st) j1 w1 (S c)
            (tr ++ EvStatus LOADING :: n1),
          Raised (Exception msg)))
     \/
     (exists wT n2 evs jw sT jT nT,
         (_pipeline st = true \/ from_pretrained eng = Returns) /\
         notification ncbs j2 n2 /\
         attempted ncbs j2 jw evs /\
         terminated (S c) jw sT jT /\
         notification ncbs jT nT /\
         _generate_with_progress eng job env =
         (at_work st true None jT wT (S (S c))
            (tr ++ EvStatus LOADING :: n1 ++ EvStatus GENERATING :: n2 ++
                evs ++ EvStatus sT :: nT ++ [EvRelease]),
          Normal tt) /\
         (preprocess eng = Returns -> first_frame eng = Returns ->
          loop_outcome eng (Z.to_nat N) 0 = Normal tt ->
          detokenize eng = Returns -> torchaudio_save eng = Returns ->
          jT = completed_job (S c)
                 (after_frames N j3 0 (loop_frames eng (Z.to_nat N) 0))))).
Proof.
  intros Hreg ncbs N j1 j2 j3 env. subst env.
  rewrite (registered_at_work st job w c tr Hreg).
  unfold _generate_with_progress.
  erewrite bind_normal by (apply write_status_at_work; reflexivity).
  erewrite bind_normal by apply datetime_now_at_work.
  erewrite bind_normal
    by (apply update_job_at_work; [reflexivity | reflexivity]).
  erewrite bind_normal by (apply notify_at_work'; reflexivity).
  fold (loading_job c job). fold j1.
  set (cbs := callbacks_of st (job_id job)).
  exists (callbacks_world cbs j1 w), (EvNotify j1 :: callbacks_events 0 cbs j1 w).
  split; [apply notification_events|].
  assert (Hgo : forall tr0,
    exists wT n2 evs jw sT jT nT,
      notification ncbs j2 n2 /\
      attempted ncbs j2 jw evs /\
      terminated (S c) jw sT jT /\
      notification ncbs jT nT /\
      (write_status job GENERATING ;;
       _notify_progress (job_id job) ;;
       try_except (generate_try eng job) (generate_except job) ;;
       _notify_progress (job_id job) ;;
       modify_service (with_current_job None) ;;
       log EvRelease)
        (at_work st true (_current_job st) j1 (callbacks_world cbs j1 w) (S c) tr0) =
      (at_work st true None jT wT (S (S c))
         (tr0 ++ EvStatus GENERATING :: n2 ++
              evs ++ EvStatus sT :: nT ++ [EvRelease]),
       Normal tt) /\
      (preprocess eng = Returns -> first_frame eng = Returns ->
       loop_outcome eng (Z.to_nat N) 0 = Normal tt ->
       detokenize eng = Returns -> torchaudio_save eng = Returns ->
       jT = completed_job (S c)
              (after_frames N j3 0 (loop_frames eng (Z.to_nat N) 0)))).
  { intros tr0.
    erewrite bind_normal by (apply write_status_at_work; reflexivity).
    erewrite bind_normal by (apply notify_at_work'; reflexivity).
    fold (generating_job c job). fold j2. fold cbs.
    set (w2 := callbacks_world cbs j2 (callbacks_world cbs j1 w)).
    set (n2 := EvNotify j2 :: callbacks_events 0 cbs j2 (callbacks_world cbs j1 w)).
    destruct (try_statement_at_work eng st true (_current_job st) job j2 w2
                (S c) ((tr0 ++ [EvStatus GENERATING]) ++ n2) eq_refl)
      as (w' & evs & jw & sT & jT & Hrun & Hatt & Hterm & Hexact).
    assert (HjT : job_id jT = job_id job).
    { assert (Hjw : job_id jw = job_id job).
      { destruct Hatt as (j3' & N' & k & Hj3 & _ & -> & _).
        rewrite job_id_after_frames. now destruct Hj3 as [-> | [T ->]]. }
      destruct Hterm as [[_ ->] | (msg & _ & ->)]; exact Hjw. }
    erewrite bind_normal by exact Hrun.
    erewrite bind_normal by (apply notify_at_work'; exact HjT).
    fold cbs.
    exists (callbacks_world cbs jT w'), n2, evs, jw, sT, jT,
      (EvNotify jT :: callbacks_events 0 cbs jT w').
    split; [apply notification_events|]. split; [exact Hatt|].
    split; [exact Hterm|]. split; [apply notification_events|].
    split; [|exact Hexact].
    unfold bind, modify_service, log, at_work, with_current_job. cbn.
    repeat rewrite <- app_assoc. cbn. reflexivity. }
  destruct (_pipeline st) eqn:Hl.
  - right.
    erewrite bind_normal by (rewrite load_pipeline_at_work; reflexivity).
    destruct (Hgo ((tr ++ [EvStatus LOADING]) ++
                     EvNotify j1 :: callbacks_events 0 cbs j1 w))
      as (wT & n2 & evs & jw & sT & jT & nT & H1 & H2 & H3 & H4 & H5 & H6).
    exists wT, n2, evs, jw, sT, jT, nT.
    split; [now left|]. repeat (split; [assumption|]).
    split; [|exact H6].
    rewrite H5. repeat rewrite <- app_assoc. reflexivity.
  - destruct (from_pretrained eng) as [|msg] eqn:Hload.
    + right.
      erewrite bind_normal
        by (rewrite load_pipeline_at_work, Hload; reflexivity).
      destruct (Hgo ((tr ++ [EvStatus LOADING]) ++
                       EvNotify j1 :: callbacks_events 0 cbs j1 w))
        as (wT & n2 & evs & jw & sT & jT & nT & H1 & H2 & H3 & H4 & H5 & H6).
      exists wT, n2, evs, jw, sT, jT, nT.
      split; [now right|]. repeat (split; [assumption|]).
      split; [|exact H6].
      rewrite H5. repeat rewrite <- app_assoc. reflexivity.
    + left. exists msg. split; [reflexivity|]. split; [reflexivity|].
      erewrite bind_raised
        by (rewrite load_pipeline_at_work, Hload; reflexivity).
      rewrite <- app_assoc. reflexivity.
Qed.

(** ** Reading traces *)

Lemma subscribers_callbacks_of {World} (st : PipelineService World) id :
  subscribers st id = length (callbacks_of st id).
Proof.
  unfold subscribers, callbacks_of.
  now destruct (_progress_callbacks st !! id).
Qed.

Lemma notification_snapshot n j evs :
  notification n j evs ->
  Forall (fun ev => snapshot_of ev = Some j) evs /\ length evs = S n.
Proof.
  intros (calls & -> & Hlen & Hcalls). split; [|cbn; now rewrite Hlen].
  constructor; [reflexivity|].
  apply Forall_lookup. intros i ev Hi.
  assert (Hlt : (i < n)%nat).
  { rewrite <- Hlen. eapply lookup_lt_Some. exact Hi. }
  destruct (Hcalls i Hlt) as [raised Hr]. rewrite Hr in Hi.
  now injection Hi as <-.
Qed.

Lemma snapshots_constant j evs :
  Forall (fun ev => snapshot_of ev = Some j) evs ->
  snapshots evs = replicate (length evs) j.
Proof.
  induction 1 as [|ev evs Hev _ IH]; [reflexivity|].
  unfold snapshots in *. cbn. rewrite Hev. cbn. now rewrite IH.
Qed.

Lemma snapshots_notification n j evs :
  notification n j evs -> snapshots evs = replicate (S n) j.
Proof.
  intros H. destruct (notification_snapshot n j evs H) as [Hall Hlen].
  rewrite <- Hlen. now apply snapshots_constant.
Qed.

Lemma releases_app tr1 tr2 :
  releases (tr1 ++ tr2) = (releases tr1 + releases tr2)%nat.
Proof. unfold releases. now rewrite filter_app, length_app. Qed.

Lemma releases_deliveries evs :
  Forall (fun ev => is_Some (snapshot_of ev)) evs -> releases evs = 0%nat.
Proof.
  induction 1 as [|ev evs Hev _ IH]; [reflexivity|].
  change (ev :: evs) with ([ev] ++ evs). rewrite releases_app, IH.
  destruct ev; try reflexivity. destruct Hev as [? Hev]. discriminate.
Qed.

Lemma releases_notification n j evs :
  notification n j evs -> releases evs = 0%nat.
Proof.
  intros H. apply releases_deliveries.
  destruct (notification_snapshot n j evs H) as [Hall _].
  eapply Forall_impl; [exact Hall|]. intros ev ->. eauto.
Qed.

Lemma status_writes_app tr1 tr2 :
  status_writes (tr1 ++ tr2) = status_writes tr1 ++ status_writes tr2.
Proof. apply omap_app. Qed.

Lemma status_writes_deliveries evs :
  Forall (fun ev => is_Some (snapshot_of ev)) evs -> status_writes evs = [].
Proof.
  induction 1 as [|ev evs Hev _ IH]; [reflexivity|].
  change (ev :: evs) with ([ev] ++ evs). rewrite status_writes_app, IH.
  destruct ev; try reflexivity. destruct Hev as [? Hev]. discriminate.
Qed.

Lemma status_writes_notification n j evs :
  notification n j evs -> status_writes evs = [].
Proof.
  intros H. apply status_writes_deliveries.
  destruct (notification_snapshot n j evs H) as [Hall _].
  eapply Forall_impl; [exact Hall|]. intros ev ->. eauto.
Qed.

Lemma terminated_status now jw s jT :
  terminated now jw s jT -> status jT = s /\ is_terminal s = true.
Proof. intros [[-> ->] | (msg & -> & ->)]; split; reflexivity. Qed.

Lemma attempted_deliveries n j2 jw evs :
  attempted n j2 jw evs -> Forall (fun ev => is_Some (snapshot_of ev)) evs.
Proof. intros (j3 & N & k & _ & _ & _ & _ & H). exact H. Qed.

(** * The claims *)


Lemma loop_snapshots_elem ncbs N j i k s :
  In s (loop_snapshots ncbs N j i k) ->
  exists m, (i < m <= i + k)%nat /\ s = frame_job N j m.
Proof.
  unfold loop_snapshots. rewrite in_flat_map. intros (m & Hm & Hs).
  apply in_seq in Hm. exists m. split; [lia|].
  apply list_elem_of_In, elem_of_replicate in Hs. tauto.
Qed.

(** The jobs a run hands out, and the job it leaves in the registry. *)
Lemma executor_snapshots {World} eng (st : PipelineService World) job w now :
  registered st job ->
  let r := run (_generate_with_progress eng job) st w now in
  let ncbs := length (callbacks_of st (job_id job)) in
  let j1 := loading_job now job in
  let j2 := generating_job now job in
  (snapshots (trace (fst r)) = replicate (S ncbs) j1 /\
   _jobs (service (fst r)) !! job_id job = Some j1)
  \/
  (exists j3 N k sT jT,
      (j3 = j2 \/ exists T, j3 = set_total_frames T j2) /\
      (k <= Z.to_nat N)%nat /\
      terminated (S now) (after_frames N j3 0 k) sT jT /\
      snapshots (trace (fst r)) =
        replicate (S ncbs) j1 ++ replicate (S ncbs) j2 ++
        loop_snapshots ncbs N j3 0 k ++ replicate (S ncbs) jT /\
      _jobs (service (fst r)) !! job_id job = Some jT).
Proof.
  intros Hreg r ncbs j1 j2. subst r. unfold run.
  destruct (executor_run eng st job w now [] Hreg)
    as (w1 & n1 & Hn1 & [(msg & _ & _ & Hrun) | Hrun]).
  - left. rewrite Hrun. unfold at_work. cbn [fst trace service _jobs app].
    split; [|apply lookup_insert_eq].
    change (EvStatus LOADING :: n1) with ([EvStatus LOADING] ++ n1).
    rewrite snapshots_app. exact (snapshots_notification _ _ _ Hn1).
  - right.
    destruct Hrun as (wT & n2 & evs & jw & sT & jT & nT &
                      _ & Hn2 & Hatt & Hfin & HnT & Hrun & _).
    destruct Hatt as (j3 & N & k & Hj3 & Hk & -> & Hsnap & _).
    exists j3, N, k, sT, jT.
    split; [exact Hj3|]. split; [exact Hk|]. split; [exact Hfin|].
    rewrite Hrun. unfold at_work. cbn [fst trace service _jobs app].
    assert (HidT : job_id jT = job_id job).
    { destruct Hfin as [[_ ->] | (m & _ & ->)]; cbn;
        rewrite job_id_after_frames; now destruct Hj3 as [-> | [T ->]]. }
    split; [|rewrite <- HidT; apply lookup_insert_eq].
    change (EvStatus LOADING :: n1 ++ EvStatus GENERATING :: n2 ++
              evs ++ EvStatus sT :: nT ++ [EvRelease])
      with ([EvStatus LOADING] ++ n1 ++ [EvStatus GENERATING] ++ n2 ++
              evs ++ [EvStatus sT] ++ nT ++ [EvRelease]).
    rewrite !snapshots_app.
    rewrite (snapshots_notification _ _ _ Hn1),
      (snapshots_notification _ _ _ Hn2),
      (snapshots_notification _ _ _ HnT), Hsnap.
    cbn [snapshots omap snapshot_of]. cbn.
    rewrite app_nil_r. reflexivity.
Qed.

Lemma after_frames_fields N j i k :
  status (after_frames N j i k) = status j /\
  output_path (after_frames N j i k) = output_path j /\
  error (after_frames N j i k) = error j.
Proof. now destruct k. Qed.

(** C5, amended.  In a run of the executor on a job fresh from
    [create_job], every job handed to [_notify_progress] and to the
    callbacks, and the job the run leaves in the registry, has exactly one
    of [output_path] and [error] set if its status is COMPLETED or FAILED,
    and neither of them set otherwise.  Set means not [None]: a set [error]
    is [str(e)], which is the empty string for an exception without a
    message.  The states between two field writes are not covered. *)
Theorem result_fields_follow_status {World} (eng : Engine)
  (st : PipelineService World) (job : GenerationJob) (w : World) (now : nat) :
  registered st job -> untouched job ->
  let env := fst (run (_generate_with_progress eng job) st w now) in
  forall s,
    In s (snapshots (trace env)) \/ _jobs (service env) !! job_id job = Some s ->
    (is_terminal (status s) = true -> one_result s) /\
    (is_terminal (status s) = false -> no_result s).
Proof.
  intros Hreg (Hst & Hpr & Hout & Herr) env s Hs. subst env.
  assert (Hcases :
    s = loading_job now job \/ s = generating_job now job \/
    (exists j3 N m,
        (j3 = generating_job now job \/
         exists T, j3 = set_total_frames T (generating_job now job)) /\
        s = frame_job N j3 m) \/
    (exists j3 N k sT,
        (j3 = generating_job now job \/
         exists T, j3 = set_total_frames T (generating_job now job)) /\
        terminated (S now) (after_frames N j3 0 k) sT s)).
  { destruct (executor_snapshots eng st job w now Hreg)
      as [[Hsnap Hfinal] | (j3 & N & k & sT & jT & Hj3 & _ & Hfin & Hsnap & Hfinal)].
    - destruct Hs as [Hs | Hs].
      + rewrite Hsnap in Hs.
        apply list_elem_of_In, elem_of_replicate in Hs. tauto.
      + rewrite Hfinal in Hs. injection Hs as <-. tauto.
    - destruct Hs as [Hs | Hs].
      + rewrite Hsnap in Hs. rewrite !in_app_iff in Hs.
        destruct Hs as [Hs | [Hs | [Hs | Hs]]].
        * apply list_elem_of_In, elem_of_replicate in Hs. tauto.
        * apply list_elem_of_In, elem_of_replicate in Hs. tauto.
        * apply loop_snapshots_elem in Hs. destruct Hs as (m & _ & ->).
          right. right. left. eauto.
        * apply list_elem_of_In, elem_of_replicate in Hs.
          destruct Hs as [-> _]. right. right. right. eauto 6.
      + rewrite Hfinal in Hs. injection Hs as <-.
        right. right. right. eauto 6. }
  unfold one_result, no_result.
  destruct Hcases as [-> | [-> | [(j3 & N & m & Hj3 & ->) |
                                  (j3 & N & k & sT & Hj3 & Hfin)]]].
  - cbn. rewrite Hout, Herr. split; [discriminate | auto].
  - cbn. rewrite Hout, Herr. split; [discriminate | auto].
  - destruct Hj3 as [-> | [T ->]]; cbn; rewrite Hout, Herr;
      (split; [discriminate | auto]).
  - destruct (after_frames_fields N j3 0 k) as (Hs1 & Ho1 & He1).
    assert (Ho3 : output_path j3 = None)
      by (destruct Hj3 as [-> | [T ->]]; exact Hout).
    assert (He3 : error j3 = None)
      by (destruct Hj3 as [-> | [T ->]]; exact Herr).
    destruct Hfin as [[_ ->] | (msg & _ & ->)]; cbn;
      rewrite ?Ho1, ?He1, ?Ho3, ?He3;
      (split; [intros _ | discriminate]).
    + left. split; [eauto | reflexivity].
    + right. split; [reflexivity | eauto].
Qed.

(** ** The order of the progress values *)

Lemma frame_progress_le (N : Z) (m m' : nat) :
  0 < N -> (m <= m')%nat ->
  (inject_Z (Z.of_nat m) / inject_Z N <= inject_Z (Z.of_nat m') / inject_Z N)%Q.
Proof.
  intros HN Hm. unfold Qdiv. apply Qmult_le_compat_r.
  - rewrite <- Zle_Qle. lia.
  - apply Qinv_le_0_compat. change 0%Q with (inject_Z 0).
    rewrite <- Zle_Qle. lia.
Qed.

Lemma frame_progress_le_1 (N : Z) (m : nat) :
  0 < N -> (m <= Z.to_nat N)%nat ->
  (inject_Z (Z.of_nat m) / inject_Z N <= 1)%Q.
Proof.
  intros HN Hm. apply Qle_shift_div_r.
  - change 0%Q with (inject_Z 0). rewrite <- Zlt_Qlt. exact HN.
  - rewrite Qmult_1_l, <- Zle_Qle. lia.
Qed.

Lemma frame_progress_nonneg (N : Z) (m : nat) :
  0 < N -> (0 <= inject_Z (Z.of_nat m) / inject_Z N)%Q.
Proof.
  intros HN. apply Qle_shift_div_l.
  - change 0%Q with (inject_Z 0). rewrite <- Zlt_Qlt. exact HN.
  - rewrite Qmult_0_l. change 0%Q with (inject_Z 0). rewrite <- Zle_Qle. lia.
Qed.

Lemma sorted_replicate n s : StronglySorted progress_le (replicate n s).
Proof.
  induction n as [|n IH]; cbn; constructor; [exact IH|].
  apply Forall_forall. intros t Ht.
  apply elem_of_replicate in Ht. destruct Ht as [-> _]. apply Qle_refl.
Qed.

Lemma sorted_app_via (mid : Q) l1 l2 :
  StronglySorted progress_le l1 -> StronglySorted progress_le l2 ->
  Forall (fun s => (progress s <= mid)%Q) l1 ->
  Forall (fun s => (mid <= progress s)%Q) l2 ->
  StronglySorted progress_le (l1 ++ l2).
Proof.
  intros H1 H2 Hlo Hhi. apply StronglySorted_app_2; [|exact H1|exact H2].
  intros x y Hx Hy. rewrite Forall_forall in Hlo, Hhi.
  eapply Qle_trans; [apply Hlo, Hx | apply Hhi, Hy].
Qed.

Lemma sorted_loop_snapshots ncbs N j :
  0 < N -> forall k i, StronglySorted progress_le (loop_snapshots ncbs N j i k).
Proof.
  intros HN. induction k as [|k IH]; intros i; [constructor|].
  change (loop_snapshots ncbs N j i (S k))
    with (replicate (S ncbs) (frame_job N j (S i)) ++
          loop_snapshots ncbs N j (S i) k).
  apply (sorted_app_via (progress (frame_job N j (S i)))).
  - apply sorted_replicate.
  - apply IH.
  - apply Forall_forall. intros t Ht.
    apply elem_of_replicate in Ht. destruct Ht as [-> _]. apply Qle_refl.
  - apply Forall_forall. intros t Ht. apply list_elem_of_In in Ht.
    apply loop_snapshots_elem in Ht. destruct Ht as (m & Hm & ->).
    apply frame_progress_le; [exact HN | lia].
Qed.

Lemma sorted_lookup l :
  StronglySorted progress_le l ->
  forall a b sa sb,
    (a <= b)%nat -> l !! a = Some sa -> l !! b = Some sb -> progress_le sa sb.
Proof.
  induction 1 as [|s l Hl IH Hall]; intros a b sa sb Hab Ha Hb.
  - discriminate.
  - destruct a as [|a], b as [|b]; cbn in *.
    + injection Ha as <-. injection Hb as <-. apply Qle_refl.
    + injection Ha as <-. rewrite Forall_forall in Hall.
      apply Hall. eapply list_elem_of_lookup_2. exact Hb.
    + lia.
    + eapply IH; [|exact Ha|exact Hb]. lia.
Qed.

(** C6, amended.  In a run of the executor on a job fresh from
    [create_job]: a job handed out or left with status QUEUED or LOADING has
    progress 0; the progress of the jobs handed out never decreases from
    one to the next (in particular not while the status is GENERATING); and
    a job handed out or left with status COMPLETED has progress 1, however
    early the loop ended.  The states between two field writes are not
    covered. *)
Theorem progress_starts_at_0_never_decreases_ends_at_1 {World} (eng : Engine)
  (st : PipelineService World) (job : GenerationJob) (w : World) (now : nat) :
  registered st job -> untouched job ->
  let env := fst (run (_generate_with_progress eng job) st w now) in
  (forall s,
      In s (snapshots (trace env)) \/ _jobs (service env) !! job_id job = Some s ->
      status s = QUEUED \/ status s = LOADING -> progress s = 0%Q) /\
  (forall a b sa sb,
      (a <= b)%nat ->
      snapshots (trace env) !! a = Some sa ->
      snapshots (trace env) !! b = Some sb ->
      (progress sa <= progress sb)%Q) /\
  (forall s,
      In s (snapshots (trace env)) \/ _jobs (service env) !! job_id job = Some s ->
      status s = COMPLETED -> progress s = 1%Q).
Proof.
  intros Hreg (Hst & Hpr & Hout & Herr) env. subst env.
  set (ncbs := length (callbacks_of st (job_id job))).
  destruct (executor_snapshots eng st job w now Hreg)
    as [[Hsnap Hfinal] | (j3 & N & k & sT & jT & Hj3 & Hk & Hfin & Hsnap & Hfinal)].
  - (* the model could not be loaded *)
    assert (Hin : forall s,
      In s (snapshots (trace (fst (run (_generate_with_progress eng job) st w now))))
      \/ _jobs (service (fst (run (_generate_with_progress eng job) st w now)))
           !! job_id job = Some s ->
      s = loading_job now job).
    { intros s [Hs | Hs].
      - rewrite Hsnap in Hs.
        apply list_elem_of_In, elem_of_replicate in Hs. tauto.
      - rewrite Hfinal in Hs. now injection Hs as <-. }
    split; [|split].
    + intros s Hs _. rewrite (Hin s Hs). exact Hpr.
    + rewrite Hsnap. apply sorted_lookup, sorted_replicate.
    + intros s Hs Hc. rewrite (Hin s Hs) in Hc. discriminate.
  - assert (Hp3 : progress j3 = 0%Q)
      by (destruct Hj3 as [-> | [T ->]]; exact Hpr).
    assert (Hs3 : status j3 = GENERATING)
      by (destruct Hj3 as [-> | [T ->]]; reflexivity).
    assert (Hin : forall s,
      In s (snapshots (trace (fst (run (_generate_with_progress eng job) st w now))))
      \/ _jobs (service (fst (run (_generate_with_progress eng job) st w now)))
           !! job_id job = Some s ->
      s = loading_job now job \/ status s = GENERATING \/ s = jT).
    { intros s [Hs | Hs].
      - rewrite Hsnap in Hs. rewrite !in_app_iff in Hs.
        destruct Hs as [Hs | [Hs | [Hs | Hs]]].
        + apply list_elem_of_In, elem_of_replicate in Hs. tauto.
        + apply list_elem_of_In, elem_of_replicate in Hs.
          destruct Hs as [-> _]. right. left. reflexivity.
        + apply loop_snapshots_elem in Hs. destruct Hs as (m & _ & ->).
          right. left. exact Hs3.
        + apply list_elem_of_In, elem_of_replicate in Hs. tauto.
      - rewrite Hfinal in Hs. injection Hs as <-. tauto. }
    destruct (terminated_status _ _ _ _ Hfin) as [HsT HtT].
    split; [|split].
    + intros s Hs Hq. destruct (Hin s Hs) as [-> | [Hg | ->]].
      * exact Hpr.
      * rewrite Hg in Hq. destruct Hq; discriminate.
      * rewrite HsT in Hq. destruct Hq as [-> | ->]; discriminate.
    + rewrite Hsnap. apply sorted_lookup.
      apply (sorted_app_via 0%Q); [apply sorted_replicate| |
        apply Forall_forall; intros t Ht;
        apply elem_of_replicate in Ht; destruct Ht as [-> _];
        cbn; rewrite Hpr; apply Qle_refl |].
      * apply (sorted_app_via 0%Q); [apply sorted_replicate| |
          apply Forall_forall; intros t Ht;
          apply elem_of_replicate in Ht; destruct Ht as [-> _];
          cbn; rewrite Hpr; apply Qle_refl |].
        -- destruct k as [|k].
           ++ cbn [loop_snapshots seq flat_map app]. apply sorted_replicate.
           ++ assert (HN : 0 < N) by lia.
              apply (sorted_app_via (progress (frame_job N j3 (S k)))).
              ** apply sorted_loop_snapshots. exact HN.
              ** apply sorted_replicate.
              ** apply Forall_forall. intros t Ht. apply list_elem_of_In in Ht.
                 apply loop_snapshots_elem in Ht. destruct Ht as (m & Hm & ->).
                 apply frame_progress_le; [exact HN | lia].
              ** apply Forall_forall. intros t Ht.
                 apply elem_of_replicate in Ht. destruct Ht as [-> _].
                 destruct Hfin as [[_ ->] | (msg & _ & ->)].
                 --- cbn. apply frame_progress_le_1; [exact HN | lia].
                 --- apply Qle_refl.
        -- apply Forall_app. split.
           ++ apply Forall_forall. intros t Ht. apply list_elem_of_In in Ht.
              apply loop_snapshots_elem in Ht. destruct Ht as (m & Hm & ->).
              apply frame_progress_nonneg. lia.
           ++ apply Forall_forall. intros t Ht.
              apply elem_of_replicate in Ht. destruct Ht as [-> _].
              destruct Hfin as [[_ ->] | (msg & _ & ->)]; [discriminate|].
              destruct k as [|k]; cbn.
              ** rewrite Hp3. apply Qle_refl.
              ** apply frame_progress_nonneg. lia.
      * apply Forall_app. split; [|apply Forall_app; split].
        -- apply Forall_forall. intros t Ht.
           apply elem_of_replicate in Ht. destruct Ht as [-> _].
           cbn. rewrite Hpr. apply Qle_refl.
        -- apply Forall_forall. intros t Ht. apply list_elem_of_In in Ht.
           apply loop_snapshots_elem in Ht. destruct Ht as (m & Hm & ->).
           apply frame_progress_nonneg. lia.
        -- apply Forall_forall. intros t Ht.
           apply elem_of_replicate in Ht. destruct Ht as [-> _].
           destruct Hfin as [[_ ->] | (msg & _ & ->)]; [discriminate|].
           destruct k as [|k]; cbn.
           ++ rewrite Hp3. apply Qle_refl.
           ++ apply frame_progress_nonneg. lia.
    + intros s Hs Hc. destruct (Hin s Hs) as [-> | [Hg | ->]].
      * discriminate.
      * rewrite Hg in Hc. discriminate.
      * destruct Hfin as [[_ ->] | (msg & _ & ->)]; [reflexivity|discriminate].
Qed.

Lemma loop_stops_at eng :
  forall k n i,
    (forall m, (m < k)%nat -> generate_frame eng (i + m) = Frame) ->
    generate_frame eng (i + k) = EndOfSequence ->
    (k < n)%nat ->
    loop_frames eng n i = k /\ loop_outcome eng n i = Normal tt.
Proof.
  induction k as [|k IH]; intros n i Hframes Heos Hn;
    (destruct n as [|n]; [lia|]); cbn [loop_frames loop_outcome].
  - rewrite Nat.add_0_r in Heos. now rewrite Heos.
  - assert (Hi : generate_frame eng i = Frame).
    { rewrite <- (Nat.add_0_r i). apply Hframes. lia. }
    rewrite Hi.
    destruct (IH n (S i)) as [-> ->]; [| |lia|auto].
    + intros m Hm. replace (S i + m)%nat with (i + S m)%nat by lia.
      apply Hframes. lia.
    + replace (S i + k)%nat with (i + S k)%nat by lia. exact Heos.
Qed.

(** C7.  A job with [max_audio_length_ms = 80000], an engine that answers
    every call, returns a frame in each of the iterations 0 to 499 of the
    loop and signals the end of the sequence in iteration 500: the run
    returns normally, [total_frames] is 80000 // 80 = 1000, the status goes
    LOADING, GENERATING, COMPLETED and never FAILED, and the job is left
    with [current_frame = 500], [progress = 1], [error] unset and
    [output_path] set. *)
Theorem end_of_sequence_at_500_of_1000 {World} (eng : Engine)
  (st : PipelineService World) (job : GenerationJob) (w : World) (now : nat) :
  registered st job -> untouched job ->
  max_audio_length_ms job = 80000 ->
  _pipeline st = true \/ from_pretrained eng = Returns ->
  preprocess eng = Returns ->
  forward_max_audio_length_ms eng 80000 = 80000 ->
  first_frame eng = Returns ->
  (forall i, (i < 500)%nat -> generate_frame eng i = Frame) ->
  generate_frame eng 500 = EndOfSequence ->
  detokenize eng = Returns ->
  torchaudio_save eng = Returns ->
  let r := run (_generate_with_progress eng job) st w now in
  snd r = Normal tt /\
  status_writes (trace (fst r)) = [LOADING; GENERATING; COMPLETED] /\
  exists jT,
    _jobs (service (fst r)) !! job_id job = Some jT /\
    total_frames jT = 1000 /\
    current_frame jT = 500 /\
    status jT = COMPLETED /\
    progress jT = 1%Q /\
    error jT = None /\
    output_path jT = Some ("/output/" +:+ job_id job +:+ ".mp3").
Proof.
  intros Hreg (Hst & Hpr & Hout & Herr) Hms Hload Hpre Hfwd Hfirst Hframes Heos
    Hdet Hsave r. subst r. unfold run.
  destruct (executor_run eng st job w now [] Hreg)
    as (w1 & n1 & Hn1 & [(msg & Hl & Hfp & _) | Hrun]).
  { destruct Hload as [Hload | Hload]; congruence. }
  destruct Hrun as (wT & n2 & evs & jw & sT & jT & nT &
                    _ & Hn2 & Hatt & Hfin & HnT & Hrun & Hexact).
  rewrite Hms, Hfwd in Hexact.
  change (80000 / 80) with 1000 in Hexact.
  destruct (loop_stops_at eng 500 (Z.to_nat 1000) 0) as [Hk Hok];
    [exact Hframes | exact Heos | lia |].
  specialize (Hexact Hpre Hfirst Hok Hdet Hsave). rewrite Hk in Hexact.
  assert (HsT : sT = COMPLETED).
  { destruct (terminated_status _ _ _ _ Hfin) as [<- _]. now rewrite Hexact. }
  rewrite Hrun. unfold at_work. cbn [fst snd trace service _jobs app].
  split; [reflexivity|]. split.
  - change (EvStatus LOADING :: n1 ++ EvStatus GENERATING :: n2 ++
              evs ++ EvStatus sT :: nT ++ [EvRelease])
      with ([EvStatus LOADING] ++ n1 ++ [EvStatus GENERATING] ++ n2 ++
              evs ++ [EvStatus sT] ++ nT ++ [EvRelease]).
    rewrite !status_writes_app.
    rewrite (status_writes_notification _ _ _ Hn1),
      (status_writes_notification _ _ _ Hn2),
      (status_writes_notification _ _ _ HnT),
      (status_writes_deliveries _ (attempted_deliveries _ _ _ _ Hatt)), HsT.
    reflexivity.
  - exists jT. rewrite Hexact.
    split; [apply lookup_insert_eq|].
    cbn. rewrite Herr. repeat split; reflexivity.
Qed.

Lemma end_of_sequence_at_500_of_1000_witness :
  snd sample_run_500 = Normal tt /\
  status_writes (trace (fst sample_run_500)) = [LOADING; GENERATING; COMPLETED] /\
  (current_frame <$> _jobs (service (fst sample_run_500)) !! "job-1") = Some 500.
Proof.
  assert (Hframes : forall i, (i < 500)%nat ->
                      generate_frame (engine_eos_at 500) i = Frame).
  { intros i Hi.
    change (generate_frame (engine_eos_at 500) i)
      with (if (i <? 500)%nat then Frame else EndOfSequence).
    apply Nat.ltb_lt in Hi. now rewrite Hi. }
  assert (Hfresh : untouched sample_job) by (repeat split; reflexivity).
  destruct (end_of_sequence_at_500_of_1000 (engine_eos_at 500) sample_service
              sample_job tt 1%nat eq_refl Hfresh eq_refl
              (or_intror eq_refl) eq_refl eq_refl eq_refl Hframes eq_refl
              eq_refl eq_refl)
    as (Hout & Hwrites & jT & Hlookup & _ & Hframe & _).
  split; [exact Hout|]. split; [exact Hwrites|].
  change (_jobs (service (fst sample_run_500)) !! "job-1")
    with (_jobs (service (fst sample_run_500)) !! job_id sample_job).
  unfold sample_run_500. rewrite Hlookup. cbn. now rewrite Hframe.
Defined.

(** C2.  What the executor does when loading the model raises: the status
    is written once, to LOADING, and stays there; [error] and [output_path]
    are not written; [self._current_job] is not cleared; the exception
    leaves [_generate_with_progress].  [load_pipeline] is called before the
    [try] statement whose [except] clause marks a job FAILED. *)
Theorem warm_up_error_leaves_job_loading {World} (eng : Engine)
  (st : PipelineService World) (job : GenerationJob) (w : World) (now : nat)
  (msg : string) :
  registered st job ->
  _pipeline st = false ->
  from_pretrained eng = Raises msg ->
  let r := run (_generate_with_progress eng job) st w now in
  snd r = Raised (Exception msg) /\
  status_writes (trace (fst r)) = [LOADING] /\
  releases (trace (fst r)) = 0%nat /\
  _current_job (service (fst r)) = _current_job st /\
  exists j,
    _jobs (service (fst r)) !! job_id job = Some j /\
    status j = LOADING /\
    error j = error job /\
    output_path j = output_path job.
Proof.
  intros Hreg Hl Hfp r. subst r. unfold run.
  destruct (executor_run eng st job w now [] Hreg)
    as (w1 & n1 & Hn1 & [(msg' & _ & Hfp' & Hrun) | Hrun]).
  - rewrite Hfp in Hfp'. injection Hfp' as <-.
    rewrite Hrun. unfold at_work. cbn [fst snd trace service _jobs _current_job app].
    split; [reflexivity|].
    change (EvStatus LOADING :: n1) with ([EvStatus LOADING] ++ n1).
    rewrite status_writes_app, releases_app.
    rewrite (status_writes_notification _ _ _ Hn1),
      (releases_notification _ _ _ Hn1).
    repeat split. eexists. split; [apply lookup_insert_eq|].
    repeat split.
  - destruct Hrun as (wT & n2 & evs & jw & sT & jT & nT & [Hc | Hc] & _);
      congruence.
Qed.

Lemma warm_up_error_leaves_job_loading_witness :
  snd sample_run_without_checkpoint = Raised (Exception "checkpoint not found") /\
  status_writes (trace (fst sample_run_without_checkpoint)) = [LOADING] /\
  releases (trace (fst sample_run_without_checkpoint)) = 0%nat /\
  _current_job (service (fst sample_run_without_checkpoint)) = Some "job-1".
Proof.
  destruct (warm_up_error_leaves_job_loading engine_without_checkpoint
              sample_service sample_job tt 1%nat "checkpoint not found"
              eq_refl eq_refl eq_refl)
    as (Hout & Hwrites & Hrel & Hslot & _).
  split; [exact Hout|]. split; [exact Hwrites|]. split; [exact Hrel|].
  exact Hslot.
Defined.

(** C4.  A [POST /start] handled while [_current_job] is set raises
    [HTTPException] with status 429, leaves the service as it was, the
    registry included, and schedules no background task: no job is
    created. *)
Theorem occupied_slot_rejects_creation {World} (uuid : string) (now : nat)
  (request : Router.GenerationRequest) (st : PipelineService World) :
  is_Some (_current_job st) ->
  Router.start_generation uuid now request st =
  (Router.HTTPException 429
     "A generation is already in progress. Please wait for it to complete.",
   st, None).
Proof. intros [c Hc]. unfold Router.start_generation. now rewrite Hc. Qed.

Lemma occupied_slot_rejects_creation_witness :
  _jobs (snd (fst (Router.start_generation "job-2" 7 sample_request
                     sample_service))) = _jobs sample_service.
Proof.
  rewrite (occupied_slot_rejects_creation "job-2" 7%nat sample_request
             sample_service (ex_intro _ "job-1" eq_refl)).
  reflexivity.
Defined.

(** ** The streams *)

(** C8 as stated fails.  Two connections watch the same job; before the
    second one registers, the job has one subscriber; when the second one
    ends, the job has none: the callback of the first connection is gone
    with it. *)
Lemma closing_one_stream_unregisters_the_others :
  subscribers (Router.service_after first_stream_started) "job-1" = 1%nat /\
  subscribers (Router.service_after second_stream_started) "job-1" = 2%nat /\
  subscribers (Router.service_after second_stream_closed) "job-1" <>
    subscribers (Router.service_after first_stream_started) "job-1".
Proof. vm_compute. repeat split; discriminate. Qed.

Lemma subscribers_unregister {World} (st : PipelineService World) id :
  subscribers (unregister_progress_callbacks id st) id = 0%nat.
Proof.
  unfold subscribers, unregister_progress_callbacks. cbn.
  now rewrite lookup_delete_eq.
Qed.

Lemma subscribers_unregister_ne {World} (st : PipelineService World) id other :
  other <> id ->
  subscribers (unregister_progress_callbacks id st) other = subscribers st other.
Proof.
  intros Hne. unfold subscribers, unregister_progress_callbacks. cbn.
  now rewrite lookup_delete_ne.
Qed.

(** C8, amended.  When the generator of a connection ends after it has
    entered its [try] statement, by running to its end or by being closed
    when the client goes away, [unregister_progress_callbacks] removes every
    callback registered for the job id: the job is left with no subscriber,
    whichever connection registered them; the callbacks of other job ids
    stay, and so do the registry and the slot.  A client that goes away
    always ends the generator. *)
Theorem stream_end_unregisters_every_callback_of_the_job (b : Router.Bridge)
  (inp : Router.Input) (st : PipelineService Router.Queues)
  (w : Router.Queues) :
  Router.in_try b ->
  let s := Router.step b inp st w in
  (inp = Router.Disconnect -> Router.b_position (Router.bridge s) = Router.Finished) /\
  (Router.b_position (Router.bridge s) = Router.Finished ->
   Router.service_after s =
     unregister_progress_callbacks (Router.b_job_id b) st /\
   subscribers (Router.service_after s) (Router.b_job_id b) = 0%nat /\
   (forall other, other <> Router.b_job_id b ->
      subscribers (Router.service_after s) other = subscribers st other) /\
   _jobs (Router.service_after s) = _jobs st /\
   _current_job (Router.service_after s) = _current_job st).
Proof.
  intros [Hstarted Hopen] s. subst s.
  assert (Hfin :
    let f := Router.finish b st w in
    Router.service_after f =
      unregister_progress_callbacks (Router.b_job_id b) st /\
    subscribers (Router.service_after f) (Router.b_job_id b) = 0%nat /\
    (forall other, other <> Router.b_job_id b ->
       subscribers (Router.service_after f) other = subscribers st other) /\
    _jobs (Router.service_after f) = _jobs st /\
    _current_job (Router.service_after f) = _current_job st).
  { cbn. split; [reflexivity|]. split; [apply subscribers_unregister|].
    split; [intros other Hne; now apply subscribers_unregister_ne|].
    split; reflexivity. }
  unfold Router.step.
  destruct (Router.b_position b) eqn:Hpos; try congruence;
    destruct inp; (split; [try reflexivity; try discriminate|]);
    try (intros _; exact Hfin).
  - destruct (is_terminal _); [intros _; exact Hfin | discriminate].
  - destruct (default [] _); discriminate.
  - destruct (is_terminal _); [intros _; exact Hfin | discriminate].
  - destruct (get_job _ _) as [cur|]; [|intros _; exact Hfin].
    destruct (is_terminal _); discriminate.
Qed.

Lemma stream_end_unregisters_every_callback_of_the_job_witness :
  Router.b_position (Router.bridge first_stream_closed) = Router.Finished /\
  subscribers (Router.service_after first_stream_closed) "job-1" = 0%nat.
Proof.
  assert (Htry : Router.in_try (Router.bridge first_stream_started))
    by (split; discriminate).
  destruct (stream_end_unregisters_every_callback_of_the_job
              (Router.bridge first_stream_started) Router.Disconnect
              (Router.service_after first_stream_started)
              (Router.queues_after first_stream_started) Htry)
    as [Hgone Hend].
  split; [exact (Hgone eq_refl)|].
  destruct (Hend (Hgone eq_refl)) as (_ & Hzero & _). exact Hzero.
Defined.

(** C9.  [stream_progress] on an id that is not in the registry raises
    [HTTPException] 404 and builds no stream.  On the id of a job whose
    status is COMPLETED or FAILED it builds a stream whose first step yields
    one [data:] record, the terminal snapshot: the id, the status
    "completed" or "failed", the progress, the frame counters, the
    [output_path] and the [error] of the job as it is.  Its next step, the
    job still being terminal, yields nothing and ends the generator,
    whatever the input; a finished generator yields nothing more. *)
Theorem stream_of_unknown_or_terminal_job (st : PipelineService Router.Queues)
  (id : string) (queue : nat) (w : Router.Queues) :
  match get_job st id with
  | None =>
      Router.stream_progress st id queue =
      Router.HTTPException 404 "Job not found"
  | Some job =>
      is_terminal (status job) = true ->
      exists b,
        Router.stream_progress st id queue = Router.Ok b /\
        (JobStatus_value (status job) = "completed" \/
         JobStatus_value (status job) = "failed") /\
        let s1 := Router.step b Router.Resume st w in
        Router.emitted s1 =
          [Router.Data
             {| Router.d_job_id := job_id job;
                Router.d_status := JobStatus_value (status job);
                Router.d_progress := progress job;
                Router.d_current_frame := current_frame job;
                Router.d_total_frames := total_frames job;
                Router.d_output_path := output_path job;
                Router.d_error := error job |}] /\
        (forall inp st1 w1,
            (forall job1, get_job st1 id = Some job1 ->
                          is_terminal (status job1) = true) ->
            let s2 := Router.step (Router.bridge s1) inp st1 w1 in
            Router.emitted s2 = [] /\
            Router.b_position (Router.bridge s2) = Router.Finished /\
            forall inp' st2 w2,
              Router.emitted (Router.step (Router.bridge s2) inp' st2 w2) = [] /\
              Router.bridge (Router.step (Router.bridge s2) inp' st2 w2) =
                Router.bridge s2) /\
        (forall inp inputs,
            let s := Router.drive b (Router.Resume :: inp :: inputs) st w in
            Router.emitted s =
              [Router.Data
                 {| Router.d_job_id := job_id job;
                    Router.d_status := JobStatus_value (status job);
                    Router.d_progress := progress job;
                    Router.d_current_frame := current_frame job;
                    Router.d_total_frames := total_frames job;
                    Router.d_output_path := output_path job;
                    Router.d_error := error job |}] /\
            Router.b_position (Router.bridge s) = Router.Finished)
  end.
Proof.
  unfold Router.stream_progress.
  destruct (get_job st id) as [job|] eqn:Hget; [|reflexivity].
  intros Hterm. eexists. split; [reflexivity|].
  set (b := {| Router.b_job_id := id; Router.b_job := job;
               Router.b_queue := queue;
               Router.b_position := Router.NotStarted |}).
  assert (Hcur : Router.current st b job = job).
  { unfold Router.current. cbn. unfold get_job in Hget. now rewrite Hget. }
  assert (Hfirst : Router.step b Router.Resume st w =
    {| Router.bridge := Router.at_position Router.AtInitialYield b;
       Router.emitted := [Router.Data (Router._job_to_dict job)];
       Router.service_after :=
         register_progress_callback id (Router.on_progress queue) st;
       Router.queues_after := <[queue := []]> w |}).
  { unfold Router.step. cbn. now rewrite Hcur. }
  assert (Hsecond : forall inp st1 w1,
    (forall job1, get_job st1 id = Some job1 ->
                  is_terminal (status job1) = true) ->
    Router.step (Router.at_position Router.AtInitialYield b) inp st1 w1 =
    Router.finish (Router.at_position Router.AtInitialYield b) st1 w1).
  { intros inp st1 w1 Hst1. unfold Router.step. cbn.
    destruct inp; [|reflexivity].
    unfold Router.current. cbn. unfold get_job in Hst1.
    destruct (_jobs st1 !! id) as [job1|] eqn:H1; cbn.
    - now rewrite (Hst1 job1 eq_refl).
    - now rewrite Hterm. }
  assert (Hdone : forall b' inp st2 w2,
    Router.b_position b' = Router.Finished ->
    Router.step b' inp st2 w2 =
    {| Router.bridge := b'; Router.emitted := [];
       Router.service_after := st2; Router.queues_after := w2 |}).
  { intros b' inp st2 w2 Hb'. unfold Router.step. now rewrite Hb'. }
  assert (Hdrive : forall inputs b' st2 w2,
    Router.b_position b' = Router.Finished ->
    Router.emitted (Router.drive b' inputs st2 w2) = [] /\
    Router.bridge (Router.drive b' inputs st2 w2) = b').
  { induction inputs as [|inp inputs IH]; intros b' st2 w2 Hb'; cbn.
    - auto.
    - rewrite (Hdone b' inp st2 w2 Hb'). cbn.
      destruct (IH b' st2 w2 Hb') as [-> ->]. auto. }
  split; [destruct (status job); try discriminate Hterm; auto|].
  cbn zeta. rewrite Hfirst. cbn [Router.emitted Router.bridge].
  split; [reflexivity|]. split.
  - intros inp st1 w1 Hst1. rewrite (Hsecond inp st1 w1 Hst1).
    cbn [Router.finish Router.emitted Router.bridge].
    split; [reflexivity|]. split; [reflexivity|].
    intros inp' st2 w2. rewrite Hdone by reflexivity. auto.
  - intros inp inputs. cbn [Router.drive]. rewrite Hfirst.
    cbn [Router.emitted Router.bridge Router.service_after Router.queues_after].
    rewrite Hsecond.
    + cbn [Router.finish Router.emitted Router.bridge Router.service_after
           Router.queues_after].
      destruct (Hdrive inputs
                  (Router.at_position Router.Finished
                     (Router.at_position Router.AtInitialYield b))
                  (unregister_progress_callbacks
                     (Router.b_job_id (Router.at_position Router.AtInitialYield b))
                     (register_progress_callback id (Router.on_progress queue) st))
                  (<[queue := []]> w) eq_refl) as [-> ->].
      split; reflexivity.
    + intros job1 H1. unfold get_job, register_progress_callback in H1.
      cbn in H1. unfold get_job in Hget. rewrite Hget in H1.
      now injection H1 as <-.
Qed.

Lemma stream_of_unknown_or_terminal_job_witness :
  Router.stream_progress failed_service "job-9" 1 =
    Router.HTTPException 404 "Job not found" /\
  exists b,
    Router.stream_progress failed_service "job-1" 1 = Router.Ok b /\
    Router.emitted
      (Router.drive b [Router.Resume; Router.Resume; Router.Resume]
         failed_service ∅) =
    [Router.Data
       {| Router.d_job_id := "job-1"; Router.d_status := "failed";
          Router.d_progress := 0%Q; Router.d_current_frame := 0;
          Router.d_total_frames := 0; Router.d_output_path := None;
          Router.d_error := Some "out of memory" |}].
Proof.
  split.
  - exact (stream_of_unknown_or_terminal_job failed_service "job-9" 1 ∅).
  - destruct (stream_of_unknown_or_terminal_job failed_service "job-1" 1 ∅
                eq_refl) as (b & Hopen & _ & _ & _ & Hdrive).
    exists b. split; [exact Hopen|].
    exact (proj1 (Hdrive Router.Resume [Router.Resume])).
Defined.

(** ** Callbacks that raise *)

(** C10.  [_notify_progress] on a registered job with callbacks returns
    normally whatever the callbacks do: an exception raised by one of them
    is caught and dropped, and every callback of the list is called once,
    in order, with the job; the event of call [i] records whether callback
    [i] raised.  The loop that calls [_notify_progress] after each frame
    is not affected: how it ends and what it leaves in the job are read off
    the engine alone, and it changes neither the slot nor the callbacks. *)
Theorem notification_isolates_callbacks {World} (eng : Engine)
  (st : PipelineService World) (job : GenerationJob)
  (callbacks : list (Callback World)) (w : World) (now : nat)
  (max_audio_frames : Z) (n i : nat) :
  registered st job ->
  _progress_callbacks st !! job_id job = Some callbacks ->
  (let r := run (_notify_progress (job_id job)) st w now in
   snd r = Normal tt /\
   service (fst r) = st /\
   world (fst r) = callbacks_world callbacks job w /\
   trace (fst r) = EvNotify job :: callbacks_events 0 callbacks job w /\
   length (callbacks_events 0 callbacks job w) = length callbacks /\
   forall k callback,
     callbacks !! k = Some callback ->
     exists raised,
       callbacks_events 0 callbacks job w !! k = Some (EvCallback k job raised)) /\
  (let r := run (frame_loop eng job max_audio_frames n i) st w now in
   snd r = loop_outcome eng n i /\
   _jobs (service (fst r)) =
     <[job_id job := after_frames max_audio_frames job i (loop_frames eng n i)]>
       (_jobs st) /\
   _current_job (service (fst r)) = _current_job st /\
   _progress_callbacks (service (fst r)) = _progress_callbacks st).
Proof.
  intros Hreg Hcbs. split.
  - intros r. subst r. unfold run.
    rewrite (registered_at_work st job w now [] Hreg), notify_at_work.
    unfold callbacks_of. rewrite Hcbs. cbn.
    split; [reflexivity|]. split.
    { unfold registered in Hreg. rewrite (insert_id _ _ _ Hreg).
      now destruct st. }
    split; [reflexivity|]. split; [reflexivity|].
    split; [apply length_callbacks_events|].
    intros k callback Hk.
    exact (lookup_callbacks_events callbacks 0 job w k callback Hk).
  - intros r. subst r. unfold run.
    rewrite (registered_at_work st job w now [] Hreg).
    destruct (frame_loop_at_work eng st (_pipeline st) (_current_job st) job
                max_audio_frames n i job w now [] eq_refl)
      as (w' & evs & Hrun & _).
    rewrite Hrun. cbn. rewrite job_id_after_frames. auto.
Qed.

Lemma notification_isolates_callbacks_witness :
  snd sample_notification = Normal tt /\
  trace (fst sample_notification) =
    [EvNotify sample_job; EvCallback 0 sample_job true;
     EvCallback 1 sample_job false].
Proof.
  destruct (notification_isolates_callbacks (engine_eos_at 3) sample_service
              sample_job [raising_callback; quiet_callback] tt 1%nat 1000
              1000%nat 0%nat eq_refl eq_refl)
    as [(Hout & _ & _ & Htrace & _) _].
  split; [exact Hout | exact Htrace].
Defined.

(** ** The admission gate *)

(** The executor writes the slot at most once, as its last step; this is
    the segment [EventLoop.ExecutorRelease] of a schedule.  If loading the
    model raises, it does not write the slot at all. *)
Lemma executor_releases_last {World} eng (st : PipelineService World) job w now :
  registered st job ->
  (snd (run (_generate_with_progress eng job) st w now) = Normal tt /\
   _current_job (service (fst (run (_generate_with_progress eng job) st w now)))
     = None /\
   exists before,
     trace (fst (run (_generate_with_progress eng job) st w now)) =
       before ++ [EvRelease] /\
     releases before = 0%nat)
  \/
  (exists msg,
      snd (run (_generate_with_progress eng job) st w now) =
        Raised (Exception msg) /\
      _current_job (service (fst (run (_generate_with_progress eng job) st w now)))
        = _current_job st /\
      releases (trace (fst (run (_generate_with_progress eng job) st w now)))
        = 0%nat).
Proof.
  intros Hreg. unfold run.
  destruct (executor_run eng st job w now [] Hreg)
    as (w1 & n1 & Hn1 & [(msg & _ & _ & Hrun) | Hrun]).
  - right. exists msg. rewrite Hrun.
    unfold at_work. cbn [fst snd trace service _current_job app].
    split; [reflexivity|]. split; [reflexivity|].
    change (EvStatus LOADING :: n1) with ([EvStatus LOADING] ++ n1).
    rewrite releases_app, (releases_notification _ _ _ Hn1). reflexivity.
  - left.
    destruct Hrun as (wT & n2 & evs & jw & sT & jT & nT &
                      _ & Hn2 & Hatt & Hfin & HnT & Hrun & _).
    rewrite Hrun. unfold at_work. cbn [fst snd trace service _current_job app].
    split; [reflexivity|]. split; [reflexivity|].
    exists (EvStatus LOADING :: n1 ++ EvStatus GENERATING :: n2 ++
              evs ++ EvStatus sT :: nT).
    split.
    + cbn. rewrite <- !app_assoc. cbn. rewrite <- !app_assoc. reflexivity.
    + change (EvStatus LOADING :: n1 ++ EvStatus GENERATING :: n2 ++
                evs ++ EvStatus sT :: nT)
        with ([EvStatus LOADING] ++ n1 ++ [EvStatus GENERATING] ++ n2 ++
                evs ++ [EvStatus sT] ++ nT).
      rewrite !releases_app.
      rewrite (releases_notification _ _ _ Hn1),
        (releases_notification _ _ _ Hn2),
        (releases_notification _ _ _ HnT),
        (releases_deliveries _ (attempted_deliveries _ _ _ _ Hatt)).
      reflexivity.
Qed.

(** C1.  Two creation requests handled while no job is active are both
    answered 200, each with a new job and a background task: the handler
    of [POST /start] tests [_current_job] and does not set it.  The slot is
    set by [PipelineService.start_generation], in the task.  Of the two
    tasks the first sets the slot; the second raises [RuntimeError] inside
    the task, after its request was answered, and its job stays QUEUED in
    the registry.  One acquisition sets the slot, but no request receives
    the capacity error. *)
Theorem second_request_is_accepted_before_the_first_task_starts {World}
  (uuid1 uuid2 : string) (now1 now2 : nat)
  (request1 request2 : Router.GenerationRequest) (env : Env World) :
  _current_job (service env) = None ->
  exists job1 job2 response1 response2 st1 st2,
    Router.start_generation uuid1 now1 request1 (service env)
      = (Router.Ok response1, st1, Some job1) /\
    Router.start_generation uuid2 now2 request2 st1
      = (Router.Ok response2, st2, Some job2) /\
    Router.resp_job_id response1 = uuid1 /\
    Router.resp_job_id response2 = uuid2 /\
    job_id job1 = uuid1 /\ job_id job2 = uuid2 /\
    fst (EventLoop.schedule
           [EventLoop.PostStart uuid1 now1 request1;
            EventLoop.PostStart uuid2 now2 request2;
            EventLoop.BackgroundStart job1;
            EventLoop.BackgroundStart job2] env)
    = [EventLoop.Started response1; EventLoop.Started response2;
       EventLoop.Acquired uuid1;
       EventLoop.AcquireRaised
         (RuntimeError "A generation is already in progress")] /\
    _current_job
      (service
         (snd (EventLoop.schedule
                 [EventLoop.PostStart uuid1 now1 request1;
                  EventLoop.PostStart uuid2 now2 request2;
                  EventLoop.BackgroundStart job1;
                  EventLoop.BackgroundStart job2] env))) = Some uuid1 /\
    _jobs
      (service
         (snd (EventLoop.schedule
                 [EventLoop.PostStart uuid1 now1 request1;
                  EventLoop.PostStart uuid2 now2 request2;
                  EventLoop.BackgroundStart job1;
                  EventLoop.BackgroundStart job2] env))) !! uuid2 = Some job2 /\
    status job2 = QUEUED.
Proof.
  intros Hslot. destruct env as [[p jobs slot cbs] w c tr].
  cbn in Hslot. subst slot.
  eexists _, _, _, _, _, _.
  split; [reflexivity|]. split; [reflexivity|].
  split; [reflexivity|]. split; [reflexivity|].
  split; [reflexivity|]. split; [reflexivity|].
  split; [reflexivity|]. split; [reflexivity|].
  split; [cbn; apply lookup_insert_eq | reflexivity].
Qed.

Lemma second_request_is_accepted_before_the_first_task_starts_witness :
  fst (EventLoop.schedule racing_requests idle)
  = [EventLoop.Started
       {| Router.resp_job_id := "job-1"; Router.resp_status := "queued";
          Router.resp_message :=
            "Generation started. Use /progress/{job_id} to track progress." |};
     EventLoop.Started
       {| Router.resp_job_id := "job-2"; Router.resp_status := "queued";
          Router.resp_message :=
            "Generation started. Use /progress/{job_id} to track progress." |};
     EventLoop.Acquired "job-1";
     EventLoop.AcquireRaised
       (RuntimeError "A generation is already in progress")] /\
  _current_job (service (snd (EventLoop.schedule racing_requests idle)))
    = Some "job-1" /\
  (status <$> _jobs (service (snd (EventLoop.schedule racing_requests idle)))
                !! "job-2") = Some QUEUED.
Proof.
  destruct (second_request_is_accepted_before_the_first_task_starts
              "job-1" "job-2" 0%nat 1%nat sample_request sample_request idle
              eq_refl)
    as (job1 & job2 & response1 & response2 & st1 & st2 & H1 & H2 & _ & _ & _ & _
        & Hos & Hslot & Hjob & Hstatus).
  injection H1 as <- <- <-. injection H2 as <- <- <-.
  split; [exact Hos|]. split; [exact Hslot|].
  unfold racing_requests. etransitivity; [exact (f_equal (fmap status) Hjob)|].
  reflexivity.
Defined.

(** ** The claims on the sample inputs *)


Lemma result_fields_follow_status_witness :
  exists jT,
    _jobs (service (fst sample_run)) !! "job-1" = Some jT /\ one_result jT.
Proof.
  set (env := fst sample_run).
  assert (Hreg : registered sample_service sample_job) by reflexivity.
  assert (Hfresh : untouched sample_job) by (repeat split; reflexivity).
  assert (Hjob : exists jT, _jobs (service env) !! job_id sample_job = Some jT
                            /\ is_terminal (status jT) = true).
  { eexists. split; [vm_compute; reflexivity | reflexivity]. }
  destruct Hjob as (jT & Hlookup & Hterm).
  exists jT. split; [exact Hlookup|].
  exact (proj1 (result_fields_follow_status (engine_eos_at 3) sample_service
                  sample_job tt 1%nat Hreg Hfresh jT (or_intror Hlookup))
           Hterm).
Defined.

Lemma progress_starts_at_0_never_decreases_ends_at_1_witness :
  exists jT,
    _jobs (service (fst sample_run)) !! "job-1" = Some jT /\
    progress jT = 1%Q.
Proof.
  set (env := fst sample_run).
  assert (Hreg : registered sample_service sample_job) by reflexivity.
  assert (Hfresh : untouched sample_job) by (repeat split; reflexivity).
  assert (Hjob : exists jT, _jobs (service env) !! job_id sample_job = Some jT
                            /\ status jT = COMPLETED).
  { eexists. split; [vm_compute; reflexivity | reflexivity]. }
  destruct Hjob as (jT & Hlookup & Hdone).
  exists jT. split; [exact Hlookup|].
  destruct (progress_starts_at_0_never_decreases_ends_at_1 (engine_eos_at 3)
              sample_service sample_job tt 1%nat Hreg Hfresh)
    as (_ & _ & Hone).
  exact (Hone jT (or_intror Hlookup) Hdone).
Defined.

(** ** Between two field writes *)

Lemma bind_assoc_at {World A B C} (m : M World A) (f : A -> M World B)
  (g : B -> M World C) env :
  bind (bind m f) g env = bind m (fun x => bind (f x) g) env.
Proof. unfold bind. destruct (m env) as [env1 [a|e]]; reflexivity. Qed.

Lemma bind_ext_at {World A B} (m : M World A) (f g : A -> M World B) env :
  (forall a env1, f a env1 = g a env1) -> bind m f env = bind m g env.
Proof.
  intros H. unfold bind. destruct (m env) as [env1 [a|e]]; [apply H | reflexivity].
Qed.

Lemma bind_inv_normal {World A B} (m : M World A) (k : A -> M World B)
  env env2 b :
  bind m k env = (env2, Normal b) ->
  exists env1 a, m env = (env1, Normal a) /\ k a env1 = (env2, Normal b).
Proof.
  unfold bind. destruct (m env) as [env1 [a|e]]; [eauto | discriminate].
Qed.

Lemma try_bind_normal {World A B} (m : M World A) (k : A -> M World B)
  handler env env1 a :
  m env = (env1, Normal a) ->
  try_except (bind m k) handler env = try_except (k a) handler env1.
Proof. intros H. unfold try_except, bind. now rewrite H. Qed.

Lemma try_except_at {World A} (m m' : M World A) handler env :
  m env = m' env -> try_except m handler env = try_except m' handler env.
Proof. intros H. unfold try_except. now rewrite H. Qed.

Lemma bind_at {World A B} (m m' : M World A) (k : A -> M World B) env env' :
  m env = m' env' -> bind m k env = bind m' k env'.
Proof. intros H. unfold bind. now rewrite H. Qed.

Lemma generate_try_cut {World} eng job (env : Env World) :
  generate_try eng job env =
  (generate_try_saved eng job ;; write_status job COMPLETED ;;
   generate_try_finish job) env.
Proof.
  unfold generate_try, generate_try_saved, generate_try_finish. cbv zeta.
  symmetry.
  do 4 (rewrite bind_assoc_at; apply bind_ext_at; intros ? ?).
  reflexivity.
Qed.

Lemma executor_cut {World} eng job (env : Env World) :
  _generate_with_progress eng job env =
  (generate_head eng job ;;
   try_except (generate_try eng job) (generate_except job) ;;
   generate_tail job) env.
Proof.
  unfold _generate_with_progress, generate_head, generate_tail.
  symmetry.
  do 6 (rewrite bind_assoc_at; apply bind_ext_at; intros ? ?).
  reflexivity.
Qed.

Lemma executor_resumes_from_saved {World} eng job
  (st : PipelineService World) w now :
  snd (run (executor_until_saved eng job) st w now) = Normal tt ->
  run (_generate_with_progress eng job) st w now =
  executor_from_saved job (fst (run (executor_until_saved eng job) st w now)).
Proof.
  unfold run.
  destruct (executor_until_saved eng job _) as [env1 r] eqn:Hcut.
  cbn [fst snd]. intros ->.
  unfold executor_until_saved, executor_from_saved in *.
  apply bind_inv_normal in Hcut as (env0 & [] & Hhead & Hsaved).
  rewrite executor_cut. erewrite bind_normal by exact Hhead.
  apply bind_at.
  rewrite (try_except_at _ _ _ _ (generate_try_cut eng job env0)).
  now rewrite (try_bind_normal _ _ _ _ _ _ Hsaved).
Qed.

Lemma executor_resumes_from_marked {World} eng job
  (st : PipelineService World) w now :
  snd (run (executor_until_marked eng job) st w now) = Normal tt ->
  run (_generate_with_progress eng job) st w now =
  executor_from_marked job (fst (run (executor_until_marked eng job) st w now)).
Proof.
  unfold run.
  destruct (executor_until_marked eng job _) as [env1 r] eqn:Hcut.
  cbn [fst snd]. intros ->.
  unfold executor_until_marked, executor_from_marked in *.
  apply bind_inv_normal in Hcut as (env0 & [] & Hhead & Hcut).
  apply bind_inv_normal in Hcut as (env2 & [] & Hsaved & Hmarked).
  rewrite executor_cut. erewrite bind_normal by exact Hhead.
  apply bind_at.
  rewrite (try_except_at _ _ _ _ (generate_try_cut eng job env0)).
  rewrite (try_bind_normal _ _ _ _ _ _ Hsaved).
  now rewrite (try_bind_normal _ _ _ _ _ _ Hmarked).
Qed.

(** C5, as it is stated, fails.  The sample run passes through a state in
    which the job is still GENERATING and [output_path] is set:
    [job.output_path] is written before [job.status].  And a run whose
    exception has no message leaves the job FAILED with [error] the empty
    string and no [output_path]: neither field is non-empty. *)
Lemma result_field_set_before_terminal_and_empty_after :
  (snd sample_saved = Normal tt /\
   sample_run = executor_from_saved sample_job (fst sample_saved) /\
   (status <$> _jobs (service (fst sample_saved)) !! "job-1") = Some GENERATING /\
   (output_path <$> _jobs (service (fst sample_saved)) !! "job-1")
     = Some (Some "/output/job-1.mp3") /\
   (error <$> _jobs (service (fst sample_saved)) !! "job-1") = Some None) /\
  (snd sample_run_without_message = Normal tt /\
   (status <$> _jobs (service (fst sample_run_without_message)) !! "job-1")
     = Some FAILED /\
   (error <$> _jobs (service (fst sample_run_without_message)) !! "job-1")
     = Some (Some "") /\
   (output_path <$> _jobs (service (fst sample_run_without_message)) !! "job-1")
     = Some None).
Proof.
  split.
  - split; [vm_compute; reflexivity|]. split.
    + unfold sample_run, sample_saved.
      apply executor_resumes_from_saved. vm_compute. reflexivity.
    + repeat split; vm_compute; reflexivity.
  - repeat split; vm_compute; reflexivity.
Qed.

(** C6, as it is stated, fails.  The sample run passes through a state in
    which the job is COMPLETED and [progress] is 3/1000:
    [job.status = JobStatus.COMPLETED] is written before
    [job.progress = 1.0]. *)
Lemma completed_before_progress_is_1 :
  snd sample_marked = Normal tt /\
  sample_run = executor_from_marked sample_job (fst sample_marked) /\
  (status <$> _jobs (service (fst sample_marked)) !! "job-1") = Some COMPLETED /\
  (progress <$> _jobs (service (fst sample_marked)) !! "job-1")
    = Some (inject_Z 3 / inject_Z 1000)%Q /\
  ~ (inject_Z 3 / inject_Z 1000 == 1)%Q.
Proof.
  split; [vm_compute; reflexivity|]. split.
  - unfold sample_run, sample_marked.
    apply executor_resumes_from_marked. vm_compute. reflexivity.
  - split; [vm_compute; reflexivity|]. split; [vm_compute; reflexivity|].
    intros H. vm_compute in H. discriminate H.
Qed.

(** * Further properties *)

(** ** A run as a function of the engine, with an invariant of its trace *)

Lemma generate_except_at_work_any {World} (st0 : PipelineService World) l s job j w c tr e :
  job_id j = job_id job ->
  generate_except job e (at_work st0 l s j w c tr) =
  (at_work st0 l s (failed_job c (str e) j) w (S c) (tr ++ [EvStatus FAILED]),
   Normal tt).
Proof.
  intros Hj. unfold generate_except.
  erewrite bind_normal by (apply write_status_at_work; exact Hj).
  erewrite bind_normal
    by (apply update_job_at_work; [exact Hj | reflexivity]).
  erewrite bind_normal by apply datetime_now_at_work.
  erewrite update_job_at_work; [reflexivity | exact Hj | reflexivity].
Qed.

Section ExecutorInvariant.

Context {World : Type}.
Variable eng : Engine.
Variable st0 : PipelineService World.
Variable job : GenerationJob.

(** A property of the jobs notified so far, of the world of the callbacks
    and of the trace, that every step of the executor keeps. *)
Variable P : list GenerationJob -> World -> list Event -> Prop.

Hypothesis P_status : forall js w tr s, P js w tr -> P js w (tr ++ [EvStatus s]).
Hypothesis P_release : forall js w tr, P js w tr -> P js w (tr ++ [EvRelease]).
Hypothesis P_notify :
  forall js w tr j,
    job_id j = job_id job ->
    P js w tr ->
    P (js ++ [j])
      (callbacks_world (callbacks_of st0 (job_id job)) j w)
      (tr ++ EvNotify j :: callbacks_events 0 (callbacks_of st0 (job_id job)) j w).

Lemma frame_loop_inv l s N :
  forall n i j js w c tr,
    job_id j = job_id job ->
    P js w tr ->
    exists w' tr',
      frame_loop eng job N n i (at_work st0 l s j w c tr) =
        (at_work st0 l s (after_frames N j i (loop_frames eng n i)) w' c tr',
         loop_outcome eng n i) /\
      P (js ++ frame_jobs N j i (loop_frames eng n i)) w' tr'.
Proof.
  induction n as [|n IH]; intros i j js w c tr Hj HP.
  - exists w, tr. cbn. rewrite app_nil_r. split; [reflexivity | exact HP].
  - cbn [frame_loop loop_frames loop_outcome].
    destruct (generate_frame eng i) as [| |msg].
    + replace (Z.of_nat i + 1) with (Z.of_nat (S i)) by lia.
      erewrite bind_normal
        by (apply update_job_at_work; [exact Hj | reflexivity]).
      erewrite bind_normal
        by (apply update_job_at_work; [exact Hj | reflexivity]).
      erewrite bind_normal by (apply notify_at_work'; exact Hj).
      set (j1 := set_progress _ (set_current_frame _ j)).
      destruct (IH (S i) j1 (js ++ [j1]) _ c _ Hj (P_notify js w tr j1 Hj HP))
        as (w' & tr' & Hrun & HP').
      exists w', tr'. split.
      * rewrite Hrun. f_equal. f_equal.
        destruct (loop_frames eng n (S i)) as [|k]; cbn [after_frames].
        -- rewrite Nat.add_1_r. reflexivity.
        -- replace (i + S (S k))%nat with (S i + S k)%nat by lia. reflexivity.
      * rewrite <- app_assoc in HP'. exact HP'.
    + exists w, tr. cbn. rewrite app_nil_r. split; [reflexivity | exact HP].
    + exists w, tr. cbn. rewrite app_nil_r. split; [reflexivity | exact HP].
Qed.

Lemma generate_try_inv l s j2 js w c tr :
  job_id j2 = job_id job ->
  P js w tr ->
  exists w' tr',
    P (js ++ attempt_notified eng job j2) w' tr' /\
    generate_try eng job (at_work st0 l s j2 w c tr) =
    match attempt_outcome eng job with
    | Normal _ =>
        (at_work st0 l s (completed_job c (attempt_job eng job j2)) w' (S c) tr',
         Normal tt)
    | Raised e =>
        (at_work st0 l s (attempt_job eng job j2) w' c tr', Raised e)
    end.
Proof.
  intros Hj HP.
  unfold generate_try, attempt_outcome, attempt_job, attempt_notified.
  destruct (preprocess eng) as [|msg].
  - erewrite bind_normal by reflexivity.
    erewrite bind_normal
      by (apply update_job_at_work; [exact Hj | reflexivity]).
    set (j3 := set_total_frames (max_audio_length_ms job / 80) j2).
    unfold _forward_with_progress. fold (loop_bound eng job).
    destruct (first_frame eng) as [|msg].
    + destruct (frame_loop_inv l s (loop_bound eng job)
                  (Z.to_nat (loop_bound eng job)) 0%nat j3 js w c tr Hj HP)
        as (w' & tr' & Hrun & HP').
      set (jw := after_frames (loop_bound eng job) j3 0
                   (loop_frames eng (Z.to_nat (loop_bound eng job)) 0)) in *.
      assert (Hjw : job_id jw = job_id job).
      { unfold jw. rewrite job_id_after_frames. exact Hj. }
      destruct (loop_outcome eng (Z.to_nat (loop_bound eng job)) 0)
        as [[]|e] eqn:Hout.
      * destruct (detokenize eng) as [|msg].
        -- destruct (torchaudio_save eng) as [|msg].
           ++ exists w', (tr' ++ [EvStatus COMPLETED]).
              split; [apply P_status; exact HP'|].
              erewrite bind_normal.
              2:{ erewrite bind_normal by reflexivity.
                  erewrite bind_normal by exact Hrun. reflexivity. }
              erewrite bind_normal by reflexivity.
              erewrite bind_normal
                by (apply update_job_at_work; [exact Hjw | reflexivity]).
              erewrite bind_normal by (apply write_status_at_work; exact Hjw).
              erewrite bind_normal
                by (apply update_job_at_work; [exact Hjw | reflexivity]).
              erewrite bind_normal by apply datetime_now_at_work.
              erewrite update_job_at_work; [| exact Hjw | reflexivity].
              unfold completed_job. rewrite Hjw. reflexivity.
           ++ exists w', tr'. split; [exact HP'|].
              erewrite bind_normal.
              2:{ erewrite bind_normal by reflexivity.
                  erewrite bind_normal by exact Hrun. reflexivity. }
              erewrite bind_raised by reflexivity. reflexivity.
        -- exists w', tr'. split; [exact HP'|].
           erewrite bind_raised; [reflexivity|].
           erewrite bind_normal by reflexivity.
           erewrite bind_normal by exact Hrun. reflexivity.
      * exists w', tr'. split; [exact HP'|].
        erewrite bind_raised; [reflexivity|].
        erewrite bind_normal by reflexivity.
        erewrite bind_raised by exact Hrun. reflexivity.
    + exists w, tr. rewrite app_nil_r. split; [exact HP|].
      erewrite bind_raised; [reflexivity|].
      erewrite bind_raised by reflexivity. reflexivity.
  - exists w, tr. rewrite app_nil_r. split; [exact HP|].
    erewrite bind_raised by reflexivity. reflexivity.
Qed.

Lemma try_statement_inv l s j2 js w c tr :
  job_id j2 = job_id job ->
  P js w tr ->
  exists w' tr',
    P (js ++ attempt_notified eng job j2) w' tr' /\
    try_except (generate_try eng job) (generate_except job)
      (at_work st0 l s j2 w c tr) =
    (at_work st0 l s
       match attempt_outcome eng job with
       | Normal _ => completed_job c (attempt_job eng job j2)
       | Raised e => failed_job c (str e) (attempt_job eng job j2)
       end w' (S c) tr',
     Normal tt).
Proof.
  intros Hj HP.
  destruct (generate_try_inv l s j2 js w c tr Hj HP)
    as (w' & tr' & HP' & Hrun).
  assert (Hja : job_id (attempt_job eng job j2) = job_id job).
  { unfold attempt_job. destruct (preprocess eng); [|exact Hj].
    destruct (first_frame eng); [|exact Hj].
    rewrite job_id_after_frames. exact Hj. }
  destruct (attempt_outcome eng job) as [[]|e].
  - exists w', tr'. split; [exact HP'|].
    erewrite try_normal by exact Hrun. reflexivity.
  - exists w', (tr' ++ [EvStatus FAILED]). split; [apply P_status, HP'|].
    erewrite try_raised by exact Hrun.
    apply generate_except_at_work_any. exact Hja.
Qed.

Lemma job_id_finished_job c : job_id (finished_job eng c job) = job_id job.
Proof.
  unfold finished_job, attempt_job.
  destruct (attempt_outcome eng job); cbn;
    (destruct (preprocess eng); [|reflexivity]);
    (destruct (first_frame eng); [|reflexivity]);
    now rewrite job_id_after_frames.
Qed.

(** The executor on a registered job: either loading the model raises and
    the job is left LOADING, or the run returns and leaves [finished_job]
    with the slot cleared; the jobs it has notified are [run_notified]. *)
Lemma executor_inv js w c tr :
  registered st0 job ->
  P js w tr ->
  exists w' tr',
    (exists msg,
        _pipeline st0 = false /\ from_pretrained eng = Raises msg /\
        P (js ++ [loading_job c job]) w' tr' /\
        _generate_with_progress eng job
          {| service := st0; world := w; clock := c; trace := tr |} =
        (at_work st0 false (_current_job st0) (loading_job c job) w' (S c) tr',
         Raised (Exception msg)))
    \/
    ((_pipeline st0 = true \/ from_pretrained eng = Returns) /\
     P (js ++ run_notified eng c job) w' tr' /\
     _generate_with_progress eng job
       {| service := st0; world := w; clock := c; trace := tr |} =
     (at_work st0 true None (finished_job eng c job) w' (S (S c)) tr',
      Normal tt)).
Proof.
  intros Hreg HP.
  rewrite (registered_at_work st0 job w c tr Hreg).
  unfold _generate_with_progress.
  erewrite bind_normal by (apply write_status_at_work; reflexivity).
  erewrite bind_normal by apply datetime_now_at_work.
  erewrite bind_normal
    by (apply update_job_at_work; [reflexivity | reflexivity]).
  erewrite bind_normal by (apply notify_at_work'; reflexivity).
  fold (loading_job c job).
  pose proof (P_notify js w (tr ++ [EvStatus LOADING]) (loading_job c job)
                eq_refl (P_status js w tr LOADING HP)) as HP1.
  set (w1 := callbacks_world _ _ w) in *.
  set (tr1 := (tr ++ [EvStatus LOADING]) ++ _) in *.
  assert (Hgo :
    exists w' tr',
      P (js ++ run_notified eng c job) w' tr' /\
      (write_status job GENERATING ;;
       _notify_progress (job_id job) ;;
       try_except (generate_try eng job) (generate_except job) ;;
       _notify_progress (job_id job) ;;
       modify_service (with_current_job None) ;;
       log EvRelease)
        (at_work st0 true (_current_job st0) (loading_job c job) w1 (S c) tr1) =
      (at_work st0 true None (finished_job eng c job) w' (S (S c)) tr',
       Normal tt)).
  { erewrite bind_normal by (apply write_status_at_work; reflexivity).
    erewrite bind_normal by (apply notify_at_work'; reflexivity).
    fold (generating_job c job).
    pose proof (P_notify _ w1 (tr1 ++ [EvStatus GENERATING])
                  (generating_job c job) eq_refl
                  (P_status _ w1 tr1 GENERATING HP1)) as HP2.
    destruct (try_statement_inv true (_current_job st0) (generating_job c job)
                _ _ (S c) _ eq_refl HP2) as (w3 & tr3 & HP3 & Hrun).
    fold (finished_job eng c job) in Hrun.
    erewrite bind_normal by exact Hrun.
    erewrite bind_normal
      by (apply notify_at_work'; apply job_id_finished_job).
    pose proof (P_notify _ w3 tr3 (finished_job eng c job)
                  (job_id_finished_job c) HP3) as HP4.
    eexists _, _. split; [|reflexivity].
    apply P_release.
    unfold run_notified.
    replace (js ++ loading_job c job :: generating_job c job ::
               attempt_notified eng job (generating_job c job) ++
               [finished_job eng c job])
      with ((((js ++ [loading_job c job]) ++ [generating_job c job]) ++
               attempt_notified eng job (generating_job c job)) ++
              [finished_job eng c job])
      by (rewrite <- !app_assoc; reflexivity).
    exact HP4. }
  destruct (_pipeline st0) eqn:Hl.
  - destruct Hgo as (w' & tr' & HP' & Hrun). exists w', tr'.
    right. split; [now left|]. split; [exact HP'|].
    erewrite bind_normal by (rewrite load_pipeline_at_work; reflexivity).
    exact Hrun.
  - destruct (from_pretrained eng) as [|msg] eqn:Hload.
    + destruct Hgo as (w' & tr' & HP' & Hrun). exists w', tr'.
      right. split; [now right|]. split; [exact HP'|].
      erewrite bind_normal
        by (rewrite load_pipeline_at_work, Hload; reflexivity).
      exact Hrun.
    + exists w1, tr1. left. exists msg.
      split; [reflexivity|]. split; [reflexivity|]. split; [exact HP1|].
      erewrite bind_raised
        by (rewrite load_pipeline_at_work, Hload; reflexivity).
      reflexivity.
Qed.

End ExecutorInvariant.

(** ** The registry and the callbacks *)

(** X1.  [create_job] followed by [get_job] on the new id finds the new job:
    it is stored under its own [job_id], QUEUED, with progress 0, no frame
    counted, nothing in [output_path] and [error], and the parameters it
    was given.  [get_job] on every other id answers as before, and the
    slot, the callbacks and the pipeline are not touched. *)
Theorem create_job_then_get_job {World} (uuid : string) (now : nat)
  (lyrics0 tags0 : string) (temperature0 : Q) (topk0 : Z) (cfg_scale0 : Q)
  (ms : Z) (st : PipelineService World) :
  get_job (snd (create_job uuid now lyrics0 tags0 temperature0 topk0 cfg_scale0 ms st)) uuid
    = Some (fst (create_job uuid now lyrics0 tags0 temperature0 topk0 cfg_scale0 ms st)) /\
  registered (snd (create_job uuid now lyrics0 tags0 temperature0 topk0 cfg_scale0 ms st))
    (fst (create_job uuid now lyrics0 tags0 temperature0 topk0 cfg_scale0 ms st)) /\
  untouched (fst (create_job uuid now lyrics0 tags0 temperature0 topk0 cfg_scale0 ms st)) /\
  fst (create_job uuid now lyrics0 tags0 temperature0 topk0 cfg_scale0 ms st) =
    {| job_id := uuid; lyrics := lyrics0; tags := tags0;
       temperature := temperature0; topk := topk0; cfg_scale := cfg_scale0;
       max_audio_length_ms := ms; status := QUEUED; progress := 0%Q;
       current_frame := 0; total_frames := 0; output_path := None;
       error := None; created_at := now; started_at := None;
       completed_at := None |} /\
  (forall other, other <> uuid ->
     get_job (snd (create_job uuid now lyrics0 tags0 temperature0 topk0 cfg_scale0 ms st)) other
       = get_job st other) /\
  _current_job (snd (create_job uuid now lyrics0 tags0 temperature0 topk0 cfg_scale0 ms st))
    = _current_job st /\
  _progress_callbacks (snd (create_job uuid now lyrics0 tags0 temperature0 topk0 cfg_scale0 ms st))
    = _progress_callbacks st /\
  _pipeline (snd (create_job uuid now lyrics0 tags0 temperature0 topk0 cfg_scale0 ms st))
    = _pipeline st.
Proof.
  unfold create_job, get_job, registered, untouched. cbn.
  rewrite lookup_insert_eq.
  repeat split; try reflexivity.
  intros other Hne. now rewrite lookup_insert_ne.
Qed.

Lemma callbacks_world_app {World} (l1 l2 : list (Callback World)) job :
  forall w,
    callbacks_world (l1 ++ l2) job w =
    callbacks_world l2 job (callbacks_world l1 job w).
Proof. induction l1 as [|cb l1 IH]; intros w; cbn; [reflexivity | apply IH]. Qed.

Lemma callbacks_events_app {World} (l1 l2 : list (Callback World)) job :
  forall i w,
    callbacks_events i (l1 ++ l2) job w =
    callbacks_events i l1 job w ++
    callbacks_events (i + length l1) l2 job (callbacks_world l1 job w).
Proof.
  induction l1 as [|cb l1 IH]; intros i w; cbn.
  - now rewrite Nat.add_0_r.
  - rewrite IH. do 3 f_equal. lia.
Qed.

Lemma callbacks_of_register {World} (st : PipelineService World) id callback :
  callbacks_of (register_progress_callback id callback st) id =
  callbacks_of st id ++ [callback].
Proof.
  unfold callbacks_of, register_progress_callback. cbn.
  rewrite lookup_insert_eq. cbn.
  now destruct (_progress_callbacks st !! id).
Qed.

Lemma run_notify_registered {World} (st : PipelineService World) job w now :
  registered st job ->
  run (_notify_progress (job_id job)) st w now =
  ({| service := st;
      world := callbacks_world (callbacks_of st (job_id job)) job w;
      clock := now;
      trace := EvNotify job ::
               callbacks_events 0 (callbacks_of st (job_id job)) job w |},
   Normal tt).
Proof.
  intros Hreg. unfold run.
  rewrite (registered_at_work st job w now [] Hreg), notify_at_work.
  unfold at_work. cbn. unfold registered in Hreg.
  rewrite (insert_id _ _ _ Hreg). now destruct st.
Qed.

(** X2.  [register_progress_callback] appends: the job gets one subscriber
    more, the callbacks of other job ids stay as they are, and the next
    [_notify_progress] calls the callbacks registered before, in their
    order, and then the new one, which sees what those left behind. *)
Theorem registered_callback_is_called_last {World}
  (st : PipelineService World) (job : GenerationJob)
  (callback : Callback World) (w : World) (now : nat) :
  registered st job ->
  callbacks_of (register_progress_callback (job_id job) callback st) (job_id job)
    = callbacks_of st (job_id job) ++ [callback] /\
  subscribers (register_progress_callback (job_id job) callback st) (job_id job)
    = S (subscribers st (job_id job)) /\
  (forall other, other <> job_id job ->
     _progress_callbacks (register_progress_callback (job_id job) callback st)
       !! other = _progress_callbacks st !! other) /\
  snd (run (_notify_progress (job_id job))
         (register_progress_callback (job_id job) callback st) w now)
    = Normal tt /\
  world (fst (run (_notify_progress (job_id job))
                (register_progress_callback (job_id job) callback st) w now))
    = fst (callback job (callbacks_world (callbacks_of st (job_id job)) job w)) /\
  trace (fst (run (_notify_progress (job_id job))
                (register_progress_callback (job_id job) callback st) w now))
    = EvNotify job ::
      callbacks_events 0 (callbacks_of st (job_id job)) job w ++
      [EvCallback (length (callbacks_of st (job_id job))) job
         (has_raised
            (snd (callback job
                    (callbacks_world (callbacks_of st (job_id job)) job w))))].
Proof.
  intros Hreg.
  assert (Hreg' : registered
                    (register_progress_callback (job_id job) callback st) job)
    by exact Hreg.
  rewrite (run_notify_registered _ job w now Hreg').
  rewrite !subscribers_callbacks_of, !callbacks_of_register.
  rewrite callbacks_world_app, callbacks_events_app, length_app. cbn.
  split; [reflexivity|]. split; [lia|]. split.
  - intros other Hne. unfold register_progress_callback. cbn.
    now rewrite lookup_insert_ne.
  - repeat split.
Qed.

Lemma registered_callback_is_called_last_witness :
  trace (fst (run (_notify_progress "job-1")
                (register_progress_callback "job-1" raising_callback
                   sample_service) tt 1))
  = [EvNotify sample_job; EvCallback 0 sample_job true;
     EvCallback 1 sample_job false; EvCallback 2 sample_job true].
Proof.
  destruct (registered_callback_is_called_last sample_service sample_job
              raising_callback tt 1%nat eq_refl)
    as (_ & _ & _ & _ & _ & Htrace).
  exact Htrace.
Defined.

(** X3.  After [unregister_progress_callbacks] for a job id,
    [_notify_progress] for that id calls no callback at all: it returns,
    and the world of the callbacks is as before.  Unregistering an id that
    has no callbacks is not an error and changes nothing, so unregistering
    twice is unregistering once. *)
Theorem unregistered_job_is_notified_to_nobody {World}
  (st : PipelineService World) (job : GenerationJob) (w : World) (now : nat) :
  registered st job ->
  run (_notify_progress (job_id job))
    (unregister_progress_callbacks (job_id job) st) w now
  = ({| service := unregister_progress_callbacks (job_id job) st;
        world := w; clock := now; trace := [EvNotify job] |}, Normal tt) /\
  (_progress_callbacks st !! job_id job = None ->
   unregister_progress_callbacks (job_id job) st = st) /\
  unregister_progress_callbacks (job_id job)
    (unregister_progress_callbacks (job_id job) st)
  = unregister_progress_callbacks (job_id job) st.
Proof.
  intros Hreg. split; [|split].
  - assert (Hreg' : registered
                      (unregister_progress_callbacks (job_id job) st) job)
      by exact Hreg.
    rewrite (run_notify_registered _ job w now Hreg').
    unfold callbacks_of, unregister_progress_callbacks. cbn.
    rewrite lookup_delete_eq. reflexivity.
  - intros Hnone. unfold unregister_progress_callbacks.
    rewrite (delete_id _ _ Hnone). now destruct st.
  - unfold unregister_progress_callbacks, with_progress_callbacks. cbn.
    now rewrite delete_delete_eq.
Qed.

Lemma unregistered_job_is_notified_to_nobody_witness :
  trace (fst (run (_notify_progress "job-1")
                (unregister_progress_callbacks "job-1" sample_service) tt 1))
  = [EvNotify sample_job].
Proof.
  destruct (unregistered_job_is_notified_to_nobody sample_service sample_job
              tt 1%nat eq_refl) as (Hrun & _ & _).
  change (job_id sample_job) with "job-1" in Hrun.
  rewrite Hrun. reflexivity.
Defined.

(** X4.  [_notify_progress] for an id that is not in the registry returns
    without calling anything, even if callbacks are registered under that
    id: service, world, clock and trace are as before. *)
Theorem notify_of_unknown_job_does_nothing {World} (env : Env World)
  (id : string) :
  _jobs (service env) !! id = None ->
  _notify_progress id env = (env, Normal tt).
Proof.
  intros Hnone. unfold _notify_progress, bind, get_service.
  now rewrite Hnone.
Qed.

Lemma notify_of_unknown_job_does_nothing_witness :
  run (_notify_progress "job-9")
    (register_progress_callback "job-9" raising_callback sample_service) tt 1
  = ({| service :=
          register_progress_callback "job-9" raising_callback sample_service;
        world := tt; clock := 1%nat; trace := [] |}, Normal tt).
Proof.
  unfold run.
  apply (notify_of_unknown_job_does_nothing
           {| service :=
                register_progress_callback "job-9" raising_callback
                  sample_service;
              world := tt; clock := 1%nat; trace := [] |} "job-9").
  reflexivity.
Defined.

(** X5.  [load_pipeline] loads once.  When it returns, the pipeline is
    loaded and a further call returns at once without asking the engine
    again, whatever that engine would do; when it raises, the exception is
    the one of [from_pretrained], nothing has changed and the pipeline is
    still not loaded, so the next call tries again.  It never touches the
    registry, the slot or the callbacks. *)
Theorem load_pipeline_loads_once {World} (eng eng' : Engine) (env : Env World) :
  (snd (load_pipeline eng env) = Normal tt ->
   _pipeline (service (fst (load_pipeline eng env))) = true /\
   load_pipeline eng' (fst (load_pipeline eng env)) =
     (fst (load_pipeline eng env), Normal tt)) /\
  (forall e,
      snd (load_pipeline eng env) = Raised e ->
      fst (load_pipeline eng env) = env /\
      _pipeline (service env) = false /\
      exists msg, from_pretrained eng = Raises msg /\ e = Exception msg) /\
  _jobs (service (fst (load_pipeline eng env))) = _jobs (service env) /\
  _current_job (service (fst (load_pipeline eng env))) = _current_job (service env) /\
  _progress_callbacks (service (fst (load_pipeline eng env)))
    = _progress_callbacks (service env).
Proof.
  unfold load_pipeline, bind, get_service.
  destruct (_pipeline (service env)) eqn:Hl.
  - cbn. rewrite Hl. cbn. split; [auto|]. split; [discriminate|auto].
  - destruct (from_pretrained eng) as [|msg]; cbn.
    + split; [auto|]. split; [discriminate|auto].
    + split; [discriminate|]. split; [|auto].
      intros e [= <-]. split; [reflexivity|]. split; [reflexivity|]. eauto.
Qed.

Lemma load_pipeline_loads_once_witness :
  load_pipeline engine_without_checkpoint
    (fst (load_pipeline (engine_eos_at 3) idle))
  = (fst (load_pipeline (engine_eos_at 3) idle), Normal tt).
Proof.
  exact (proj2 (proj1 (load_pipeline_loads_once (engine_eos_at 3)
                         engine_without_checkpoint idle) eq_refl)).
Defined.

(** ** What a run notifies and leaves *)

Lemma notified_app tr1 tr2 : notified (tr1 ++ tr2) = notified tr1 ++ notified tr2.
Proof. apply omap_app. Qed.

Lemma delivered_to_app i tr1 tr2 :
  delivered_to i (tr1 ++ tr2) = delivered_to i tr1 ++ delivered_to i tr2.
Proof. apply omap_app. Qed.

Lemma notified_callbacks_events {World} (callbacks : list (Callback World)) :
  forall k j w, notified (callbacks_events k callbacks j w) = [].
Proof.
  induction callbacks as [|cb rest IH]; intros k j w; [reflexivity|].
  apply IH.
Qed.

Lemma delivered_to_callbacks_events {World} (callbacks : list (Callback World)) :
  forall k i j w,
    delivered_to i (callbacks_events k callbacks j w) =
    if decide (k <= i < k + length callbacks)%nat then [j] else [].
Proof.
  induction callbacks as [|cb rest IH]; intros k i j w.
  - cbn. destruct (decide _) as [H|H]; [exfalso; lia | reflexivity].
  - cbn [callbacks_events length].
    change (delivered_to i (?ev :: ?l)) with (delivered_to i ([ev] ++ l)).
    rewrite delivered_to_app, IH.
    unfold delivered_to at 1. cbn.
    destruct (Nat.eqb_spec k i) as [-> | Hne]; cbn;
      repeat case_decide; try reflexivity; exfalso; lia.
Qed.

Lemma fanned_out_silent ncbs js tr ev :
  snapshot_of ev = None ->
  fanned_out ncbs js tr -> fanned_out ncbs js (tr ++ [ev]).
Proof.
  intros Hev (Hn & Hd & Hs). unfold fanned_out.
  rewrite notified_app, snapshots_app.
  destruct ev; try discriminate; cbn; rewrite !app_nil_r;
    (split; [exact Hn|]; split; [|exact Hs]);
    intros i Hi; rewrite delivered_to_app; cbn; rewrite app_nil_r; auto.
Qed.

Lemma fanned_out_notify {World} (callbacks : list (Callback World)) js tr j w :
  fanned_out (length callbacks) js tr ->
  fanned_out (length callbacks) (js ++ [j])
    (tr ++ EvNotify j :: callbacks_events 0 callbacks j w).
Proof.
  intros (Hn & Hd & Hs). unfold fanned_out.
  change (EvNotify j :: callbacks_events 0 callbacks j w)
    with ([EvNotify j] ++ callbacks_events 0 callbacks j w).
  rewrite !notified_app, !snapshots_app, notified_callbacks_events,
    snapshots_callbacks_events, Hn, Hs, flat_map_app.
  split; [now rewrite app_nil_r|]. split.
  - intros i Hi. rewrite !delivered_to_app, delivered_to_callbacks_events,
      (Hd i Hi).
    destruct (decide _); [reflexivity | exfalso; lia].
  - cbn. rewrite app_nil_r. reflexivity.
Qed.

(** A run on a registered job, in full: how it ends, the service it
    leaves, the jobs it has notified and to whom. *)
Lemma executor_summary {World} eng (st : PipelineService World) job w now :
  registered st job ->
  exists w' tr',
    (exists msg,
        _pipeline st = false /\ from_pretrained eng = Raises msg /\
        fanned_out (length (callbacks_of st (job_id job)))
          [loading_job now job] tr' /\
        run (_generate_with_progress eng job) st w now =
        (at_work st false (_current_job st) (loading_job now job) w' (S now) tr',
         Raised (Exception msg)))
    \/
    ((_pipeline st = true \/ from_pretrained eng = Returns) /\
     fanned_out (length (callbacks_of st (job_id job)))
       (run_notified eng now job) tr' /\
     run (_generate_with_progress eng job) st w now =
     (at_work st true None (finished_job eng now job) w' (S (S now)) tr',
      Normal tt)).
Proof.
  intros Hreg. unfold run.
  assert (H0 : fanned_out (length (callbacks_of st (job_id job))) [] [])
    by (repeat split).
  destruct (executor_inv eng st job
              (fun js _ tr =>
                 fanned_out (length (callbacks_of st (job_id job))) js tr)
              (fun js w0 tr s H => fanned_out_silent _ js tr (EvStatus s) eq_refl H)
              (fun js w0 tr H => fanned_out_silent _ js tr EvRelease eq_refl H)
              (fun js w0 tr j _ H => fanned_out_notify _ js tr j w0 H)
              [] w now [] Hreg H0)
    as (w' & tr' & [(msg & Hl & Hfp & HP & Hrun) | (Hload & HP & Hrun)]).
  - exists w', tr'. left. exists msg. auto.
  - exists w', tr'. right. auto.
Qed.



Lemma job_id_attempted_terminated n j2 jw evs now s jT :
  attempted n j2 jw evs -> terminated now jw s jT -> job_id jT = job_id j2.
Proof.
  intros (j3 & N & k & Hj3 & _ & -> & _) Hterm.
  assert (Hid : job_id jT = job_id (after_frames N j3 0 k))
    by (destruct Hterm as [[_ ->] | (msg & _ & ->)]; reflexivity).
  rewrite Hid, job_id_after_frames.
  destruct Hj3 as [-> | [T ->]]; reflexivity.
Qed.

(** X7.  The executor writes [job.status] along
    LOADING, GENERATING, COMPLETED or FAILED and in no other way: a run that
    raises has written LOADING and nothing else; a run that returns has
    written LOADING, GENERATING and one terminal status, in this order,
    and that status is the one the job is left with.  It never writes
    QUEUED and never writes after the terminal status. *)
Theorem status_is_written_along_the_state_machine {World} (eng : Engine)
  (st : PipelineService World) (job : GenerationJob) (w : World) (now : nat) :
  registered st job ->
  (snd (run (_generate_with_progress eng job) st w now) <> Normal tt /\
   status_writes (trace (fst (run (_generate_with_progress eng job) st w now)))
     = [LOADING] /\
   (status <$> _jobs (service (fst (run (_generate_with_progress eng job) st w now)))
                 !! job_id job) = Some LOADING)
  \/
  (snd (run (_generate_with_progress eng job) st w now) = Normal tt /\
   exists sT,
     is_terminal sT = true /\
     status_writes (trace (fst (run (_generate_with_progress eng job) st w now)))
       = [LOADING; GENERATING; sT] /\
     (status <$> _jobs (service (fst (run (_generate_with_progress eng job) st w now)))
                   !! job_id job) = Some sT).
Proof.
  intros Hreg. unfold run.
  destruct (executor_run eng st job w now [] Hreg)
    as (w1 & n1 & Hn1 & [(msg & _ & _ & Hrun) | Hrun]).
  - left. rewrite Hrun. unfold at_work.
    cbn [fst snd trace service _jobs app].
    split; [discriminate|]. split.
    + change (EvStatus LOADING :: n1) with ([EvStatus LOADING] ++ n1).
      rewrite status_writes_app, (status_writes_notification _ _ _ Hn1).
      reflexivity.
    + now rewrite lookup_insert_eq.
  - right.
    destruct Hrun as (wT & n2 & evs & jw & sT & jT & nT &
                      _ & Hn2 & Hatt & Hfin & HnT & Hrun & _).
    rewrite Hrun. unfold at_work. cbn [fst snd trace service _jobs app].
    split; [reflexivity|]. exists sT.
    destruct (terminated_status _ _ _ _ Hfin) as [HsT Hterm].
    split; [exact Hterm|]. split.
    + change (EvStatus LOADING :: n1 ++ EvStatus GENERATING :: n2 ++
                evs ++ EvStatus sT :: nT ++ [EvRelease])
        with ([EvStatus LOADING] ++ n1 ++ [EvStatus GENERATING] ++ n2 ++
                evs ++ [EvStatus sT] ++ nT ++ [EvRelease]).
      rewrite !status_writes_app.
      rewrite (status_writes_notification _ _ _ Hn1),
        (status_writes_notification _ _ _ Hn2),
        (status_writes_notification _ _ _ HnT),
        (status_writes_deliveries _ (attempted_deliveries _ _ _ _ Hatt)).
      reflexivity.
    + rewrite (job_id_attempted_terminated _ _ _ _ _ _ _ Hatt Hfin).
      change (job_id (generating_job now job)) with (job_id job).
      rewrite lookup_insert_eq. cbn. now rewrite HsT.
Qed.

Lemma status_is_written_along_the_state_machine_witness :
  status_writes (trace (fst sample_run)) = [LOADING; GENERATING; COMPLETED] /\
  status_writes (trace (fst sample_run_without_checkpoint)) = [LOADING].
Proof.
  split.
  - destruct (status_is_written_along_the_state_machine (engine_eos_at 3)
                sample_service sample_job tt 1%nat eq_refl)
      as [(Hno & _) | (_ & sT & _ & Hw & Hs)].
    + exfalso. apply Hno. reflexivity.
    + unfold sample_run. rewrite Hw.
      assert (HsT : Some sT = Some COMPLETED) by (rewrite <- Hs; reflexivity).
      now injection HsT as ->.
  - destruct (status_is_written_along_the_state_machine
                engine_without_checkpoint sample_service sample_job tt 1%nat
                eq_refl)
      as [(_ & Hw & _) | (Hok & _)].
    + exact Hw.
    + discriminate Hok.
Defined.

Lemma finished_job_keeps_request eng now job :
  job_id (finished_job eng now job) = job_id job /\
  lyrics (finished_job eng now job) = lyrics job /\
  tags (finished_job eng now job) = tags job /\
  temperature (finished_job eng now job) = temperature job /\
  topk (finished_job eng now job) = topk job /\
  cfg_scale (finished_job eng now job) = cfg_scale job /\
  max_audio_length_ms (finished_job eng now job) = max_audio_length_ms job /\
  created_at (finished_job eng now job) = created_at job /\
  started_at (finished_job eng now job) = Some now.
Proof.
  unfold finished_job, attempt_job.
  destruct (attempt_outcome eng job);
    (destruct (preprocess eng); [|cbn; repeat split]);
    (destruct (first_frame eng); [|cbn; repeat split]);
    destruct (loop_frames eng _ _); cbn; repeat split.
Qed.

(** X8.  A run of the executor changes nothing but the mutable fields of
    its own job: the other entries of the registry and the callbacks are as
    before, and the job it leaves has the [job_id], the request parameters
    and the [created_at] it was given, with [started_at] stamped. *)
Theorem executor_changes_only_its_job {World} (eng : Engine)
  (st : PipelineService World) (job : GenerationJob) (w : World) (now : nat) :
  registered st job ->
  (forall other, other <> job_id job ->
     _jobs (service (fst (run (_generate_with_progress eng job) st w now))) !! other
       = _jobs st !! other) /\
  _progress_callbacks (service (fst (run (_generate_with_progress eng job) st w now)))
    = _progress_callbacks st /\
  exists j,
    _jobs (service (fst (run (_generate_with_progress eng job) st w now)))
      !! job_id job = Some j /\
    job_id j = job_id job /\ lyrics j = lyrics job /\ tags j = tags job /\
    temperature j = temperature job /\ topk j = topk job /\
    cfg_scale j = cfg_scale job /\
    max_audio_length_ms j = max_audio_length_ms job /\
    created_at j = created_at job /\
    started_at j = Some now.
Proof.
  intros Hreg.
  destruct (executor_summary eng st job w now Hreg)
    as (w' & tr' & [(msg & _ & _ & _ & Hrun) | (_ & _ & Hrun)]);
    rewrite Hrun; unfold at_work; cbn [fst service _jobs _progress_callbacks].
  - split; [intros other Hne; now rewrite lookup_insert_ne|].
    split; [reflexivity|]. eexists. split; [apply lookup_insert_eq|].
    cbn. repeat split.
  - destruct (finished_job_keeps_request eng now job) as (Hid & Hrest).
    split; [intros other Hne; rewrite lookup_insert_ne; congruence|].
    split; [reflexivity|]. eexists. rewrite Hid.
    split; [apply lookup_insert_eq|]. split; [exact Hid | exact Hrest].
Qed.

Lemma executor_changes_only_its_job_witness :
  _progress_callbacks (service (fst sample_run))
    = _progress_callbacks sample_service /\
  (max_audio_length_ms <$> _jobs (service (fst sample_run)) !! "job-1")
    = Some 80000.
Proof.
  destruct (executor_changes_only_its_job (engine_eos_at 3) sample_service
              sample_job tt 1%nat eq_refl)
    as (_ & Hcbs & j & Hj & _ & _ & _ & _ & _ & _ & Hms & _).
  split; [exact Hcbs|].
  change "job-1" with (job_id sample_job). unfold sample_run.
  rewrite Hj. cbn. now rewrite Hms.
Defined.

(** ** How the [try] block ends *)

Lemma loop_fails_at eng msg :
  forall k n i,
    (forall m, (m < k)%nat -> generate_frame eng (i + m) = Frame) ->
    generate_frame eng (i + k) = FrameError msg ->
    (k < n)%nat ->
    loop_frames eng n i = k /\
    loop_outcome eng n i = Raised (Exception msg).
Proof.
  induction k as [|k IH]; intros n i Hframes Herr Hn;
    (destruct n as [|n]; [lia|]); cbn [loop_frames loop_outcome].
  - rewrite Nat.add_0_r in Herr. now rewrite Herr.
  - assert (Hi : generate_frame eng i = Frame).
    { rewrite <- (Nat.add_0_r i). apply Hframes. lia. }
    rewrite Hi.
    destruct (IH n (S i)) as [-> ->]; [| |lia|auto].
    + intros m Hm. replace (S i + m)%nat with (i + S m)%nat by lia.
      apply Hframes. lia.
    + replace (S i + k)%nat with (i + S k)%nat by lia. exact Herr.
Qed.

Lemma loop_runs_out eng :
  forall n i,
    (forall m, (m < n)%nat -> generate_frame eng (i + m) = Frame) ->
    loop_frames eng n i = n /\ loop_outcome eng n i = Normal tt.
Proof.
  induction n as [|n IH]; intros i Hframes; cbn [loop_frames loop_outcome];
    [split; reflexivity|].
  assert (Hi : generate_frame eng i = Frame).
  { rewrite <- (Nat.add_0_r i). apply Hframes. lia. }
  rewrite Hi.
  destruct (IH (S i)) as [-> ->]; [|auto].
  intros m Hm. replace (S i + m)%nat with (i + S m)%nat by lia.
  apply Hframes. lia.
Qed.

Lemma after_frames_counts N j k :
  current_frame j = 0 ->
  current_frame (after_frames N j 0 k) = Z.of_nat k /\
  total_frames (after_frames N j 0 k) = total_frames j /\
  ((0 < k)%nat ->
   progress (after_frames N j 0 k) = (inject_Z (Z.of_nat k) / inject_Z N)%Q) /\
  (k = 0%nat -> progress (after_frames N j 0 k) = progress j).
Proof.
  intros H0. destruct k; cbn.
  - split; [exact H0|]. split; [reflexivity|]. split; [lia | reflexivity].
  - split; [reflexivity|]. split; [reflexivity|].
    split; [reflexivity | discriminate].
Qed.

Lemma length_frame_jobs N j i k : length (frame_jobs N j i k) = k.
Proof. unfold frame_jobs. now rewrite length_map, length_seq. Qed.

(** X9.  An error of the model in iteration [k] of the loop does not escape
    the executor: the run returns normally and frees the slot, and the job
    is left FAILED with the message of the error as its [error], no
    [output_path] set, [current_frame] at the [k] frames appended before
    the error and [progress] at k / max_audio_frames.  The callbacks have
    been notified 3 + k times: LOADING, GENERATING, one per frame, and the
    failure. *)
Theorem frame_error_fails_the_job_where_it_stands {World} (eng : Engine)
  (st : PipelineService World) (job : GenerationJob) (w : World) (now k : nat)
  (msg : string) :
  registered st job ->
  _pipeline st = true \/ from_pretrained eng = Returns ->
  preprocess eng = Returns ->
  first_frame eng = Returns ->
  (forall m, (m < k)%nat -> generate_frame eng m = Frame) ->
  generate_frame eng k = FrameError msg ->
  Z.of_nat k < forward_max_audio_length_ms eng (max_audio_length_ms job) / 80 ->
  current_frame job = 0 ->
  snd (run (_generate_with_progress eng job) st w now) = Normal tt /\
  _current_job (service (fst (run (_generate_with_progress eng job) st w now)))
    = None /\
  length (notified (trace (fst (run (_generate_with_progress eng job) st w now))))
    = (3 + k)%nat /\
  exists j,
    _jobs (service (fst (run (_generate_with_progress eng job) st w now)))
      !! job_id job = Some j /\
    status j = FAILED /\ error j = Some msg /\
    output_path j = output_path job /\
    current_frame j = Z.of_nat k /\
    total_frames j = max_audio_length_ms job / 80 /\
    ((0 < k)%nat ->
     progress j =
     (inject_Z (Z.of_nat k) /
      inject_Z (forward_max_audio_length_ms eng (max_audio_length_ms job) / 80))%Q) /\
    completed_at j = Some (S now).
Proof.
  intros Hreg Hload Hpre Hfirst Hframes Herr Hk H0.
  destruct (loop_fails_at eng msg k (Z.to_nat (loop_bound eng job)) 0)
    as [Hlf Hlo]; [exact Hframes | exact Herr | unfold loop_bound; lia |].
  assert (Hfin : finished_job eng now job =
                 failed_job (S now) msg
                   (after_frames (loop_bound eng job)
                      (set_total_frames (max_audio_length_ms job / 80)
                         (generating_job now job)) 0 k)).
  { unfold finished_job, attempt_outcome, attempt_job.
    rewrite Hpre, Hfirst, Hlo, Hlf. reflexivity. }
  assert (Hnot : length (run_notified eng now job) = (3 + k)%nat).
  { unfold run_notified, attempt_notified. rewrite Hpre, Hfirst, Hlf.
    cbn [length]. rewrite length_app, length_frame_jobs. cbn. lia. }
  destruct (executor_summary eng st job w now Hreg)
    as (w' & tr' & [(msg' & Hp & Hl & _ & _) | (_ & (Hn & _) & Hrun)]).
  { destruct Hload as [Hload | Hload]; congruence. }
  rewrite Hrun. unfold at_work.
  cbn [fst snd trace service _jobs _current_job].
  split; [reflexivity|]. split; [reflexivity|].
  split; [now rewrite Hn|].
  exists (finished_job eng now job).
  destruct (finished_job_keeps_request eng now job) as (Hid & _).
  split; [rewrite Hid; apply lookup_insert_eq|].
  rewrite Hfin.
  destruct (after_frames_counts (loop_bound eng job)
              (set_total_frames (max_audio_length_ms job / 80)
                 (generating_job now job)) k H0)
    as (Hcf & Htf & Hpr & _).
  destruct (after_frames_fields (loop_bound eng job)
              (set_total_frames (max_audio_length_ms job / 80)
                 (generating_job now job)) 0 k)
    as (_ & Hop & _).
  cbn. split; [reflexivity|]. split; [reflexivity|].
  split; [exact Hop|]. split; [exact Hcf|]. split; [exact Htf|].
  split; [exact Hpr | reflexivity].
Qed.

Lemma frame_error_fails_the_job_where_it_stands_witness :
  snd (run (_generate_with_progress (engine_frame_error_at 2) short_job)
         short_service tt 1) = Normal tt /\
  (error <$>
     _jobs (service (fst (run (_generate_with_progress (engine_frame_error_at 2)
                                 short_job) short_service tt 1))) !! "job-2")
    = Some (Some "CUDA out of memory") /\
  (current_frame <$>
     _jobs (service (fst (run (_generate_with_progress (engine_frame_error_at 2)
                                 short_job) short_service tt 1))) !! "job-2")
    = Some 2.
Proof.
  destruct (frame_error_fails_the_job_where_it_stands (engine_frame_error_at 2)
              short_service short_job tt 1%nat 2%nat "CUDA out of memory"
              eq_refl (or_intror eq_refl) eq_refl eq_refl)
    as (Hret & _ & _ & j & Hj & _ & Herr & _ & Hcf & _).
  - intros [|[|m]] Hm; [reflexivity | reflexivity | lia].
  - reflexivity.
  - reflexivity.
  - reflexivity.
  - split; [exact Hret|].
    change "job-2" with (job_id short_job). rewrite Hj. cbn.
    rewrite Herr, Hcf. split; reflexivity.
Defined.

(** X10.  A failure after the loop, in the decoding of the frames or in
    [torchaudio.save], fails a job whose frames were all generated, whether
    the loop ended on the end of the sequence or on the frame budget: the
    run returns normally and frees the slot, the job is FAILED with the
    message as its [error], [output_path] is not set, and [progress] is
    what the loop left, the frames appended over max_audio_frames; the
    write of 1.0 is not reached. *)
Theorem failure_after_the_loop_fails_the_job {World} (eng : Engine)
  (st : PipelineService World) (job : GenerationJob) (w : World) (now k : nat)
  (msg : string) :
  registered st job ->
  _pipeline st = true \/ from_pretrained eng = Returns ->
  preprocess eng = Returns ->
  first_frame eng = Returns ->
  (forall m, (m < k)%nat -> generate_frame eng m = Frame) ->
  (generate_frame eng k = EndOfSequence /\
   Z.of_nat k < forward_max_audio_length_ms eng (max_audio_length_ms job) / 80) \/
  k = Z.to_nat (forward_max_audio_length_ms eng (max_audio_length_ms job) / 80) ->
  detokenize eng = Raises msg \/
  (detokenize eng = Returns /\ torchaudio_save eng = Raises msg) ->
  current_frame job = 0 ->
  snd (run (_generate_with_progress eng job) st w now) = Normal tt /\
  _current_job (service (fst (run (_generate_with_progress eng job) st w now)))
    = None /\
  exists j,
    _jobs (service (fst (run (_generate_with_progress eng job) st w now)))
      !! job_id job = Some j /\
    status j = FAILED /\ error j = Some msg /\
    output_path j = output_path job /\
    current_frame j = Z.of_nat k /\
    ((0 < k)%nat ->
     progress j =
     (inject_Z (Z.of_nat k) /
      inject_Z (forward_max_audio_length_ms eng (max_audio_length_ms job) / 80))%Q) /\
    (k = 0%nat -> progress j = progress job).
Proof.
  intros Hreg Hload Hpre Hfirst Hframes Hend Hfail H0.
  assert (Hloop : loop_frames eng (Z.to_nat (loop_bound eng job)) 0 = k /\
                  loop_outcome eng (Z.to_nat (loop_bound eng job)) 0 = Normal tt).
  { destruct Hend as [[Heos Hk] | ->].
    - apply loop_stops_at; [exact Hframes | exact Heos | unfold loop_bound; lia].
    - apply loop_runs_out. exact Hframes. }
  destruct Hloop as [Hlf Hlo].
  assert (Hfin : finished_job eng now job =
                 failed_job (S now) msg
                   (after_frames (loop_bound eng job)
                      (set_total_frames (max_audio_length_ms job / 80)
                         (generating_job now job)) 0 k)).
  { unfold finished_job, attempt_outcome, attempt_job.
    rewrite Hpre, Hfirst, Hlo, Hlf.
    destruct Hfail as [-> | [-> ->]]; reflexivity. }
  destruct (executor_summary eng st job w now Hreg)
    as (w' & tr' & [(msg' & Hp & Hl & _ & _) | (_ & _ & Hrun)]).
  { destruct Hload as [Hload | Hload]; congruence. }
  rewrite Hrun. unfold at_work.
  cbn [fst snd trace service _jobs _current_job].
  split; [reflexivity|]. split; [reflexivity|].
  exists (finished_job eng now job).
  destruct (finished_job_keeps_request eng now job) as (Hid & _).
  split; [rewrite Hid; apply lookup_insert_eq|].
  rewrite Hfin.
  destruct (after_frames_counts (loop_bound eng job)
              (set_total_frames (max_audio_length_ms job / 80)
                 (generating_job now job)) k H0)
    as (Hcf & _ & Hpr & Hpr0).
  destruct (after_frames_fields (loop_bound eng job)
              (set_total_frames (max_audio_length_ms job / 80)
                 (generating_job now job)) 0 k)
    as (_ & Hop & _).
  cbn. split; [reflexivity|]. split; [reflexivity|].
  split; [exact Hop|]. split; [exact Hcf|].
  split; [exact Hpr | exact Hpr0].
Qed.

Lemma failure_after_the_loop_fails_the_job_witness :
  (status <$>
     _jobs (service (fst (run (_generate_with_progress (engine_save_fails 2)
                                 short_job) short_service tt 1))) !! "job-2")
    = Some FAILED /\
  (output_path <$>
     _jobs (service (fst (run (_generate_with_progress (engine_save_fails 2)
                                 short_job) short_service tt 1))) !! "job-2")
    = Some None /\
  (status <$>
     _jobs (service (fst (run (_generate_with_progress (engine_save_fails 9)
                                 short_job) short_service tt 1))) !! "job-2")
    = Some FAILED /\
  (current_frame <$>
     _jobs (service (fst (run (_generate_with_progress (engine_save_fails 9)
                                 short_job) short_service tt 1))) !! "job-2")
    = Some 5.
Proof.
  destruct (failure_after_the_loop_fails_the_job (engine_save_fails 2)
              short_service short_job tt 1%nat 2%nat "No space left on device"
              eq_refl (or_intror eq_refl) eq_refl eq_refl)
    as (_ & _ & j & Hj & Hs & _ & Hop & _).
  - intros [|[|m]] Hm; [reflexivity | reflexivity | lia].
  - left. split; reflexivity.
  - right. split; reflexivity.
  - reflexivity.
  - destruct (failure_after_the_loop_fails_the_job (engine_save_fails 9)
                short_service short_job tt 1%nat 5%nat "No space left on device"
                eq_refl (or_intror eq_refl) eq_refl eq_refl)
      as (_ & _ & j' & Hj' & Hs' & _ & _ & Hcf' & _).
    + intros [|[|[|[|[|m]]]]] Hm; try reflexivity; lia.
    + right. reflexivity.
    + right. split; reflexivity.
    + reflexivity.
    + change "job-2" with (job_id short_job). rewrite Hj, Hj'. cbn.
      rewrite Hs, Hop, Hs', Hcf'. repeat split; reflexivity.
Defined.

(** X11.  A model that never signals the end of the sequence is stopped by
    the frame budget: with the loop running on the job's own
    [max_audio_length_ms], the run appends max_audio_length_ms // 80
    frames and completes the job with [current_frame] equal to
    [total_frames], [progress] 1.0 and the [output_path] of the job's file;
    the callbacks are notified once per frame and three times more.  A
    budget under 80 ms gives a completed job of zero frames. *)
Theorem frame_budget_ends_the_loop {World} (eng : Engine)
  (st : PipelineService World) (job : GenerationJob) (w : World) (now : nat) :
  registered st job ->
  _pipeline st = true \/ from_pretrained eng = Returns ->
  preprocess eng = Returns ->
  first_frame eng = Returns ->
  (forall m, generate_frame eng m = Frame) ->
  detokenize eng = Returns ->
  torchaudio_save eng = Returns ->
  forward_max_audio_length_ms eng (max_audio_length_ms job)
    = max_audio_length_ms job ->
  0 <= max_audio_length_ms job ->
  current_frame job = 0 ->
  snd (run (_generate_with_progress eng job) st w now) = Normal tt /\
  _current_job (service (fst (run (_generate_with_progress eng job) st w now)))
    = None /\
  length (notified (trace (fst (run (_generate_with_progress eng job) st w now))))
    = (3 + Z.to_nat (max_audio_length_ms job / 80))%nat /\
  exists j,
    _jobs (service (fst (run (_generate_with_progress eng job) st w now)))
      !! job_id job = Some j /\
    status j = COMPLETED /\
    current_frame j = max_audio_length_ms job / 80 /\
    total_frames j = max_audio_length_ms job / 80 /\
    progress j = 1%Q /\
    output_path j = Some ("/output/" +:+ job_id job +:+ ".mp3") /\
    error j = error job.
Proof.
  intros Hreg Hload Hpre Hfirst Hframes Hdet Hsave Hpass Hms H0.
  assert (HN : loop_bound eng job = max_audio_length_ms job / 80)
    by (unfold loop_bound; now rewrite Hpass).
  assert (HN0 : 0 <= max_audio_length_ms job / 80)
    by (apply Z.div_pos; lia).
  destruct (loop_runs_out eng (Z.to_nat (loop_bound eng job)) 0)
    as [Hlf Hlo]; [intros m _; apply Hframes|].
  assert (Hfin : finished_job eng now job =
                 completed_job (S now)
                   (after_frames (loop_bound eng job)
                      (set_total_frames (max_audio_length_ms job / 80)
                         (generating_job now job)) 0
                      (Z.to_nat (loop_bound eng job)))).
  { unfold finished_job, attempt_outcome, attempt_job.
    rewrite Hpre, Hfirst, Hlo, Hlf, Hdet, Hsave. reflexivity. }
  assert (Hnot : length (run_notified eng now job)
                 = (3 + Z.to_nat (max_audio_length_ms job / 80))%nat).
  { unfold run_notified, attempt_notified. rewrite Hpre, Hfirst, Hlf.
    cbn [length]. rewrite length_app, length_frame_jobs, HN. cbn. lia. }
  destruct (executor_summary eng st job w now Hreg)
    as (w' & tr' & [(msg' & Hp & Hl & _ & _) | (_ & (Hn & _) & Hrun)]).
  { destruct Hload as [Hload | Hload]; congruence. }
  rewrite Hrun. unfold at_work.
  cbn [fst snd trace service _jobs _current_job].
  split; [reflexivity|]. split; [reflexivity|].
  split; [now rewrite Hn|].
  exists (finished_job eng now job).
  destruct (finished_job_keeps_request eng now job) as (Hid & _).
  split; [rewrite Hid; apply lookup_insert_eq|].
  rewrite Hfin.
  destruct (after_frames_counts (loop_bound eng job)
              (set_total_frames (max_audio_length_ms job / 80)
                 (generating_job now job))
              (Z.to_nat (loop_bound eng job)) H0)
    as (Hcf & Htf & _ & _).
  destruct (after_frames_fields (loop_bound eng job)
              (set_total_frames (max_audio_length_ms job / 80)
                 (generating_job now job)) 0 (Z.to_nat (loop_bound eng job)))
    as (_ & _ & Her).
  cbn. split; [reflexivity|].
  split; [rewrite Hcf, HN; lia|]. split; [exact Htf|].
  split; [reflexivity|]. split; [|exact Her].
  rewrite job_id_after_frames. reflexivity.
Qed.

Lemma frame_budget_ends_the_loop_witness :
  length (notified (trace (fst (run (_generate_with_progress engine_never_eos
                                       short_job) short_service tt 1))))
    = 8%nat /\
  (current_frame <$>
     _jobs (service (fst (run (_generate_with_progress engine_never_eos
                                 short_job) short_service tt 1))) !! "job-2")
    = Some 5.
Proof.
  destruct (frame_budget_ends_the_loop engine_never_eos short_service short_job
              tt 1%nat eq_refl (or_intror eq_refl) eq_refl eq_refl
              (fun _ => eq_refl) eq_refl eq_refl eq_refl)
    as (_ & _ & Hlen & j & Hj & _ & Hcf & _).
  - cbn. lia.
  - reflexivity.
  - split; [exact Hlen|].
    change "job-2" with (job_id short_job). rewrite Hj. cbn.
    now rewrite Hcf.
Defined.

Lemma finished_job_terminal eng now job :
  is_terminal (status (finished_job eng now job)) = true.
Proof. unfold finished_job. now destruct (attempt_outcome eng job). Qed.

Lemma frame_counter_bounded_in_run eng now job :
  forward_max_audio_length_ms eng (max_audio_length_ms job)
    = max_audio_length_ms job ->
  0 <= max_audio_length_ms job ->
  current_frame job = 0 -> total_frames job = 0 ->
  Forall (fun j => 0 <= current_frame j <= total_frames j)
    (run_notified eng now job).
Proof.
  intros Hpass Hms Hcf Htf.
  assert (HN : loop_bound eng job = max_audio_length_ms job / 80)
    by (unfold loop_bound; now rewrite Hpass).
  assert (HN0 : 0 <= max_audio_length_ms job / 80) by (apply Z.div_pos; lia).
  pose proof (loop_frames_le eng (Z.to_nat (loop_bound eng job)) 0) as Hle.
  unfold run_notified.
  constructor; [cbn; lia|]. constructor; [cbn; lia|].
  apply Forall_app. split.
  - unfold attempt_notified.
    destruct (preprocess eng); [|constructor].
    destruct (first_frame eng); [|constructor].
    unfold frame_jobs. apply Forall_map, Forall_forall.
    intros m Hm. apply list_elem_of_In, in_seq in Hm. cbn. lia.
  - constructor; [|constructor].
    assert (Hatt : 0 <= current_frame (attempt_job eng job (generating_job now job))
                   <= total_frames (attempt_job eng job (generating_job now job))).
    { unfold attempt_job.
      destruct (preprocess eng); [|cbn; lia].
      destruct (first_frame eng); [|cbn; lia].
      destruct (after_frames_counts (loop_bound eng job)
                  (set_total_frames (max_audio_length_ms job / 80)
                     (generating_job now job))
                  (loop_frames eng (Z.to_nat (loop_bound eng job)) 0) Hcf)
        as (-> & -> & _).
      cbn. lia. }
    unfold finished_job. destruct (attempt_outcome eng job); exact Hatt.
Qed.

(** X12.  With the loop running on the job's own [max_audio_length_ms],
    every job a run hands to [_notify_progress], the terminal one
    included, has [current_frame] between 0 and [total_frames]: no
    subscriber ever sees more frames than the total it is shown. *)
Theorem notified_frame_counter_is_within_total {World} (eng : Engine)
  (st : PipelineService World) (job : GenerationJob) (w : World) (now : nat) :
  registered st job ->
  forward_max_audio_length_ms eng (max_audio_length_ms job)
    = max_audio_length_ms job ->
  0 <= max_audio_length_ms job ->
  current_frame job = 0 -> total_frames job = 0 ->
  Forall (fun j => 0 <= current_frame j <= total_frames j)
    (notified (trace (fst (run (_generate_with_progress eng job) st w now)))).
Proof.
  intros Hreg Hpass Hms Hcf Htf.
  destruct (executor_summary eng st job w now Hreg)
    as (w' & tr' & [(msg & _ & _ & (Hn & _) & Hrun) | (_ & (Hn & _) & Hrun)]);
    rewrite Hrun; cbn [fst trace at_work]; rewrite Hn.
  - constructor; [cbn; lia | constructor].
  - now apply frame_counter_bounded_in_run.
Qed.

Lemma notified_frame_counter_is_within_total_witness :
  Forall (fun j => 0 <= current_frame j <= total_frames j)
    (notified (trace (fst sample_run))).
Proof.
  apply (notified_frame_counter_is_within_total (engine_eos_at 3)
           sample_service sample_job tt 1%nat eq_refl eq_refl);
    [cbn; lia | reflexivity | reflexivity].
Defined.

Lemma start_generation_free {World} eng (st : PipelineService World) job w now :
  _current_job st = None ->
  run (start_generation eng job) st w now =
  run (_generate_with_progress eng job)
    (with_current_job (Some (job_id job)) st) w now.
Proof.
  intros Hslot. unfold run, start_generation, start_generation_acquire.
  unfold bind at 1. unfold bind at 1. unfold get_service at 1.
  cbn [service]. rewrite Hslot. reflexivity.
Qed.

Lemma start_generation_occupied {World} eng (st : PipelineService World) job w now :
  is_Some (_current_job st) ->
  run (start_generation eng job) st w now =
  ({| service := st; world := w; clock := now; trace := [] |},
   Raised (RuntimeError "A generation is already in progress")).
Proof.
  intros [c Hslot]. unfold run, start_generation, start_generation_acquire.
  unfold bind at 1. unfold bind at 1. unfold get_service at 1.
  cbn [service]. rewrite Hslot. reflexivity.
Qed.

(** X13.  The gate is free again after a run: when
    [PipelineService.start_generation] has run one job to its end, a second
    call, on another job of the registry, is admitted and runs that job to
    its end too; both jobs are left terminal and the slot unset. *)
Theorem gate_is_free_again_after_a_run {World} (eng1 eng2 : Engine)
  (st : PipelineService World) (a b : GenerationJob) (w : World) (now : nat) :
  registered st a -> registered st b -> job_id a <> job_id b ->
  _current_job st = None ->
  _pipeline st = true \/ from_pretrained eng1 = Returns ->
  let r1 := run (start_generation eng1 a) st w now in
  let r2 := run (start_generation eng2 b)
              (service (fst r1)) (world (fst r1)) (clock (fst r1)) in
  snd r1 = Normal tt /\ snd r2 = Normal tt /\
  _current_job (service (fst r2)) = None /\
  exists ja jb,
    _jobs (service (fst r2)) !! job_id a = Some ja /\
    is_terminal (status ja) = true /\
    _jobs (service (fst r2)) !! job_id b = Some jb /\
    is_terminal (status jb) = true.
Proof.
  intros Ha Hb Hab Hslot Hload r1 r2. subst r2 r1.
  rewrite (start_generation_free eng1 st a w now Hslot).
  destruct (executor_summary eng1 (with_current_job (Some (job_id a)) st) a w now Ha)
    as (w1 & tr1 & [(msg & Hp & Hl & _ & _) | (_ & _ & Hrun1)]).
  { destruct Hload as [Hload | Hload]; cbn in Hp; congruence. }
  rewrite Hrun1. cbn [fst snd].
  destruct (finished_job_keeps_request eng1 now a) as (Hida & _).
  set (st1 := service (at_work (with_current_job (Some (job_id a)) st) true None
                         (finished_job eng1 now a) w1 (S (S now)) tr1)).
  assert (Hb1 : registered st1 b).
  { unfold registered, st1, at_work. cbn. rewrite Hida.
    rewrite lookup_insert_ne by exact Hab. exact Hb. }
  rewrite (start_generation_free eng2 st1 b _ _ eq_refl).
  destruct (executor_summary eng2 (with_current_job (Some (job_id b)) st1) b
              (world (at_work (with_current_job (Some (job_id a)) st) true None
                        (finished_job eng1 now a) w1 (S (S now)) tr1))
              (clock (at_work (with_current_job (Some (job_id a)) st) true None
                        (finished_job eng1 now a) w1 (S (S now)) tr1)) Hb1)
    as (w2 & tr2 & [(msg & Hp & _) | (_ & _ & Hrun2)]).
  { cbn in Hp. discriminate Hp. }
  rewrite Hrun2. cbn [fst snd].
  split; [reflexivity|]. split; [reflexivity|]. split; [reflexivity|].
  destruct (finished_job_keeps_request eng2 (S (S now)) b) as (Hidb & _).
  exists (finished_job eng1 now a), (finished_job eng2 (S (S now)) b).
  unfold at_work, st1. cbn. rewrite Hidb, Hida.
  split; [rewrite lookup_insert_ne by congruence; apply lookup_insert_eq|].
  split; [apply finished_job_terminal|].
  split; [apply lookup_insert_eq | apply finished_job_terminal].
Qed.

Lemma gate_is_free_again_after_a_run_witness :
  snd first_of_two = Normal tt /\ snd second_of_two = Normal tt /\
  _current_job (service (fst second_of_two)) = None.
Proof.
  destruct (gate_is_free_again_after_a_run (engine_eos_at 3) engine_never_eos
              two_jobs_service sample_job short_job tt 1%nat
              eq_refl eq_refl)
    as (H1 & H2 & H3 & _).
  - discriminate.
  - reflexivity.
  - right. reflexivity.
  - split; [exact H1|]. split; [exact H2 | exact H3].
Defined.

(** X14.  A model that cannot be loaded blocks the service for good: the
    call of [PipelineService.start_generation] that meets the error raises
    it and leaves [_current_job] at its job, which stays LOADING; from then
    on every [POST /start] is answered with 429 and creates no job, and
    every further call of [PipelineService.start_generation] raises
    [RuntimeError] and changes nothing, whatever the model would do. *)
Theorem load_error_blocks_every_later_start {World} (eng : Engine)
  (st : PipelineService World) (job : GenerationJob) (w : World) (now : nat)
  (msg : string) :
  registered st job ->
  _current_job st = None ->
  _pipeline st = false ->
  from_pretrained eng = Raises msg ->
  let r := run (start_generation eng job) st w now in
  snd r = Raised (Exception msg) /\
  _current_job (service (fst r)) = Some (job_id job) /\
  (status <$> _jobs (service (fst r)) !! job_id job) = Some LOADING /\
  (forall uuid t request,
      Router.start_generation uuid t request (service (fst r)) =
      (Router.HTTPException 429
         "A generation is already in progress. Please wait for it to complete.",
       service (fst r), None)) /\
  (forall eng' job' w' t,
      run (start_generation eng' job') (service (fst r)) w' t =
      ({| service := service (fst r); world := w'; clock := t; trace := [] |},
       Raised (RuntimeError "A generation is already in progress"))).
Proof.
  intros Hreg Hslot Hp Hl r. subst r.
  rewrite (start_generation_free eng st job w now Hslot).
  destruct (executor_summary eng (with_current_job (Some (job_id job)) st)
              job w now Hreg)
    as (w1 & tr1 & [(msg' & _ & Hl' & _ & Hrun) | ([Hc | Hc] & _)]);
    [|cbn in Hc; congruence | congruence].
  rewrite Hl in Hl'. injection Hl' as <-.
  rewrite Hrun. unfold at_work. cbn [fst snd service _current_job _jobs
                                       with_current_job loading_job].
  split; [reflexivity|]. split; [reflexivity|].
  split; [cbn; now rewrite lookup_insert_eq|].
  split.
  - intros uuid t request. reflexivity.
  - intros eng' job' w' t. apply start_generation_occupied. cbn. eauto.
Qed.

Lemma load_error_blocks_every_later_start_witness :
  snd stuck_run = Raised (Exception "checkpoint not found") /\
  snd (run (start_generation (engine_eos_at 3) short_job)
         (service (fst stuck_run)) tt 2)
    = Raised (RuntimeError "A generation is already in progress").
Proof.
  destruct (load_error_blocks_every_later_start engine_without_checkpoint
              two_jobs_service sample_job tt 1%nat "checkpoint not found"
              eq_refl eq_refl eq_refl eq_refl)
    as (H1 & _ & _ & _ & H2).
  split; [exact H1|].
  unfold stuck_run. now rewrite H2.
Defined.

(** ** The queues of the open streams *)

Lemma callbacks_world_on_progress j :
  forall qs (w : gmap nat (list GenerationJob)),
    NoDup qs ->
    (forall q, q ∈ qs ->
       default [] (callbacks_world (map Router.on_progress qs) j w !! q)
       = default [] (w !! q) ++ [j]) /\
    (forall q, q ∉ qs ->
       callbacks_world (map Router.on_progress qs) j w !! q = w !! q).
Proof.
  induction qs as [|q0 qs IH]; intros w Hnd.
  - split; [intros q Hq; inversion Hq | reflexivity].
  - apply NoDup_cons in Hnd as [Hq0 Hnd].
    change (callbacks_world (map Router.on_progress (q0 :: qs)) j w)
      with (callbacks_world (map Router.on_progress qs) j
              (<[q0 := default [] (w !! q0) ++ [j]]> w)).
    destruct (IH (<[q0 := default [] (w !! q0) ++ [j]]> w) Hnd) as [Hin Hout].
    split.
    + intros q Hq. apply elem_of_cons in Hq as [-> | Hq].
      * rewrite (Hout q0 Hq0), lookup_insert_eq. reflexivity.
      * rewrite (Hin q Hq), lookup_insert_ne; [reflexivity|].
        intros ->. contradiction.
    + intros q Hq. apply not_elem_of_cons in Hq as [Hne Hq].
      rewrite (Hout q Hq), lookup_insert_ne by congruence. reflexivity.
Qed.

Lemma executor_queues (eng : Engine) (st : PipelineService Router.Queues)
  (job : GenerationJob) (w : Router.Queues) (now : nat) (qs : list nat) :
  registered st job ->
  callbacks_of st (job_id job) = map Router.on_progress qs ->
  NoDup qs ->
  exists (w' : Router.Queues) tr',
    ((forall q, q ∈ qs ->
        default [] (w' !! q) = default [] (w !! q) ++ notified tr') /\
     (forall q, q ∉ qs -> w' !! q = w !! q)) /\
    ((exists msg,
         _pipeline st = false /\ from_pretrained eng = Raises msg /\
         notified tr' = [loading_job now job] /\
         run (_generate_with_progress eng job) st w now =
         (at_work st false (_current_job st) (loading_job now job) w' (S now) tr',
          Raised (Exception msg)))
     \/
     ((_pipeline st = true \/ from_pretrained eng = Returns) /\
      notified tr' = run_notified eng now job /\
      run (_generate_with_progress eng job) st w now =
      (at_work st true None (finished_job eng now job) w' (S (S now)) tr',
       Normal tt))).
Proof.
  intros Hreg Hcbs Hnd. unfold run. unfold Router.Queues in *.
  set (P := fun (js : list GenerationJob) (w' : gmap nat (list GenerationJob))
                (tr : list Event) =>
              notified tr = js /\
              (forall q, q ∈ qs -> default [] (w' !! q) = default [] (w !! q) ++ js) /\
              (forall q, q ∉ qs -> w' !! q = w !! q)).
  assert (HPs : forall js w0 tr s, P js w0 tr -> P js w0 (tr ++ [EvStatus s])).
  { intros js w0 tr s (Hn & Hq). split; [|exact Hq].
    rewrite notified_app, Hn. apply app_nil_r. }
  assert (HPr : forall js w0 tr, P js w0 tr -> P js w0 (tr ++ [EvRelease])).
  { intros js w0 tr (Hn & Hq). split; [|exact Hq].
    rewrite notified_app, Hn. apply app_nil_r. }
  assert (HPn : forall js w0 tr j,
             job_id j = job_id job -> P js w0 tr ->
             P (js ++ [j]) (callbacks_world (callbacks_of st (job_id job)) j w0)
               (tr ++ EvNotify j ::
                  callbacks_events 0 (callbacks_of st (job_id job)) j w0)).
  { intros js w0 tr j _ (Hn & Hin & Hout). rewrite Hcbs.
    destruct (callbacks_world_on_progress j qs w0 Hnd) as [Hin' Hout'].
    split; [|split].
    - change (EvNotify j :: ?l) with ([EvNotify j] ++ l).
      rewrite !notified_app, notified_callbacks_events, Hn. reflexivity.
    - intros q Hq. etransitivity; [exact (Hin' q Hq)|].
      rewrite app_assoc. f_equal. exact (Hin q Hq).
    - intros q Hq. etransitivity; [exact (Hout' q Hq) | exact (Hout q Hq)]. }
  assert (HP0 : P [] w []).
  { split; [reflexivity|]. split; [|reflexivity].
    intros q _. now rewrite app_nil_r. }
  destruct (executor_inv eng st job P HPs HPr HPn [] w now [] Hreg HP0)
    as (w' & tr' & [(msg & Hp & Hl & (Hn & Hin & Hout) & Hrun) |
                    (Hload & (Hn & Hin & Hout) & Hrun)]);
    exists w', tr'; rewrite Hn.
  - split; [split; [exact Hin | exact Hout]|]. left. exists msg. auto.
  - split; [split; [exact Hin | exact Hout]|]. right. auto.
Qed.

(** X15.  When the callbacks of a job are the [on_progress] closures of
    open streams, each with a queue of its own, a run of the executor
    appends to every one of these queues exactly the jobs it handed to
    [_notify_progress], in order, and leaves every other queue as it
    was. *)
Theorem every_queue_receives_every_notification (eng : Engine)
  (st : PipelineService Router.Queues) (job : GenerationJob)
  (w : Router.Queues) (now : nat) (qs : list nat) :
  registered st job ->
  callbacks_of st (job_id job) = map Router.on_progress qs ->
  NoDup qs ->
  (forall q, q ∈ qs ->
     default [] (world (fst (run (_generate_with_progress eng job) st w now)) !! q)
     = default [] (w !! q) ++
       notified (trace (fst (run (_generate_with_progress eng job) st w now)))) /\
  (forall q, q ∉ qs ->
     world (fst (run (_generate_with_progress eng job) st w now)) !! q = w !! q).
Proof.
  intros Hreg Hcbs Hnd.
  destruct (executor_queues eng st job w now qs Hreg Hcbs Hnd)
    as (w' & tr' & Hq & [(msg & _ & _ & _ & Hrun) | (_ & _ & Hrun)]);
    rewrite Hrun; exact Hq.
Qed.

Lemma every_queue_receives_every_notification_witness :
  default [] (world (fst watched_run) !! 1%nat) = notified (trace (fst watched_run)) /\
  default [] (world (fst watched_run) !! 2%nat) = notified (trace (fst watched_run)) /\
  length (notified (trace (fst watched_run))) = 6%nat.
Proof.
  assert (Hnd : NoDup [1%nat; 2%nat]).
  { apply NoDup_cons. split; [|apply NoDup_singleton].
    intros H. apply list_elem_of_singleton in H. discriminate H. }
  assert (Hreg : registered (Router.service_after second_stream_started)
                   watched_job) by (vm_compute; reflexivity).
  assert (Hcbs : callbacks_of (Router.service_after second_stream_started)
                   (job_id watched_job) = map Router.on_progress [1%nat; 2%nat])
    by reflexivity.
  assert (Hq1 : default [] (Router.queues_after second_stream_started !! 1%nat)
                = []) by (vm_compute; reflexivity).
  assert (Hq2 : default [] (Router.queues_after second_stream_started !! 2%nat)
                = []) by (vm_compute; reflexivity).
  destruct (every_queue_receives_every_notification (engine_eos_at 3)
              (Router.service_after second_stream_started) watched_job
              (Router.queues_after second_stream_started) 1%nat [1%nat; 2%nat]
              Hreg Hcbs Hnd)
    as [Hin _].
  pose proof (Hin 1%nat (list_elem_of_here _ _)) as H1.
  pose proof (Hin 2%nat (list_elem_of_further _ _ _ (list_elem_of_here _ _))) as H2.
  rewrite Hq1 in H1. rewrite Hq2 in H2.
  unfold watched_run.
  split; [exact H1|]. split; [exact H2|].
  vm_compute. reflexivity.
Defined.

Lemma length_run_notified eng now job :
  (3 <= length (run_notified eng now job))%nat.
Proof.
  unfold run_notified. cbn [length]. rewrite length_app. cbn. lia.
Qed.

Lemma step_wait_dequeues (b : Router.Bridge) (st : PipelineService Router.Queues)
  (w : Router.Queues) x rest :
  Router.b_position b = Router.AtWait ->
  default [] (w !! Router.b_queue b) = x :: rest ->
  Router.step b Router.Resume st w =
  {| Router.bridge := Router.at_position (Router.AtUpdateYield x) b;
     Router.emitted := [Router.Data (Router._job_to_dict (Router.current st b x))];
     Router.service_after := st;
     Router.queues_after := <[Router.b_queue b := rest]> w |}.
Proof.
  intros Hpos Hw. unfold Router.step. rewrite Hpos.
  unfold Router.Queues in *. now rewrite Hw.
Qed.

Lemma step_wait_keepalive (b : Router.Bridge) (st : PipelineService Router.Queues)
  (w : Router.Queues) :
  Router.b_position b = Router.AtWait ->
  default [] (w !! Router.b_queue b) = [] ->
  Router.step b Router.Resume st w =
  {| Router.bridge := Router.at_position Router.AtKeepaliveYield b;
     Router.emitted := [Router.Keepalive];
     Router.service_after := st;
     Router.queues_after := w |}.
Proof.
  intros Hpos Hw. unfold Router.step. rewrite Hpos.
  unfold Router.Queues in *. now rewrite Hw.
Qed.

Lemma step_update_terminal (b : Router.Bridge) (st : PipelineService Router.Queues)
  (w : Router.Queues) x :
  Router.b_position b = Router.AtUpdateYield x ->
  is_terminal (status (Router.current st b x)) = true ->
  Router.step b Router.Resume st w = Router.finish b st w.
Proof.
  intros Hpos Hterm. unfold Router.step. now rewrite Hpos, Hterm.
Qed.

(** X16.  A stream that was waiting while the executor ran its job to the
    end reports the end at once when it is resumed: the first record it
    emits carries the terminal job, not the LOADING job that was queued
    first, since the queue holds the one job object of the registry; the
    generator then ends and unregisters the callbacks, and the remaining
    entries of its queue are never sent. *)
Theorem stream_resumed_after_the_run_reports_the_end (eng : Engine)
  (st : PipelineService Router.Queues) (job : GenerationJob)
  (w : Router.Queues) (now : nat) (qs : list nat) (b : Router.Bridge) :
  registered st job ->
  callbacks_of st (job_id job) = map Router.on_progress qs ->
  NoDup qs ->
  _pipeline st = true \/ from_pretrained eng = Returns ->
  Router.b_job_id b = job_id job ->
  Router.b_position b = Router.AtWait ->
  Router.b_queue b ∈ qs ->
  exists jT,
    _jobs (service (fst (run (_generate_with_progress eng job) st w now)))
      !! job_id job = Some jT /\
    is_terminal (status jT) = true /\
    Router.emitted
      (Router.drive b [Router.Resume; Router.Resume]
         (service (fst (run (_generate_with_progress eng job) st w now)))
         (world (fst (run (_generate_with_progress eng job) st w now))))
      = [Router.Data (Router._job_to_dict jT)] /\
    Router.b_position
      (Router.bridge
         (Router.drive b [Router.Resume; Router.Resume]
            (service (fst (run (_generate_with_progress eng job) st w now)))
            (world (fst (run (_generate_with_progress eng job) st w now)))))
      = Router.Finished /\
    subscribers
      (Router.service_after
         (Router.drive b [Router.Resume; Router.Resume]
            (service (fst (run (_generate_with_progress eng job) st w now)))
            (world (fst (run (_generate_with_progress eng job) st w now)))))
      (job_id job) = 0%nat /\
    (2 <= length
            (default []
               (Router.queues_after
                  (Router.drive b [Router.Resume; Router.Resume]
                     (service (fst (run (_generate_with_progress eng job) st w now)))
                     (world (fst (run (_generate_with_progress eng job) st w now))))
                !! Router.b_queue b)))%nat.
Proof.
  intros Hreg Hcbs Hnd Hload Hid Hpos Hq.
  destruct (executor_queues eng st job w now qs Hreg Hcbs Hnd)
    as (w' & tr' & [Hin _] & [(msg & Hp & Hl & _ & _) | (_ & Hn & Hrun)]).
  { destruct Hload as [Hload | Hload]; congruence. }
  rewrite Hrun. cbn [fst service world at_work].
  destruct (finished_job_keeps_request eng now job) as (HidT & _).
  set (stT := {| _pipeline := true;
                 _jobs := <[job_id (finished_job eng now job) :=
                              finished_job eng now job]> (_jobs st);
                 _current_job := None;
                 _progress_callbacks := _progress_callbacks st |}).
  assert (HjT : _jobs stT !! Router.b_job_id b = Some (finished_job eng now job)).
  { unfold stT. cbn. rewrite Hid, HidT. apply lookup_insert_eq. }
  pose proof (Hin _ Hq) as Hqueue. rewrite Hn in Hqueue.
  pose proof (length_run_notified eng now job) as Hlen.
  destruct (default [] (w' !! Router.b_queue b)) as [|x rest] eqn:Hw'.
  { exfalso. apply (f_equal length) in Hqueue. rewrite length_app in Hqueue.
    cbn [length] in Hqueue. lia. }
  assert (Hrest : (2 <= length rest)%nat).
  { apply (f_equal length) in Hqueue. rewrite length_app in Hqueue.
    cbn [length] in Hqueue. lia. }
  exists (finished_job eng now job).
  split; [rewrite <- Hid; exact HjT|].
  split; [apply finished_job_terminal|].
  assert (Hcur : forall b' x',
             Router.b_job_id b' = Router.b_job_id b ->
             Router.current stT b' x' = finished_job eng now job).
  { intros b' x' Hb'. unfold Router.current. now rewrite Hb', HjT. }
  unfold Router.drive.
  rewrite (step_wait_dequeues b stT w' x rest Hpos Hw').
  cbn [Router.bridge Router.emitted Router.service_after Router.queues_after].
  rewrite (step_update_terminal (Router.at_position (Router.AtUpdateYield x) b)
             stT (<[Router.b_queue b := rest]> w') x eq_refl)
    by (rewrite Hcur by reflexivity; apply finished_job_terminal).
  rewrite Hcur by reflexivity.
  cbn [Router.finish Router.bridge Router.emitted Router.service_after
         Router.queues_after Router.at_position Router.b_position
         Router.b_job_id Router.b_queue app].
  split; [reflexivity|]. split; [reflexivity|].
  split; [rewrite <- Hid; apply subscribers_unregister|].
  unfold Router.Queues in *. rewrite lookup_insert_eq. exact Hrest.
Qed.

Lemma stream_resumed_after_the_run_reports_the_end_witness :
  Router.b_position (Router.bridge resumed_after_run) = Router.Finished /\
  subscribers (Router.service_after resumed_after_run) "job-1" = 0%nat.
Proof.
  assert (Hnd : NoDup [1%nat; 2%nat]).
  { apply NoDup_cons. split; [|apply NoDup_singleton].
    intros H. apply list_elem_of_singleton in H. discriminate H. }
  assert (Hreg : registered (Router.service_after second_stream_started)
                   watched_job) by (vm_compute; reflexivity).
  assert (Hcbs : callbacks_of (Router.service_after second_stream_started)
                   (job_id watched_job) = map Router.on_progress [1%nat; 2%nat])
    by reflexivity.
  destruct (stream_resumed_after_the_run_reports_the_end (engine_eos_at 3)
              (Router.service_after second_stream_started) watched_job
              (Router.queues_after second_stream_started) 1%nat [1%nat; 2%nat]
              waiting_stream Hreg Hcbs Hnd (or_intror eq_refl) eq_refl eq_refl
              (list_elem_of_here _ _))
    as (jT & _ & _ & _ & Hpos & Hsub & _).
  unfold resumed_after_run, watched_run.
  split; [exact Hpos | exact Hsub].
Defined.

Lemma step_keeps_waiting (b : Router.Bridge) (st : PipelineService Router.Queues)
  (w : Router.Queues) j :
  _jobs st !! Router.b_job_id b = Some j ->
  is_terminal (status j) = false ->
  is_waiting (Router.b_position b) = true ->
  is_waiting (Router.b_position (Router.bridge (Router.step b Router.Resume st w)))
    = true /\
  Router.b_job_id (Router.bridge (Router.step b Router.Resume st w))
    = Router.b_job_id b /\
  Router.service_after (Router.step b Router.Resume st w) = st /\
  Forall (fun ev => ev = Router.Keepalive \/
                    ev = Router.Data (Router._job_to_dict j))
    (Router.emitted (Router.step b Router.Resume st w)).
Proof.
  intros Hj Hlive Hpos. unfold Router.step, Router.current, get_job.
  rewrite Hj. cbn [default from_option id]. rewrite Hlive.
  destruct (Router.b_position b); try discriminate Hpos;
    [ | destruct (default [] (w !! Router.b_queue b)) | | ];
    cbn;
    (split; [reflexivity|]); (split; [reflexivity|]);
    (split; [reflexivity|]);
    first [ constructor; [left; reflexivity | constructor]
          | constructor; [right; reflexivity | constructor]
          | constructor ].
Qed.

(** X17.  A stream ends by itself only through the status of its job: while
    the registry holds the job with a status that is not COMPLETED or
    FAILED, a generator suspended in its [try] statement stays there however
    often it is resumed; it emits nothing but keepalives and records of the
    job as it is, and it does not unregister its callback.  The stream of a
    job left LOADING by a model that could not be loaded never ends. *)
Theorem stream_of_unfinished_job_stays_open (b : Router.Bridge)
  (st : PipelineService Router.Queues) (w : Router.Queues)
  (j : GenerationJob) (n : nat) :
  _jobs st !! Router.b_job_id b = Some j ->
  is_terminal (status j) = false ->
  is_waiting (Router.b_position b) = true ->
  is_waiting
    (Router.b_position
       (Router.bridge (Router.drive b (replicate n Router.Resume) st w))) = true /\
  Router.service_after (Router.drive b (replicate n Router.Resume) st w) = st /\
  Forall (fun ev => ev = Router.Keepalive \/
                    ev = Router.Data (Router._job_to_dict j))
    (Router.emitted (Router.drive b (replicate n Router.Resume) st w)).
Proof.
  intros Hj Hlive. revert b w Hj.
  induction n as [|n IH]; intros b w Hj Hpos.
  - cbn. auto.
  - cbn [replicate Router.drive Router.bridge Router.emitted
           Router.service_after].
    destruct (step_keeps_waiting b st w j Hj Hlive Hpos)
      as (Hpos1 & Hid1 & Hst1 & Hem1).
    rewrite Hst1.
    destruct (IH (Router.bridge (Router.step b Router.Resume st w))
                (Router.queues_after (Router.step b Router.Resume st w)))
      as (Hpos2 & Hst2 & Hem2); [now rewrite Hid1 | exact Hpos1 |].
    split; [exact Hpos2|]. split; [exact Hst2|].
    apply Forall_app. split; [exact Hem1 | exact Hem2].
Qed.

Lemma stream_of_unfinished_job_stays_open_witness :
  is_waiting (Router.b_position (Router.bridge stuck_stream)) = true /\
  subscribers (Router.service_after stuck_stream) "job-1" = 2%nat.
Proof.
  assert (Hj : _jobs (service (fst watched_run_without_checkpoint))
               !! Router.b_job_id (Router.bridge first_stream_started)
               = Some (loading_job 1 watched_job))
    by (vm_compute; reflexivity).
  destruct (stream_of_unfinished_job_stays_open
              (Router.bridge first_stream_started)
              (service (fst watched_run_without_checkpoint))
              (world (fst watched_run_without_checkpoint))
              (loading_job 1 watched_job) 5%nat Hj eq_refl eq_refl)
    as (Hpos & Hst & _).
  unfold stuck_stream. split; [exact Hpos|].
  rewrite Hst. vm_compute. reflexivity.
Defined.

Lemma step_frame (b : Router.Bridge) (inp : Router.Input)
  (st : PipelineService Router.Queues) (w : Router.Queues) :
  Router.b_job_id (Router.bridge (Router.step b inp st w)) = Router.b_job_id b /\
  Router.b_queue (Router.bridge (Router.step b inp st w)) = Router.b_queue b /\
  _jobs (Router.service_after (Router.step b inp st w)) = _jobs st /\
  _current_job (Router.service_after (Router.step b inp st w)) = _current_job st /\
  _pipeline (Router.service_after (Router.step b inp st w)) = _pipeline st /\
  (forall other, other <> Router.b_job_id b ->
     _progress_callbacks (Router.service_after (Router.step b inp st w)) !! other
     = _progress_callbacks st !! other) /\
  (forall q, q <> Router.b_queue b ->
     Router.queues_after (Router.step b inp st w) !! q = w !! q).
Proof.
  unfold Router.Queues in *.
  assert (Hfin : forall other, other <> Router.b_job_id b ->
             _progress_callbacks (unregister_progress_callbacks (Router.b_job_id b) st)
               !! other = _progress_callbacks st !! other).
  { intros other Hne. unfold unregister_progress_callbacks. cbn.
    now rewrite lookup_delete_ne. }
  assert (Hreg : forall other, other <> Router.b_job_id b ->
             _progress_callbacks
               (register_progress_callback (Router.b_job_id b)
                  (Router.on_progress (Router.b_queue b)) st)
               !! other = _progress_callbacks st !! other).
  { intros other Hne. unfold register_progress_callback. cbn.
    now rewrite lookup_insert_ne. }
  assert (Hq : forall (l : list GenerationJob) q, q <> Router.b_queue b ->
             <[Router.b_queue b := l]> w !! q = w !! q).
  { intros l q Hne. now rewrite lookup_insert_ne. }
  remember (Router.step b inp st w) as s eqn:Hs.
  unfold Router.step, Router.finish in Hs. unfold Router.Queues in *.
  destruct (Router.b_position b), inp.
  all: try match type of Hs with
      | context [match default [] ?l with _ => _ end] => destruct (default [] l)
      end.
  all: try match type of Hs with
      | context [match get_job ?t ?i with _ => _ end] => destruct (get_job t i)
      end.
  all: try match type of Hs with
      | context [if is_terminal ?c then _ else _] => destruct (is_terminal c)
      end.
  all: subst s.
  all: cbn [Router.bridge Router.service_after Router.queues_after
           Router.at_position Router.b_job_id Router.b_queue].
  all: (split; [reflexivity|]); (split; [reflexivity|]);
    (split; [reflexivity|]); (split; [reflexivity|]);
    (split; [reflexivity|]).
  all: (split;
     [ lazymatch goal with
       | |- forall other, _ ->
              _progress_callbacks (unregister_progress_callbacks _ _) !! _ = _ =>
           exact Hfin
       | |- forall other, _ ->
              _progress_callbacks (register_progress_callback _ _ _) !! _ = _ =>
           exact Hreg
       | |- _ => intros other _; reflexivity
       end
     | lazymatch goal with
       | |- forall q, _ -> <[_ := _]> _ !! _ = _ => exact (Hq _)
       | |- _ => intros q _; reflexivity
       end ]).
Qed.

(** X18.  A stream touches nothing but the callbacks of its own job id and
    its own queue: however a generator is driven, the registry, the slot
    and the pipeline are as before, and so are the callbacks of every other
    job id and the queue of every other connection. *)
Theorem stream_touches_only_its_callbacks_and_queue (inputs : list Router.Input) :
  forall (b : Router.Bridge) (st : PipelineService Router.Queues)
         (w : Router.Queues),
    _jobs (Router.service_after (Router.drive b inputs st w)) = _jobs st /\
    _current_job (Router.service_after (Router.drive b inputs st w))
      = _current_job st /\
    _pipeline (Router.service_after (Router.drive b inputs st w)) = _pipeline st /\
    (forall other, other <> Router.b_job_id b ->
       _progress_callbacks (Router.service_after (Router.drive b inputs st w))
         !! other = _progress_callbacks st !! other) /\
    (forall q, q <> Router.b_queue b ->
       Router.queues_after (Router.drive b inputs st w) !! q = w !! q).
Proof.
  induction inputs as [|inp inputs IH]; intros b st w.
  - cbn. auto.
  - cbn [Router.drive Router.service_after Router.queues_after].
    destruct (step_frame b inp st w) as (Hid & Hqu & H1 & H2 & H3 & H4 & H5).
    destruct (IH (Router.bridge (Router.step b inp st w))
                (Router.service_after (Router.step b inp st w))
                (Router.queues_after (Router.step b inp st w)))
      as (G1 & G2 & G3 & G4 & G5).
    split; [congruence|]. split; [congruence|]. split; [congruence|].
    split.
    + intros other Hne. rewrite G4 by congruence. now apply H4.
    + intros q Hne. etransitivity; [apply G5; congruence | now apply H5].
Qed.

(** ** Downloads *)

(** X19.  After a run of the executor on a registered job,
    [GET /download] on the job never answers 500: if the run left the job
    COMPLETED, the answer carries the job id, the [output_path]
    /output/<job_id>.mp3 as [download_url] and the file name made of the
    first eight characters of the id; otherwise, the job being FAILED or
    left LOADING, it is 400. *)
Theorem download_after_a_run {World} (eng : Engine) (st : PipelineService World)
  (job : GenerationJob) (w : World) (now : nat) :
  registered st job ->
  exists j,
    _jobs (service (fst (run (_generate_with_progress eng job) st w now)))
      !! job_id job = Some j /\
    ((status j = COMPLETED /\
      Router.get_download_info
        (service (fst (run (_generate_with_progress eng job) st w now)))
        (job_id job)
      = Router.Ok
          {| Router.dl_job_id := job_id job;
             Router.dl_download_url := "/output/" +:+ job_id job +:+ ".mp3";
             Router.dl_filename :=
               "heartmula_" +:+ String.substring 0 8 (job_id job) +:+ ".mp3" |})
     \/
     (status j <> COMPLETED /\
      Router.get_download_info
        (service (fst (run (_generate_with_progress eng job) st w now)))
        (job_id job)
      = Router.HTTPException 400 "Job is not completed")).
Proof.
  intros Hreg.
  destruct (executor_summary eng st job w now Hreg)
    as (w' & tr' & [(msg & _ & _ & _ & Hrun) | (_ & _ & Hrun)]);
    rewrite Hrun; unfold at_work; cbn [fst service _jobs].
  - exists (loading_job now job).
    change (job_id (loading_job now job)) with (job_id job).
    split; [apply lookup_insert_eq|]. right. split; [discriminate|].
    unfold Router.get_download_info, get_job. cbn [_jobs].
    now rewrite lookup_insert_eq.
  - destruct (finished_job_keeps_request eng now job) as (Hid & _).
    exists (finished_job eng now job). rewrite Hid.
    split; [apply lookup_insert_eq|].
    unfold Router.get_download_info, get_job. cbn [_jobs].
    rewrite lookup_insert_eq.
    unfold finished_job in *.
    destruct (attempt_outcome eng job);
      cbn [status output_path job_id completed_job failed_job set_completed_at
             set_progress set_status set_output_path set_error] in Hid |- *.
    + left. split; [reflexivity|]. now rewrite Hid.
    + right. split; [discriminate | reflexivity].
Qed.

Lemma download_after_a_run_witness :
  Router.get_download_info (service (fst sample_run)) "job-1"
  = Router.Ok {| Router.dl_job_id := "job-1";
                 Router.dl_download_url := "/output/job-1.mp3";
                 Router.dl_filename := "heartmula_job-1.mp3" |}.
Proof.
  destruct (download_after_a_run (engine_eos_at 3) sample_service sample_job
              tt 1%nat eq_refl)
    as (j & Hj & [(_ & Hdl) | (Hno & _)]).
  - exact Hdl.
  - exfalso. apply Hno. vm_compute in Hj. injection Hj as <-. reflexivity.
Defined.

(** ** The gate with releases *)

Lemma segment_slot {World} (seg : EventLoop.Segment) (env : Env World) :
  (EventLoop.is_acquired (snd (EventLoop.segment seg env)) = true /\
   free_slots env = 1%nat /\
   free_slots (fst (EventLoop.segment seg env)) = 0%nat /\
   EventLoop.is_release seg = false)
  \/
  (EventLoop.is_acquired (snd (EventLoop.segment seg env)) = false /\
   EventLoop.is_release seg = false /\
   free_slots (fst (EventLoop.segment seg env)) = free_slots env)
  \/
  (EventLoop.is_acquired (snd (EventLoop.segment seg env)) = false /\
   EventLoop.is_release seg = true /\
   free_slots (fst (EventLoop.segment seg env)) = 1%nat).
Proof.
  destruct seg as [uuid now request | job |].
  - right. left. cbn [EventLoop.segment EventLoop.is_release].
    unfold Router.start_generation, free_slots.
    destruct (_current_job (service env)) eqn:Hslot; cbn.
    + rewrite Hslot. auto.
    + rewrite Hslot. auto.
  - cbn [EventLoop.segment EventLoop.is_release].
    unfold start_generation_acquire, bind, get_service, free_slots.
    destruct (_current_job (service env)) eqn:Hslot; cbn.
    + right. left. rewrite Hslot. auto.
    + left. auto.
  - right. right. cbn. auto.
Qed.

(** X20.  On every schedule of creation requests, acquisition attempts and
    releases, the acquisitions that set [_current_job] are at most the
    releases of the schedule, plus one if the slot was free at the start:
    between two releases the gate admits one job. *)
Theorem acquisitions_bounded_by_releases {World} (segs : list EventLoop.Segment) :
  forall env : Env World,
    (EventLoop.acquisitions (fst (EventLoop.schedule segs env))
     <= release_segments segs + free_slots env)%nat.
Proof.
  induction segs as [|seg segs IH]; intros env.
  - cbn. lia.
  - cbn [EventLoop.schedule].
    pose proof (segment_slot seg env) as Hseg.
    destruct (EventLoop.segment seg env) as [env1 o]. cbn [fst snd] in Hseg.
    specialize (IH env1).
    destruct (EventLoop.schedule segs env1) as [os env2]. cbn [fst] in *.
    unfold EventLoop.acquisitions, release_segments in *.
    rewrite !filter_cons.
    destruct Hseg as [(Ho & Hf & Hf1 & Hr) | [(Ho & Hr & Hf1) | (Ho & Hr & Hf1)]];
      repeat case_decide; try congruence; cbn [length]; lia.
Qed.

Lemma segment_registry {World} (seg : EventLoop.Segment) (env : Env World) id :
  (is_Some (_jobs (service env) !! id) ->
   is_Some (_jobs (service (fst (EventLoop.segment seg env))) !! id)) /\
  (id ∉ posted [seg] ->
   _jobs (service (fst (EventLoop.segment seg env))) !! id
   = _jobs (service env) !! id).
Proof.
  destruct seg as [uuid now request | job |].
  - cbn [EventLoop.segment]. unfold Router.start_generation.
    destruct (_current_job (service env)); cbn; [auto|].
    split.
    + intros Hsome. destruct (decide (id = uuid)) as [-> | Hne].
      * rewrite lookup_insert_eq. eauto.
      * now rewrite lookup_insert_ne.
    + intros Hid. rewrite lookup_insert_ne; [reflexivity|].
      intros ->. apply Hid. left.
  - cbn [EventLoop.segment].
    unfold start_generation_acquire, bind, get_service.
    destruct (_current_job (service env)); cbn; auto.
  - cbn. auto.
Qed.

(** X21.  Nothing the handler of [POST /start], the start of a background
    task or the release of the slot does removes a job: a job id of the
    registry is still there after any schedule, and the entry of an id that
    no creation request of the schedule is given is unchanged. *)
Theorem schedule_keeps_every_job {World} (segs : list EventLoop.Segment)
  (id : string) :
  forall env : Env World,
    (is_Some (_jobs (service env) !! id) ->
     is_Some (_jobs (service (snd (EventLoop.schedule segs env))) !! id)) /\
    (id ∉ posted segs ->
     _jobs (service (snd (EventLoop.schedule segs env))) !! id
     = _jobs (service env) !! id).
Proof.
  induction segs as [|seg segs IH]; intros env.
  - cbn. auto.
  - cbn [EventLoop.schedule].
    destruct (segment_registry seg env id) as [Hkeep Hsame].
    destruct (EventLoop.segment seg env) as [env1 o]. cbn [fst] in *.
    destruct (IH env1) as [Hkeep' Hsame'].
    destruct (EventLoop.schedule segs env1) as [os env2]. cbn [snd] in *.
    split; [auto|].
    intros Hid.
    assert (H1 : id ∉ posted [seg]).
    { intros Hin. apply Hid. unfold posted in *.
      destruct seg; cbn in *; try (now inversion Hin).
      apply list_elem_of_singleton in Hin as ->. left. }
    assert (H2 : id ∉ posted segs).
    { intros Hin. apply Hid. unfold posted in *.
      destruct seg; cbn; [right|..]; exact Hin. }
    rewrite (Hsame' H2). exact (Hsame H1).
Qed.

Lemma schedule_keeps_every_job_witness :
  is_Some (_jobs (service (snd (EventLoop.schedule sample_schedule
                                  {| service := two_jobs_service; world := tt;
                                     clock := 0%nat; trace := [] |})))
           !! "job-2").
Proof.
  apply (schedule_keeps_every_job sample_schedule "job-2").
  vm_compute. eauto.
Defined.

(** X22.  The handler of [POST /start] does not take the slot: a request
    handled while the slot is free creates a QUEUED job under the new id,
    which [GET /status] and [GET /download] then find, the second with
    400, hands it to a background task and leaves [_current_job] unset, so
    a request that follows before the task starts is accepted as well. *)
Theorem accepted_start_leaves_the_slot_free {World} (uuid : string) (now : nat)
  (request : Router.GenerationRequest) (st : PipelineService World) :
  _current_job st = None ->
  exists job st',
    Router.start_generation uuid now request st =
    (Router.Ok
       {| Router.resp_job_id := uuid;
          Router.resp_status := "queued";
          Router.resp_message :=
            "Generation started. Use /progress/{job_id} to track progress." |},
     st', Some job) /\
    get_job st' uuid = Some job /\
    job_id job = uuid /\ status job = QUEUED /\
    max_audio_length_ms job = Router.req_max_audio_length_ms request /\
    Router.get_job_status st' uuid =
    Router.Ok
      {| Router.d_job_id := uuid; Router.d_status := "queued";
         Router.d_progress := 0%Q; Router.d_current_frame := 0;
         Router.d_total_frames := 0; Router.d_output_path := None;
         Router.d_error := None |} /\
    Router.get_download_info st' uuid =
    Router.HTTPException 400 "Job is not completed" /\
    _current_job st' = None /\
    forall uuid' now' request',
    exists response job' st'',
      Router.start_generation uuid' now' request' st' =
      (Router.Ok response, st'', Some job').
Proof.
  intros Hslot. unfold Router.start_generation. rewrite Hslot.
  cbn [create_job]. eexists _, _. split; [reflexivity|].
  unfold Router.get_job_status, Router.get_download_info, get_job.
  cbn [_jobs with_jobs]. rewrite lookup_insert_eq.
  split; [reflexivity|]. split; [reflexivity|]. split; [reflexivity|].
  split; [reflexivity|]. split; [reflexivity|]. split; [reflexivity|].
  split; [exact Hslot|].
  intros uuid' now' request'. cbn [_current_job with_jobs]. rewrite Hslot.
  eexists _, _, _. reflexivity.
Qed.

Lemma accepted_start_leaves_the_slot_free_witness :
  _current_job after_first_post = None /\
  Router.get_job_status after_first_post "job-1" =
  Router.Ok
    {| Router.d_job_id := "job-1"; Router.d_status := "queued";
       Router.d_progress := 0%Q; Router.d_current_frame := 0;
       Router.d_total_frames := 0; Router.d_output_path := None;
       Router.d_error := None |}.
Proof.
  destruct (accepted_start_leaves_the_slot_free (World := unit) "job-1" 0%nat
              sample_request init eq_refl)
    as (job & st' & Hpost & _ & _ & _ & _ & Hstatus & _ & Hslot & _).
  assert (Hst : after_first_post = st')
    by (unfold after_first_post; now rewrite Hpost).
  rewrite Hst. split; [exact Hslot | exact Hstatus].
Defined.
